(** * pyOKR_VOs_CPUs_SLAs_Accounting: ordered grid maintenance and aggregation

    A shallow embedding of [pyOKR_VOs_CPUs_SLAs_Accounting_v0.1.py]:
    the two header scans ([get_GWorkSheetCellPosition], [get_vo_cell]),
    the cell update ([update_GWorkSheet]) and the aggregation loop of
    [main], followed by the properties of the specification checked on
    them.

    Python [str] values are modelled as [string] (bytes; the UTF-8 byte
    order is the code point order Python compares by), Python [int]s as
    [Z] for CPU hours and as [nat] for 1-indexed grid coordinates, a
    missing dictionary key as [None] in an [option] field, raising
    [KeyError] on access. *)

From Stdlib Require Import String Ascii List ZArith Arith Bool Lia Sorted.
Import ListNotations.
Local Open Scope string_scope.
Local Open Scope list_scope.

(* ===================================================================== *)
(** ** Python string primitives *)
(* ===================================================================== *)

Module PyStr.

(** [needle in hay] on two strings: substring test. *)
Fixpoint contains (needle hay : string) : bool :=
  String.prefix needle hay
  || match hay with
     | EmptyString => false
     | String _ rest => contains needle rest
     end.

(** [s[0:4]] *)
Definition slice_0_4 (s : string) : string := String.substring 0 4 s.

(** [s[-2:]] *)
Definition slice_last2 (s : string) : string :=
  String.substring (String.length s - 2) 2 s.

(** [s.strip()], on the ASCII white space. *)
Definition is_space (c : ascii) : bool :=
  let n := nat_of_ascii c in
  (((9 <=? n) && (n <=? 13)) || ((28 <=? n) && (n <=? 32)))%nat.

Fixpoint lstrip (s : string) : string :=
  match s with
  | EmptyString => EmptyString
  | String c rest => if is_space c then lstrip rest else s
  end.

Fixpoint rstrip (s : string) : string :=
  match s with
  | EmptyString => EmptyString
  | String c rest =>
      match rstrip rest with
      | EmptyString => if is_space c then EmptyString else String c EmptyString
      | rest' => String c rest'
      end
  end.

Definition strip (s : string) : string := rstrip (lstrip s).

(** [a < b], [a <= b], [a >= b] on [str]: lexicographic on code units. *)
Definition lt (a b : string) : bool := String.ltb a b.
Definition le (a b : string) : bool := String.leb a b.
Definition ge (a b : string) : bool := String.leb b a.

End PyStr.

Notation "a 'in_str' b" := (PyStr.contains a b) (at level 65, no associativity).

(** The header marker both scans test for. *)
Definition carries_marker (header : string) : bool := "Period" in_str header.

(* ===================================================================== *)
(** ** The two header scans *)
(* ===================================================================== *)

(** The [for header in values_list] loop of [get_GWorkSheetCellPosition]
    (lines 71-79); [pos] is the running position, the boolean is [found]
    (a [break] ends the recursion). *)
Fixpoint period_loop (accounting_period : string) (values_list : list string)
                     (pos : nat) : nat * bool :=
  match values_list with
  | [] => (pos, false)
  | header :: rest =>
      if negb ("Period" in_str header) then
        if (header =? accounting_period) || (header =? "") then (pos, true)
        else if PyStr.lt header accounting_period
             then period_loop accounting_period rest (pos + 1)
             else period_loop accounting_period rest pos
      else period_loop accounting_period rest pos
  end.

(** Lines 65-81 of [get_GWorkSheetCellPosition], on the list returned by
    [worksheet.col_values(1)]. *)
Definition locate_period (values_list : list string) (accounting_period : string)
  : nat * bool :=
  if (1 <? List.length values_list)%nat
  then period_loop accounting_period values_list 2
  else (2, false).

(** The [for header in values_list] loop of [get_vo_cell] (lines 95-101). *)
Fixpoint vo_loop (vo_name : string) (values_list : list string)
                 (vo_name_pos : nat) : nat * bool :=
  match values_list with
  | [] => (vo_name_pos, false)
  | header :: rest =>
      if negb ("Period" in_str header) then
        if (header =? vo_name) || (header =? "") then (vo_name_pos, true)
        else if PyStr.lt header vo_name
             then vo_loop vo_name rest (vo_name_pos + 1)
             else vo_loop vo_name rest vo_name_pos
      else vo_loop vo_name rest vo_name_pos
  end.

(** Lines 88-101 of [get_vo_cell], on [worksheet.row_values(1)]. *)
Definition locate_vo (values_list : list string) (vo_name : string) : nat * bool :=
  if (1 <? List.length values_list)%nat
  then vo_loop vo_name values_list 2
  else (2, false).

(* ===================================================================== *)
(** ** The worksheet *)
(* ===================================================================== *)

Module Worksheet.

(** Modelled from the spec: the gspread worksheet object returned by
    [init_GWorkSheet] is not part of the sources.  Following sections 4.2
    and 6 of the specification, the grid is a table of string cells
    addressed by 1-indexed (row, column), a cell that was never written
    reads as the empty string, and the grid grows on demand. *)
Definition worksheet : Type := list (list string).

Definition cell (ws : worksheet) (row col : nat) : string :=
  nth (col - 1) (nth (row - 1) ws []) "".

(** Modelled from the spec: the value list read from an axis ends at its
    last cell that holds a value (a header-only axis has length 1, an
    unused axis length 0); an empty cell before that one is returned as
    an empty label. *)
Fixpoint strip_trailing (l : list string) : list string :=
  match l with
  | [] => []
  | x :: rest =>
      match strip_trailing rest with
      | [] => if x =? "" then [] else [x]
      | rest' => x :: rest'
      end
  end.

Definition column (ws : worksheet) (col : nat) : list string :=
  map (fun row => nth (col - 1) row "") ws.

(** Modelled from the spec: [worksheet.col_values(col)]. *)
Definition col_values (ws : worksheet) (col : nat) : list string :=
  strip_trailing (column ws col).

(** Modelled from the spec: [worksheet.row_values(row)]. *)
Definition row_values (ws : worksheet) (row : nat) : list string :=
  strip_trailing (nth (row - 1) ws []).

(** Insertion before 0-indexed slot [i], padding with [d] when the list is
    shorter than [i]. *)
Fixpoint insert_at {A : Type} (d : A) (i : nat) (x : A) (l : list A) : list A :=
  match i with
  | O => x :: l
  | S i' =>
      match l with
      | [] => d :: insert_at d i' x []
      | y :: rest => y :: insert_at d i' x rest
      end
  end.

(** Overwriting 0-indexed slot [i], padding with [d]. *)
Fixpoint set_at {A : Type} (d : A) (i : nat) (x : A) (l : list A) : list A :=
  match i with
  | O => x :: tl l
  | S i' =>
      match l with
      | [] => d :: set_at d i' x []
      | y :: rest => y :: set_at d i' x rest
      end
  end.

(** Modelled from the spec: [insert_row_label] (section 4.2),
    [worksheet.insert_row(values, index=index)]: a new row at [index],
    later rows pushed down by one. *)
Definition insert_row (values : list string) (index : nat) (ws : worksheet)
  : worksheet :=
  insert_at [] (index - 1) values ws.

(** Modelled from the spec: [insert_column_label] (section 4.2),
    [worksheet.insert_cols([[vo_name]], col)]: a new column at [col] whose
    first cell holds the label, later columns pushed right by one. *)
Definition insert_cols (vo_name : string) (col : nat) (ws : worksheet)
  : worksheet :=
  match ws with
  | [] => [insert_at "" (col - 1) vo_name []]
  | header_row :: rows =>
      insert_at "" (col - 1) vo_name header_row
        :: map (insert_at "" (col - 1) "") rows
  end.

(** Modelled from the spec: [write_cell] (section 4.2),
    [worksheet.update_cell(row, col, value)]: exactly one cell is
    overwritten. *)
Definition update_cell (row col : nat) (value : string) (ws : worksheet)
  : worksheet :=
  set_at [] (row - 1) (set_at "" (col - 1) value (nth (row - 1) ws [])) ws.

End Worksheet.

Import Worksheet.

(* ===================================================================== *)
(** ** Number formatting: [format(n, "7,d")] *)
(* ===================================================================== *)

Module Format.

Definition digit (d : nat) : ascii := ascii_of_nat (48 + d).

(** Decimal digits of [n], least significant first. *)
Fixpoint rev_digits (fuel : nat) (n : N) : list ascii :=
  match fuel with
  | O => []
  | S fuel' =>
      let d := digit (N.to_nat (N.modulo n 10)) in
      if (n <? 10)%N then [d] else d :: rev_digits fuel' (N.div n 10)
  end.

(** A comma after every third digit that has a digit after it. *)
Fixpoint group (ds : list ascii) (k : nat) : list ascii :=
  match ds with
  | [] => []
  | d :: rest =>
      match rest with
      | [] => [d]
      | _ => if (k mod 3 =? 2)%nat then d :: ","%char :: group rest (S k)
             else d :: group rest (S k)
      end
  end.

Definition grouped (n : Z) : list ascii :=
  let mag := Z.to_N (Z.abs n) in
  let body := rev (group (rev_digits (S (N.to_nat (N.log2 mag))) mag) 0) in
  if (n <? 0)%Z then "-"%char :: body else body.

(** [format(n, "7,d")]: thousands separators, right-aligned in width 7. *)
Definition format_7d (n : Z) : string :=
  let g := grouped n in
  string_of_list_ascii (repeat " "%char (7 - List.length g) ++ g).

End Format.

(* ===================================================================== *)
(** ** Effects: state, console and grid calls, [KeyError] *)
(* ===================================================================== *)

Inductive exn : Type :=
| KeyError (key : string).

Inductive result (A : Type) : Type :=
| Ok (a : A)
| Raise (e : exn).
Arguments Ok {A} a.
Arguments Raise {A} e.

(** A computation over a state [S] that either returns or raises; the
    state reached when the exception is raised is kept, as Python keeps
    the mutations done before a [raise]. *)
Definition M (S A : Type) : Type := S -> S * result A.

Definition ret {S A : Type} (a : A) : M S A := fun s => (s, Ok a).

Definition bind {S A B : Type} (m : M S A) (k : A -> M S B) : M S B :=
  fun s =>
    match m s with
    | (s', Ok a) => k a s'
    | (s', Raise e) => (s', Raise e)
    end.

Definition raise {S A : Type} (e : exn) : M S A := fun s => (s, Raise e).

Declare Scope py_scope.
Delimit Scope py_scope with py.
Notation "x <- m ;; k" := (bind m (fun x => k))
  (at level 61, m at next level, right associativity) : py_scope.
Notation "m ;; k" := (bind m (fun _ => k))
  (at level 61, right associativity) : py_scope.
Local Open Scope py_scope.

(** [d[key]] on a dictionary whose entry may be absent. *)
Definition subscript {S A : Type} (key : string) (entry : option A) : M S A :=
  match entry with
  | Some a => ret a
  | None => raise (KeyError key)
  end.

(** [try: body / except (KeyError): pass] *)
Definition try_except_KeyError {S : Type} (body : M S unit) : M S unit :=
  fun s =>
    match body s with
    | (s', Ok tt) => (s', Ok tt)
    | (s', Raise (KeyError _)) => (s', Ok tt)
    end.

(** [for x in l: body(x)] *)
Fixpoint for_each {S A : Type} (l : list A) (body : A -> M S unit) : M S unit :=
  match l with
  | [] => ret tt
  | x :: rest => body x ;; for_each rest body
  end.

(** [for x in l: body(x)] where the body mutates [x] in place: the loop
    returns the elements as the body left them. *)
Fixpoint for_each_upd {S A : Type} (l : list A) (body : A -> M S A)
  : M S (list A) :=
  match l with
  | [] => ret []
  | x :: rest =>
      x' <- body x ;;
      rest' <- for_each_upd rest body ;;
      ret (x' :: rest')
  end.

(* ===================================================================== *)
(** ** Data model *)
(* ===================================================================== *)

(** The settings of [get_env_settings] that [main] reads. *)
Record env_t : Type := mkEnv {
  ACCOUNTING_SCOPE : string;
  DATE_FROM : string;
  DATE_TO : string;
  LOG : string
}.

(** One entry of a ['vo'] list of [VOs.json]; [None] is an absent key.
    [CPU_h] holds the integer that [int(details['CPU/h'])] reads. *)
Record details_t : Type := mkDetails {
  Name : option string;
  Type_ : option string;
  SLA_start : option string;
  SLA_end : option string;
  Active : option string;
  CPU_h : option Z
}.

Record vo_details_t : Type := mkVoDetails { vo : list details_t }.
Record VO_items_t : Type := mkVOItems { vos : list vo_details_t }.

(** One record of the accounting portal's answer: a string id and an
    integer total, either of which may be absent. *)
Record record_t : Type := mkRecord {
  id : option string;
  Total : option Z
}.

(** What the run prints, one constructor for each [print] of the source
    (the colours of [colourise] left out). *)
Inductive message : Type :=
| LogLevel (log : string)
| SettingsHeader (log : string)
| SettingsDump
| AddingPeriodAtRow (row : nat)
| PeriodAlreadyFound (row : nat)
| Downloading (log : string)
| PleaseWait
| FetchingRecords (vo_name : string)
| DebugDump (vo_name : string)
| ProviderLine (provider : string) (cpu : string)
| TotalCloudLine (cpu : string)
| TotalHTCLine (cpu : string)
| AddingVO (vo_name : string) (col : nat)
| VOAlreadyThere (vo_name : string)
| UpdatedCloud
| UpdatedHTC
| ReportHeader
| ReportCloudTitle
| ReportHTCTitle
| ReportPeriod (date_from date_to : string)
| ReportCloudTotal (total : string)
| ReportHTCTotal (total : string).

(** What the run does to the outside world, in order: the request to the
    accounting portal, the calls on the worksheet, the console output. *)
Inductive event : Type :=
| Fetch (vo_name : string)
| FormatCells (range : string)
| InsertRow (values : list string) (index : nat)
| InsertCols (vo_name : string) (col : nat)
| UpdateCell (row col : nat) (value : string)
| Console (msg : message).

Record state : Type := mkState {
  sheet : worksheet;
  total_cpu : Z;
  out : list event
}.

Definition emit (e : event) : M state unit :=
  fun s => (mkState (sheet s) (total_cpu s) (out s ++ [e]), Ok tt).

Definition print (msg : message) : M state unit := emit (Console msg).

Definition on_sheet (f : worksheet -> worksheet) : M state unit :=
  fun s => (mkState (f (sheet s)) (total_cpu s) (out s), Ok tt).

Definition read_sheet {A : Type} (f : worksheet -> A) : M state A :=
  fun s => (s, Ok (f (sheet s))).

Definition add_total_cpu (t : Z) : M state unit :=
  fun s => (mkState (sheet s) (total_cpu s + t) (out s), Ok tt).

(** The [try] block of [main] also mutates the entity it works on. *)
Definition tstate : Type := details_t * state.

Definition lift {A : Type} (m : M state A) : M tstate A :=
  fun ds =>
    match m (snd ds) with
    | (s', r) => ((fst ds, s'), r)
    end.

Definition get_details : M tstate details_t := fun ds => (ds, Ok (fst ds)).

(** [details['CPU/h'] = v] *)
Definition set_CPU_h (v : Z) : M tstate unit :=
  fun ds =>
    let d := fst ds in
    ((mkDetails (Name d) (Type_ d) (SLA_start d) (SLA_end d) (Active d) (Some v),
      snd ds), Ok tt).

(* ===================================================================== *)
(** ** The program *)
(* ===================================================================== *)

Section Program.

(** [get_accounting_data(env, vo_name)]: the HTTP request to the
    accounting portal, an external collaborator.  Its answer is the
    sequence of records; the empty sequence stands for every falsy
    [data] (the initial [""] kept after a [ValueError], or [[]]). *)
Variable get_accounting_data : env_t -> string -> list record_t.

(** Lines 62-81. *)
Definition get_GWorkSheetCellPosition (accounting_period : string)
  : M state (nat * bool) :=
  values_list <- read_sheet (fun ws => col_values ws 1) ;;
  ret (locate_period values_list accounting_period).

(** Lines 85-117. *)
Definition get_vo_cell (vo_name : string) : M state nat :=
  values_list <- read_sheet (fun ws => row_values ws 1) ;;
  let vo_name_pos := fst (locate_vo values_list vo_name) in
  let found := snd (locate_vo values_list vo_name) in
  (if negb found then
     print (AddingVO vo_name vo_name_pos) ;;
     emit (InsertCols vo_name vo_name_pos) ;;
     on_sheet (insert_cols vo_name vo_name_pos)
   else
     print (VOAlreadyThere vo_name)) ;;
  ret vo_name_pos.

(** Lines 120-132. *)
Definition update_GWorkSheet (env : env_t) (accounting_period_pos vo_name_pos : nat)
                             (total_cpu : string) : M state unit :=
  emit (UpdateCell accounting_period_pos vo_name_pos total_cpu) ;;
  on_sheet (update_cell accounting_period_pos vo_name_pos total_cpu) ;;
  if ACCOUNTING_SCOPE env =? "cloud" then print UpdatedCloud else print UpdatedHTC.

(** Line 153. *)
Definition accounting_period (env : env_t) : string :=
  PyStr.slice_0_4 (DATE_FROM env) ++ "." ++ PyStr.slice_last2 (DATE_FROM env)
    ++ "-" ++ PyStr.slice_last2 (DATE_TO env).

(** Lines 201-204: the condition of the [if], an [and] chain that stops
    at its first false operand. *)
Definition eligible {S : Type} (env : env_t) (details : details_t) : M S bool :=
  ty <- subscript "Type" (Type_ details) ;;
  if negb (ACCOUNTING_SCOPE env in_str ty) then ret false else
  sla_start <- subscript "SLA_start" (SLA_start details) ;;
  if negb (PyStr.ge (DATE_FROM env) sla_start) then ret false else
  sla_end <- subscript "SLA_end" (SLA_end details) ;;
  if negb (PyStr.le (DATE_TO env) sla_end) then ret false else
  active <- subscript "Active" (Active details) ;;
  ret (active =? "Y").

(** Lines 216-235: the body of [for record in data]. *)
Definition process_record (env : env_t) (accounting_period_pos : nat)
                          (record : record_t) : M tstate unit :=
  rid <- subscript "id" (id record) ;;
  (if negb ("Percent" in_str rid) && negb ("Total" in_str rid) then
     t <- subscript "Total" (Total record) ;;
     lift (print (ProviderLine rid (Format.format_7d t)))
   else ret tt) ;;
  if "Total" in_str rid then
    t <- subscript "Total" (Total record) ;;
    lift (if "cloud" in_str ACCOUNTING_SCOPE env
          then print (TotalCloudLine (Format.format_7d t))
          else print (TotalHTCLine (Format.format_7d t))) ;;
    details <- get_details ;;
    cpu <- subscript "CPU/h" (CPU_h details) ;;
    set_CPU_h (cpu + t) ;;
    lift (add_total_cpu t) ;;
    details <- get_details ;;
    vo_name <- subscript "Name" (Name details) ;;
    vo_name_pos <- lift (get_vo_cell vo_name) ;;
    lift (update_GWorkSheet env accounting_period_pos vo_name_pos
                            (Format.format_7d t))
  else ret tt.

(** Lines 208-235: the body of the [try]. *)
Definition try_body (env : env_t) (accounting_period_pos : nat)
                    (data : list record_t) : M tstate unit :=
  match data with
  | [] => ret tt
  | _ :: _ =>
      details <- get_details ;;
      vo_name <- subscript "Name" (Name details) ;;
      lift (print (FetchingRecords vo_name)) ;;
      (if "DEBUG" in_str LOG env then lift (print (DebugDump vo_name)) else ret tt) ;;
      for_each data (process_record env accounting_period_pos)
  end.

(** Running a computation of the [try] block on one entity. *)
Definition with_details (details : details_t) (m : M tstate unit)
  : M state details_t :=
  fun s =>
    match m (details, s) with
    | ((details', s'), Ok tt) => (s', Ok details')
    | ((_, s'), Raise e) => (s', Raise e)
    end.

(** Lines 201-238: the body of [for details in vo_details['vo']]. *)
Definition process_details (env : env_t) (accounting_period_pos : nat)
                           (details : details_t) : M state details_t :=
  ok <- eligible env details ;;
  if ok then
    vo_name <- subscript "Name" (Name details) ;;
    emit (Fetch vo_name) ;;
    with_details details
      (try_except_KeyError
         (try_body env accounting_period_pos (get_accounting_data env vo_name)))
  else ret details.

(** Lines 198-238: the three nested loops over [VOs]. *)
Definition process_VOs (env : env_t) (accounting_period_pos : nat)
                       (VOs : list VO_items_t) : M state (list VO_items_t) :=
  for_each_upd VOs (fun VO_items =>
    vos' <- for_each_upd (vos VO_items) (fun vo_details =>
      vo' <- for_each_upd (vo vo_details)
               (process_details env accounting_period_pos) ;;
      ret (mkVoDetails vo')) ;;
    ret (mkVOItems vos')).

(** Lines 240-250. *)
Definition report (env : env_t) : M state unit :=
  fun s =>
    let total_cpu := Format.format_7d (total_cpu s) in
    (print ReportHeader ;;
     if "cloud" in_str ACCOUNTING_SCOPE env then
       print ReportCloudTitle ;;
       print (ReportPeriod (DATE_FROM env) (DATE_TO env)) ;;
       print (ReportCloudTotal (PyStr.strip total_cpu))
     else
       print ReportHTCTitle ;;
       print (ReportPeriod (DATE_FROM env) (DATE_TO env)) ;;
       print (ReportHTCTotal (PyStr.strip total_cpu))) s.

(** Lines 146-151: the settings are announced. *)
Definition announce (env : env_t) : M state unit :=
  print (LogLevel (LOG env)) ;;
  print (SettingsHeader (LOG env)) ;;
  print SettingsDump.

(** Lines 158-173: the header and the cells are formatted; no cell value
    changes. *)
Definition format_sheet : M state unit :=
  emit (FormatCells "A1:C1") ;;
  emit (FormatCells "A2:C200").

(** Lines 177-188: locating the reporting period, inserting its row when
    it was not found; the result is [accounting_period_pos]. *)
Definition locate_period_row (env : env_t) : M state nat :=
  located <- get_GWorkSheetCellPosition (accounting_period env) ;;
  let accounting_period_pos := fst located in
  let found_position := snd located in
  (if negb found_position then
     print (AddingPeriodAtRow accounting_period_pos) ;;
     emit (InsertRow [accounting_period env; "0"] accounting_period_pos) ;;
     on_sheet (insert_row [accounting_period env; "0"] accounting_period_pos)
   else
     print (PeriodAlreadyFound accounting_period_pos)) ;;
  ret accounting_period_pos.

(** [main], from the worksheet [init_GWorkSheet] returned and the parsed
    [VOs.json]; [total_cpu] starts at 0 (line 139). *)
Definition main_body (env : env_t) (VOs : list VO_items_t)
  : M state (list VO_items_t) :=
  announce env ;;
  format_sheet ;;
  accounting_period_pos <- locate_period_row env ;;
  print (Downloading (LOG env)) ;;
  print PleaseWait ;;
  VOs' <- process_VOs env accounting_period_pos VOs ;;
  report env ;;
  ret VOs'.

Definition initial_state (ws : worksheet) : state := mkState ws 0 [].

Definition main (env : env_t) (ws : worksheet) (VOs : list VO_items_t)
  : state * result (list VO_items_t) :=
  main_body env VOs (initial_state ws).

End Program.

(* ===================================================================== *)
(** ** Definitions that follow the specification's wording *)
(* ===================================================================== *)

Module Spec.



(** Section 4.4: a record qualifies when its id contains "Total" and does
    not contain "Percent". *)
Definition qualifying (record : record_t) : bool :=
  match id record with
  | Some rid => ("Total" in_str rid) && negb ("Percent" in_str rid)
  | None => false
  end.

(** The sum of the totals of the qualifying records of a fetch result. *)
Fixpoint qualifying_total (data : list record_t) : Z :=
  match data with
  | [] => 0
  | record :: rest =>
      (if qualifying record
       then match Total record with Some t => t | None => 0 end
       else 0) + qualifying_total rest
  end%Z.

End Spec.

(* ===================================================================== *)
(** ** Predicates and functions used in the statements *)
(* ===================================================================== *)

Definition str_lt (a b : string) : Prop := PyStr.lt a b = true.
Definition str_le (a b : string) : Prop := PyStr.le a b = true.

(** A label the loop passes over while counting it. *)
Definition counted (candidate header : string) : Prop :=
  carries_marker header = false /\ header <> ""%string
  /\ PyStr.lt header candidate = true.

(** The state in which the loop over the records of [vo_name] starts. *)
Definition loop_entry (env : env_t) (vo_name : string) (s : state) : state :=
  mkState (sheet s) (total_cpu s)
    (((out s ++ [Fetch vo_name]) ++ [Console (FetchingRecords vo_name)])
       ++ (if "DEBUG" in_str LOG env then [Console (DebugDump vo_name)] else [])).

Definition sumZ {A : Type} (f : A -> Z) (l : list A) : Z :=
  fold_right (fun x acc => (f x + acc)%Z) 0%Z l.

(** The outcome of the condition of line 201, when it raises nothing. *)
Definition eligible_now (env : env_t) (details : details_t) : bool :=
  match eligible env details tt with
  | (_, Ok b) => b
  | (_, Raise _) => false
  end.

Definition has_counter (details : details_t) : bool :=
  match CPU_h details with Some _ => true | None => false end.

(** The records on which lines 216-235 raise [KeyError]: no id; a plain
    provider record without [Total]; a "Total" record without [Total], or
    for an entity without its counter. *)
Definition record_raises (counter : bool) (record : record_t) : bool :=
  match id record with
  | None => true
  | Some rid =>
      if "Total" in_str rid then
        match Total record with Some _ => negb counter | None => true end
      else if "Percent" in_str rid then false
      else match Total record with Some _ => false | None => true end
  end.

(** The records of a fetch result that are processed: those before the
    first one that raises. *)
Fixpoint reached (counter : bool) (data : list record_t) : list record_t :=
  match data with
  | [] => []
  | record :: rest =>
      if record_raises counter record then [] else record :: reached counter rest
  end.

(** What one record adds to the totals: its [Total] when its id contains
    "Total". *)
Definition record_total (record : record_t) : Z :=
  match id record, Total record with
  | Some rid, Some t => if "Total" in_str rid then t else 0%Z
  | _, _ => 0%Z
  end.

Definition entity_total (details : details_t) (data : list record_t) : Z :=
  sumZ record_total (reached (has_counter details) data).

Definition details_total (get_accounting_data : env_t -> string -> list record_t)
    (env : env_t) (details : details_t) : Z :=
  if eligible_now env details then
    match Name details with
    | Some vo_name => entity_total details (get_accounting_data env vo_name)
    | None => 0%Z
    end
  else 0%Z.

Definition run_total (get_accounting_data : env_t -> string -> list record_t)
    (env : env_t) (VOs : list VO_items_t) : Z :=
  sumZ (fun VO_items =>
    sumZ (fun vo_details =>
      sumZ (details_total get_accounting_data env) (vo vo_details))
      (vos VO_items)) VOs.

(** The sum the claim words: the totals of the qualifying records
    (section 4.4) of the eligible entities. *)
Definition run_qualifying_total
    (get_accounting_data : env_t -> string -> list record_t)
    (env : env_t) (VOs : list VO_items_t) : Z :=
  sumZ (fun VO_items =>
    sumZ (fun vo_details =>
      sumZ (fun details =>
        if eligible_now env details then
          match Name details with
          | Some vo_name => Spec.qualifying_total (get_accounting_data env vo_name)
          | None => 0%Z
          end
        else 0%Z) (vo vo_details))
      (vos VO_items)) VOs.

(** The state after lines 139-173 of [main]: nothing written yet. *)
Definition prologue_state (env : env_t) (ws : worksheet) : state :=
  mkState ws 0
    [Console (LogLevel (LOG env)); Console (SettingsHeader (LOG env));
     Console SettingsDump; FormatCells "A1:C1"; FormatCells "A2:C200"].

(** The last line of the report, for a run total. *)
Definition report_line (env : env_t) (total : Z) : event :=
  if "cloud" in_str ACCOUNTING_SCOPE env
  then Console (ReportCloudTotal (PyStr.strip (Format.format_7d total)))
  else Console (ReportHTCTotal (PyStr.strip (Format.format_7d total))).

(** [m] keeps [I], whether it returns or raises. *)
Definition preserves {S A : Type} (I : S -> Prop) (m : M S A) : Prop :=
  forall s, I s -> I (fst (m s)).

(** The events of a run that located its row at [slot] without inserting
    it: no row insertion, cell writes on row [slot] only. *)
Definition allowed (slot : nat) (e : event) : Prop :=
  match e with
  | InsertRow _ _ => False
  | UpdateCell row _ _ => row = slot
  | _ => True
  end.

(** The label column is the one of [ws0], and only allowed events were
    issued. *)
Definition label_column_kept (ws0 : worksheet) (slot : nat) (s : state) : Prop :=
  (forall row, cell (sheet s) row 1 = cell ws0 row 1)
  /\ Forall (allowed slot) (out s).

(** What one locate-then-insert does to the value list of an axis. *)
Definition axis_step (values_list : list string) (label : string) : list string :=
  let located := locate_period values_list label in
  if snd located then values_list
  else strip_trailing (insert_at "" (fst located - 1) label values_list).

(** An axis in order: a header with the marker, then [labels] (no marker,
    strictly ascending), then labels carrying the marker. *)
Definition ordered_axis (values_list labels : list string) : Prop :=
  exists header marked,
    values_list = header :: labels ++ marked
    /\ carries_marker header = true
    /\ Forall (fun label => carries_marker label = false) labels
    /\ StronglySorted str_lt labels
    /\ Forall (fun label => carries_marker label = true) marked.

(** The labels of an axis: the cells carrying the marker left out. *)
Definition axis_labels (values_list : list string) : list string :=
  filter (fun label => negb (carries_marker label)) values_list.

(* ===================================================================== *)
(** ** The request to the accounting portal *)
(* ===================================================================== *)

(** The settings of [get_env_settings] that only [get_accounting_data]
    reads. *)
Record portal_t : Type := mkPortal {
  ACCOUNTING_SERVER_URL : string;
  ACCOUNTING_METRIC : string;
  ACCOUNTING_LOCAL_JOB_SELECTOR : string;
  ACCOUNTING_DATA_SELECTOR : string
}.

(** Lines 41-48: the ["%s/%s/%s/REGION/Year/%s/%s/custom-%s/%s/%s/"]
    pattern filled in. *)
Definition accounting_url (portal : portal_t) (env : env_t) (vo_name : string)
  : string :=
  ACCOUNTING_SERVER_URL portal ++ "/" ++ ACCOUNTING_SCOPE env ++ "/"
    ++ ACCOUNTING_METRIC portal ++ "/REGION/Year/" ++ DATE_FROM env ++ "/"
    ++ DATE_TO env ++ "/custom-" ++ vo_name ++ "/"
    ++ ACCOUNTING_LOCAL_JOB_SELECTOR portal ++ "/"
    ++ ACCOUNTING_DATA_SELECTOR portal ++ "/".

(** Lines 36-58.  [response_json url] is what [requests.get(url).json()]
    gives: the records, or [None] when it raises [ValueError]; [data]
    then keeps its initial [""], which [main] treats as no record. *)
Definition get_accounting_data (portal : portal_t)
    (response_json : string -> option (list record_t))
    (env : env_t) (vo_name : string) : string * list record_t :=
  let _url := accounting_url portal env vo_name in
  (_url, match response_json _url with
         | Some data => data
         | None => []
         end).

(* ===================================================================== *)
(** ** Further predicates and functions used in the statements *)
(* ===================================================================== *)

(** The entities of the registry, in the order the three loops of [main]
    visit them. *)
Definition all_details (VOs : list VO_items_t) : list details_t :=
  flat_map (fun VO_items => flat_map vo (vos VO_items)) VOs.

(** The requests of a trace, in order. *)
Definition fetched (events : list event) : list string :=
  flat_map (fun e => match e with Fetch vo_name => [vo_name] | _ => [] end)
           events.

(** The names of the eligible entities of a list, in order. *)
Definition eligible_names (env : env_t) (entities : list details_t)
  : list string :=
  flat_map (fun details =>
              if eligible_now env details then
                match Name details with
                | Some vo_name => [vo_name]
                | None => []
                end
              else []) entities.

(** The [KeyError] an entity raises outside the [try] of [main]: a key of
    the condition of line 201 that is read and absent, or the name of an
    eligible entity (line 205). *)
Definition entity_fatal (env : env_t) (details : details_t) : option exn :=
  match eligible env details tt with
  | (_, Raise e) => Some e
  | (_, Ok true) =>
      match Name details with
      | Some _ => None
      | None => Some (KeyError "Name")
      end
  | (_, Ok false) => None
  end.

(** Two states of an entity that differ at most in the counter. *)
Definition only_counter_changed (details details' : details_t) : Prop :=
  Name details' = Name details
  /\ Type_ details' = Type_ details
  /\ SLA_start details' = SLA_start details
  /\ SLA_end details' = SLA_end details
  /\ Active details' = Active details.

(** An entity after a run: changed in its counter at most, which grew by
    the entity's own total. *)
Definition entity_after
    (get_accounting_data : env_t -> string -> list record_t)
    (env : env_t) (details details' : details_t) : Prop :=
  only_counter_changed details details'
  /\ CPU_h details'
     = match CPU_h details with
       | Some cpu => Some (cpu + details_total get_accounting_data env details)%Z
       | None => None
       end.

(** The labels without the marker that sort strictly before a candidate. *)
Definition sorting_before (candidate : string) (values_list : list string)
  : list string :=
  filter (fun header => negb (carries_marker header)
                        && PyStr.lt header candidate) values_list.

(** A label that can sit on a clean axis: no marker, not empty. *)
Definition plain_label (label : string) : Prop :=
  carries_marker label = false /\ label <> ""%string.

(** The events lines 208-235 issue for the records of one entity, the row
    of the period being [pos]: their console lines, column insertions
    right of the label column, cell writes on row [pos] right of the
    label column. *)
Definition record_event (pos : nat) (e : event) : Prop :=
  match e with
  | InsertCols _ col => 2 <= col
  | UpdateCell row col _ => row = pos /\ 2 <= col
  | Console msg =>
      match msg with
      | FetchingRecords _ | DebugDump _ | ProviderLine _ _
      | TotalCloudLine _ | TotalHTCLine _ | AddingVO _ _ | VOAlreadyThere _
      | UpdatedCloud | UpdatedHTC => True
      | _ => False
      end
  | _ => False
  end.

(** The events the loops of lines 198-238 issue: a request, or an event
    of the records. *)
Definition loop_event (pos : nat) (e : event) : Prop :=
  match e with
  | Fetch _ => True
  | _ => record_event pos e
  end.

(** The trace grew from [base] by events of the records only, and the
    label column is the one of [ws1]. *)
Definition records_kept (ws1 : worksheet) (base : list event) (pos : nat)
                        (s : state) : Prop :=
  (forall row, cell (sheet s) row 1 = cell ws1 row 1)
  /\ exists issued, out s = base ++ issued /\ Forall (record_event pos) issued.

(** The trace grew from [base] by events of the loops only, and the label
    column is the one of [ws1]. *)
Definition loops_kept (ws1 : worksheet) (base : list event) (pos : nat)
                      (s : state) : Prop :=
  (forall row, cell (sheet s) row 1 = cell ws1 row 1)
  /\ exists issued, out s = base ++ issued /\ Forall (loop_event pos) issued.

(** The row [main] works on: what line 177 returns. *)
Definition period_row (env : env_t) (ws : worksheet) : nat :=
  fst (locate_period (col_values ws 1) (accounting_period env)).

(** The state in which the loops of lines 198-238 start: the period row
    located (and inserted when it was not found), lines 190-192 printed. *)
Definition loops_entry (env : env_t) (ws : worksheet) : state :=
  let s1 := fst (locate_period_row env (prologue_state env ws)) in
  mkState (sheet s1) (total_cpu s1)
    (out s1 ++ [Console (Downloading (LOG env)); Console PleaseWait]).

(** Two outcomes that reach the same state and agree on the result, the
    value of the first seen through [view]. *)
Definition agree {A B : Type} (view : B -> A) (r : state * result B)
                 (r' : state * result A) : Prop :=
  fst r = fst r'
  /\ match snd r, snd r' with
     | Ok b, Ok a => view b = a
     | Raise e, Raise e' => e = e'
     | _, _ => False
     end.

(* ===================================================================== *)
(** ** Strings: order and slices *)
(* ===================================================================== *)

Lemma compare_refl (s : string) : String.compare s s = Eq.
Proof.
  induction s as [|c s IH]; simpl; [reflexivity|].
  unfold Ascii.compare. rewrite N.compare_refl. exact IH.
Qed.

Lemma lt_irrefl (s : string) : PyStr.lt s s = false.
Proof. unfold PyStr.lt, String.ltb. rewrite compare_refl. reflexivity. Qed.

Lemma lt_neq (a b : string) : PyStr.lt a b = true -> a <> b.
Proof. intros H E. subst. rewrite lt_irrefl in H. discriminate. Qed.

Lemma le_neq_lt (a b : string) :
  PyStr.le a b = true -> a <> b -> PyStr.lt a b = true.
Proof.
  unfold PyStr.le, PyStr.lt, String.leb, String.ltb. intros Hle Hne.
  destruct (String.compare a b) eqn:E; try reflexivity; try discriminate.
  apply String.compare_eq_iff in E. contradiction.
Qed.

Lemma lt_le (a b : string) : PyStr.lt a b = true -> PyStr.le a b = true.
Proof.
  unfold PyStr.le, PyStr.lt, String.leb, String.ltb.
  destruct (String.compare a b); intros H; try reflexivity; discriminate.
Qed.

Lemma le_empty (a : string) : PyStr.le a "" = true -> a = "".
Proof. destruct a; [reflexivity | discriminate]. Qed.

Lemma string_length_app (a b : string) :
  String.length (a ++ b) = String.length a + String.length b.
Proof. induction a as [|c a IH]; simpl; [reflexivity | now rewrite IH]. Qed.

Lemma substring_head (a b : string) :
  String.substring 0 (String.length a) (a ++ b) = a.
Proof.
  induction a as [|c a IH]; simpl.
  - destruct b; reflexivity.
  - now rewrite IH.
Qed.

Lemma substring_whole (b : string) :
  String.substring 0 (String.length b) b = b.
Proof. induction b as [|c b IH]; simpl; [reflexivity | now rewrite IH]. Qed.

Lemma substring_tail (a b : string) :
  String.substring (String.length a) (String.length b) (a ++ b) = b.
Proof.
  induction a as [|c a IH]; simpl; [apply substring_whole | exact IH].
Qed.

Lemma slice_0_4_app (yyyy rest : string) :
  String.length yyyy = 4 -> PyStr.slice_0_4 (yyyy ++ rest) = yyyy.
Proof. intros H. unfold PyStr.slice_0_4. rewrite <- H. apply substring_head. Qed.

Lemma slice_last2_app (rest mm : string) :
  String.length mm = 2 -> PyStr.slice_last2 (rest ++ mm) = mm.
Proof.
  intros H. unfold PyStr.slice_last2. rewrite string_length_app, H.
  replace (String.length rest + 2 - 2) with (String.length rest) by lia.
  rewrite <- H. apply substring_tail.
Qed.

(* ===================================================================== *)
(** ** The scans *)
(* ===================================================================== *)

Lemma vo_loop_period_loop (candidate : string) (values_list : list string) (pos : nat) :
  vo_loop candidate values_list pos = period_loop candidate values_list pos.
Proof.
  revert pos. induction values_list as [|header rest IH]; intros pos; simpl.
  - reflexivity.
  - rewrite !IH. reflexivity.
Qed.

Lemma locate_vo_locate_period (values_list : list string) (candidate : string) :
  locate_vo values_list candidate = locate_period values_list candidate.
Proof.
  unfold locate_vo, locate_period. now rewrite vo_loop_period_loop.
Qed.


Lemma period_loop_markers (candidate : string) (suffix rest : list string) (pos : nat) :
  Forall (fun header => carries_marker header = true) suffix ->
  period_loop candidate (suffix ++ rest) pos = period_loop candidate rest pos.
Proof.
  intros H. induction H as [|header suffix Hh _ IH]; simpl; [reflexivity|].
  unfold carries_marker in Hh. rewrite Hh. simpl. exact IH.
Qed.

Lemma period_loop_counted (candidate : string) (before rest : list string) (pos : nat) :
  Forall (counted candidate) before ->
  period_loop candidate (before ++ rest) pos
  = period_loop candidate rest (pos + List.length before).
Proof.
  intros H. revert pos.
  induction H as [|header before [Hm [He Hlt]] _ IH]; intros pos; simpl.
  - now rewrite Nat.add_0_r.
  - unfold carries_marker in Hm. rewrite Hm. simpl.
    apply String.eqb_neq in He. rewrite He.
    pose proof (lt_neq _ _ Hlt) as Hne. apply String.eqb_neq in Hne. rewrite Hne.
    simpl. rewrite Hlt. rewrite IH. f_equal. lia.
Qed.

Lemma period_loop_stop (candidate header : string) (rest : list string) (pos : nat) :
  carries_marker header = false ->
  header = candidate \/ header = ""%string ->
  period_loop candidate (header :: rest) pos = (pos, true).
Proof.
  intros Hm Hstop. simpl. unfold carries_marker in Hm. rewrite Hm. simpl.
  destruct Hstop as [-> | ->].
  - now rewrite String.eqb_refl.
  - now rewrite orb_true_r.
Qed.

(** The position is the start position plus the counted labels, so it
    never falls below the start. *)
Lemma period_loop_lower (candidate : string) (values_list : list string) (pos : nat) :
  pos <= fst (period_loop candidate values_list pos).
Proof.
  revert pos. induction values_list as [|header rest IH]; intros pos; simpl.
  - lia.
  - destruct (negb ("Period" in_str header)); [|apply IH].
    destruct ((header =? candidate) || (header =? ""))%string; [simpl; lia|].
    destruct (PyStr.lt header candidate); [|apply IH].
    specialize (IH (pos + 1)). lia.
Qed.

Lemma locate_period_lower (values_list : list string) (candidate : string) :
  2 <= fst (locate_period values_list candidate).
Proof.
  unfold locate_period. destruct (1 <? List.length values_list)%nat.
  - apply period_loop_lower.
  - simpl. lia.
Qed.

Lemma locate_vo_lower (values_list : list string) (candidate : string) :
  2 <= fst (locate_vo values_list candidate).
Proof. rewrite locate_vo_locate_period. apply locate_period_lower. Qed.

(** A header with the marker, counted labels, then the candidate or an
    empty label: the scan stops there, at that label's own position. *)
Lemma locate_period_slot (candidate header stop : string)
                         (before after : list string) :
  carries_marker header = true ->
  Forall (counted candidate) before ->
  carries_marker stop = false ->
  stop = candidate \/ stop = ""%string ->
  locate_period (header :: before ++ stop :: after) candidate
  = (2 + List.length before, true).
Proof.
  intros Hh Hb Hs Hstop. unfold locate_period.
  replace (1 <? List.length (header :: before ++ stop :: after))%nat with true.
  2:{ symmetry. apply Nat.ltb_lt. simpl. rewrite length_app. simpl. lia. }
  change (header :: before ++ stop :: after)
    with ([header] ++ (before ++ stop :: after)).
  rewrite period_loop_markers by (constructor; [exact Hh | constructor]).
  rewrite period_loop_counted by exact Hb.
  apply period_loop_stop; assumption.
Qed.

(* ===================================================================== *)
(** ** Claims on the scans and on the period label *)
(* ===================================================================== *)

(** C10. On an axis whose value list holds zero or one labels (the header
    only), both scans return the base position 2 with found = false: the
    row routine returns (2, False) without touching the grid, the column
    routine returns 2 after inserting the column there. *)
Theorem C10_header_only_axis (values_list : list string) (candidate : string)
    (Hlen : List.length values_list <= 1) :
  locate_period values_list candidate = (2, false)
  /\ locate_vo values_list candidate = (2, false)
  /\ (forall s, col_values (sheet s) 1 = values_list ->
        get_GWorkSheetCellPosition candidate s = (s, Ok (2, false)))
  /\ (forall s, row_values (sheet s) 1 = values_list ->
        exists s', get_vo_cell candidate s = (s', Ok 2)
                   /\ sheet s' = insert_cols candidate 2 (sheet s)).
Proof.
  assert (Hp : locate_period values_list candidate = (2, false)).
  { unfold locate_period.
    destruct (Nat.ltb_spec 1 (List.length values_list)); [lia | reflexivity]. }
  assert (Hv : locate_vo values_list candidate = (2, false)).
  { now rewrite locate_vo_locate_period. }
  repeat split; try assumption.
  - intros s Hs. unfold get_GWorkSheetCellPosition, bind, read_sheet, ret.
    now rewrite Hs, Hp.
  - intros s Hs. unfold get_vo_cell, bind, read_sheet, ret. rewrite Hs, Hv.
    simpl. eexists. split; reflexivity.
Qed.

Lemma C10_header_only_axis_witness :
  locate_period ["Period"%string] "2024.01-03" = (2, false)
  /\ locate_vo ["Period"%string] "alice" = (2, false).
Proof.
  split.
  - apply (C10_header_only_axis ["Period"%string] "2024.01-03"). simpl. lia.
  - apply (C10_header_only_axis ["Period"%string] "alice"). simpl. lia.
Defined.

(** C9. The row label of the reporting period is a function of the two
    configured dates: for a [DATE_FROM] that starts with its four-character
    year and ends with its two-character month and a [DATE_TO] that ends
    with its two-character month, the label is "YYYY.MM-MM". *)
Theorem C9_period_label (env : env_t) (yyyy mid mm rest' mm' : string)
    (Hyear : String.length yyyy = 4)
    (Hmonth : String.length mm = 2)
    (Hmonth' : String.length mm' = 2)
    (Hfrom : DATE_FROM env = (yyyy ++ mid ++ mm)%string)
    (Hto : DATE_TO env = (rest' ++ mm')%string) :
  accounting_period env = (yyyy ++ "." ++ mm ++ "-" ++ mm')%string.
Proof.
  unfold accounting_period. rewrite Hfrom, Hto.
  rewrite (slice_0_4_app yyyy (mid ++ mm) Hyear).
  rewrite (slice_last2_app rest' mm' Hmonth').
  replace (yyyy ++ mid ++ mm)%string with ((yyyy ++ mid) ++ mm)%string.
  - now rewrite (slice_last2_app (yyyy ++ mid) mm Hmonth).
  - clear. induction yyyy as [|c y IH]; simpl; [reflexivity | now rewrite IH].
Qed.

Lemma C9_period_label_witness :
  accounting_period (mkEnv "grid" "2024/01" "2024/03" "INFO") = "2024.01-03"%string.
Proof.
  apply (C9_period_label (mkEnv "grid" "2024/01" "2024/03" "INFO")
           "2024" "/" "01" "2024/" "03"); reflexivity.
Defined.




(* ===================================================================== *)
(** ** Claims on the eligibility filter and on record processing *)
(* ===================================================================== *)

(** C5. The condition of line 201 tests, in this order and stopping at
    the first test that fails: the scope occurs in the entity's type,
    [DATE_FROM >= SLA_start], [DATE_TO <= SLA_end], [Active == "Y"]; a
    test after the failing one is not even read (its key may be absent).
    An entity for which the condition is false leaves the whole state
    (grid, run total, calls and console output) as it was: no fetch and
    no grid write. *)
Theorem C5_eligibility_order (env : env_t) (details : details_t) :
  (forall (S : Type) (s : S) ty,
      Type_ details = Some ty ->
      ACCOUNTING_SCOPE env in_str ty = false ->
      eligible env details s = (s, Ok false))
  /\ (forall (S : Type) (s : S) ty sla_start,
      Type_ details = Some ty ->
      ACCOUNTING_SCOPE env in_str ty = true ->
      SLA_start details = Some sla_start ->
      PyStr.ge (DATE_FROM env) sla_start = false ->
      eligible env details s = (s, Ok false))
  /\ (forall (S : Type) (s : S) ty sla_start sla_end,
      Type_ details = Some ty ->
      ACCOUNTING_SCOPE env in_str ty = true ->
      SLA_start details = Some sla_start ->
      PyStr.ge (DATE_FROM env) sla_start = true ->
      SLA_end details = Some sla_end ->
      PyStr.le (DATE_TO env) sla_end = false ->
      eligible env details s = (s, Ok false))
  /\ (forall (S : Type) (s : S) ty sla_start sla_end active,
      Type_ details = Some ty ->
      ACCOUNTING_SCOPE env in_str ty = true ->
      SLA_start details = Some sla_start ->
      PyStr.ge (DATE_FROM env) sla_start = true ->
      SLA_end details = Some sla_end ->
      PyStr.le (DATE_TO env) sla_end = true ->
      Active details = Some active ->
      eligible env details s = (s, Ok (active =? "Y")%string))
  /\ (forall get_accounting_data accounting_period_pos (s : state),
      eligible env details s = (s, Ok false) ->
      process_details get_accounting_data env accounting_period_pos details s
      = (s, Ok details)).
Proof.
  repeat split.
  - intros S s ty Hty Hscope. unfold eligible, bind, subscript, ret.
    rewrite Hty. simpl. now rewrite Hscope.
  - intros S s ty sla_start Hty Hscope Hst Hfrom.
    unfold eligible, bind, subscript, ret.
    rewrite Hty. simpl. rewrite Hscope. simpl. rewrite Hst. simpl.
    now rewrite Hfrom.
  - intros S s ty sla_start sla_end Hty Hscope Hst Hfrom Hen Hto.
    unfold eligible, bind, subscript, ret.
    rewrite Hty. simpl. rewrite Hscope. simpl. rewrite Hst. simpl.
    rewrite Hfrom. simpl. rewrite Hen. simpl. now rewrite Hto.
  - intros S s ty sla_start sla_end active Hty Hscope Hst Hfrom Hen Hto Hact.
    unfold eligible, bind, subscript, ret.
    rewrite Hty. simpl. rewrite Hscope. simpl. rewrite Hst. simpl.
    rewrite Hfrom. simpl. rewrite Hen. simpl. rewrite Hto. simpl.
    now rewrite Hact.
  - intros fetch pos s Hel. unfold process_details, bind. now rewrite Hel.
Qed.

Lemma C5_eligibility_order_witness :
  let env := mkEnv "grid" "2024/01" "2024/03" "INFO" in
  let late := mkDetails (Some "ALPHA") (Some "grid") (Some "2024/02") None None None in
  let s := initial_state [["Period"%string]] in
  eligible env late s = (s, Ok false)
  /\ process_details (fun _ _ => [mkRecord (Some "Total"%string) (Some 100%Z)])
       env 2 late s = (s, Ok late).
Proof.
  intros env late s.
  assert (H : eligible env late s = (s, Ok false)).
  { apply (C5_eligibility_order env late) with (ty := "grid"%string)
                                               (sla_start := "2024/02"%string);
      reflexivity. }
  split; [exact H|].
  apply (C5_eligibility_order env late). exact H.
Defined.

Ltac unfold_m :=
  unfold bind, subscript, ret, raise, lift, get_details, set_CPU_h,
         add_total_cpu, print, emit, on_sheet, read_sheet in *.

(** A record whose id does not contain "Total" changes neither the
    entity, nor the run total, nor the grid. *)
Lemma process_record_other (env : env_t) (pos : nat) (record : record_t)
    (rid : string) (details : details_t) (s : state) :
  id record = Some rid ->
  "Total" in_str rid = false ->
  let res := process_record env pos record (details, s) in
  fst (fst res) = details
  /\ total_cpu (snd (fst res)) = total_cpu s
  /\ sheet (snd (fst res)) = sheet s.
Proof.
  intros Hid Ht. unfold process_record. unfold_m. rewrite Hid. simpl.
  rewrite Ht. simpl.
  destruct ("Percent" in_str rid); simpl.
  - auto.
  - destruct (Total record); simpl; auto.
Qed.

(** A record whose id contains "Total", with its [Total] field, for an
    entity with its counter: both totals grow by that [Total]. *)
Lemma process_record_Total (env : env_t) (pos : nat) (record : record_t)
    (rid : string) (t cpu : Z) (details : details_t) (s : state) :
  id record = Some rid ->
  "Total" in_str rid = true ->
  Total record = Some t ->
  CPU_h details = Some cpu ->
  let res := process_record env pos record (details, s) in
  CPU_h (fst (fst res)) = Some (cpu + t)%Z
  /\ total_cpu (snd (fst res)) = (total_cpu s + t)%Z.
Proof.
  intros Hid Ht Htot Hcpu. unfold process_record. unfold_m. rewrite Hid. simpl.
  rewrite Ht, andb_false_r. simpl. rewrite Htot. simpl.
  destruct ("cloud" in_str ACCOUNTING_SCOPE env); simpl; rewrite Hcpu; simpl;
    (destruct (Name details) as [vo_name|]; simpl; [|auto]);
    unfold get_vo_cell, update_GWorkSheet; unfold_m; simpl;
    destruct (snd (locate_vo _ vo_name)); simpl;
    destruct (ACCOUNTING_SCOPE env =? "cloud")%string; simpl; auto.
Qed.

(** C1, as stated, fails: a record whose id contains both "Total" and
    "Percent" does not qualify, yet the code adds its [Total] (50) to the
    entity's counter and to the run total; on the two records of the
    specification's example the run total is 150, not 100. *)
Lemma C1_counterexample :
  let env := mkEnv "grid" "2024/01" "2024/03" "INFO" in
  let alpha := mkDetails (Some "ALPHA") (Some "grid") (Some "2023/01")
                         (Some "2025/12") (Some "Y") (Some 0%Z) in
  let both := mkRecord (Some "UK-Total-Percent") (Some 50%Z) in
  let s := initial_state [["Period"]; ["2024.01-03"]] in
  let data := [mkRecord (Some "Total") (Some 100%Z); both] in
  "Total" in_str "UK-Total-Percent" = true
  /\ "Percent" in_str "UK-Total-Percent" = true
  /\ Spec.qualifying both = false
  /\ total_cpu (snd (fst (process_record env 2 both (alpha, s)))) = 50%Z
  /\ CPU_h (fst (fst (process_record env 2 both (alpha, s)))) = Some 50%Z
  /\ total_cpu (fst (main (fun _ _ => data) env [["Period"]]
                          [mkVOItems [mkVoDetails [alpha]]])) = 150%Z.
Proof. repeat split; vm_compute; reflexivity. Qed.

(** C1, amended. A record contributes only if its id contains "Total": a
    record without "Total" in its id leaves the entity, the run total and
    the grid as they were.  A record with "Total" in its id (holding its
    [Total] field, for an entity holding its counter) adds its [Total] to
    the entity's counter and to the run total, whether or not its id also
    contains "Percent". *)
Theorem C1_contribution_gate (env : env_t) (accounting_period_pos : nat)
    (record : record_t) (rid : string) (details : details_t) (s : state)
    (Hid : id record = Some rid) :
  let res := process_record env accounting_period_pos record (details, s) in
  ("Total" in_str rid = false ->
     fst (fst res) = details
     /\ total_cpu (snd (fst res)) = total_cpu s
     /\ sheet (snd (fst res)) = sheet s)
  /\ ("Total" in_str rid = true ->
      forall t cpu, Total record = Some t -> CPU_h details = Some cpu ->
        CPU_h (fst (fst res)) = Some (cpu + t)%Z
        /\ total_cpu (snd (fst res)) = (total_cpu s + t)%Z).
Proof.
  split.
  - intros Ht. now apply process_record_other with (rid := rid).
  - intros Ht t cpu Htot Hcpu. now apply process_record_Total with (rid := rid).
Qed.

Lemma C1_contribution_gate_witness :
  let env := mkEnv "grid" "2024/01" "2024/03" "INFO" in
  let alpha := mkDetails (Some "ALPHA") (Some "grid") (Some "2023/01")
                         (Some "2025/12") (Some "Y") (Some 7%Z) in
  let s := initial_state [["Period"]; ["2024.01-03"]] in
  total_cpu (snd (fst (process_record env 2
     (mkRecord (Some "UK-Total-Percent") (Some 50%Z)) (alpha, s)))) = (0 + 50)%Z
  /\ total_cpu (snd (fst (process_record env 2
     (mkRecord (Some "UK-Percent") (Some 50%Z)) (alpha, s)))) = 0%Z.
Proof.
  intros env alpha s. split.
  - apply (C1_contribution_gate env 2 (mkRecord (Some "UK-Total-Percent") (Some 50%Z))
             "UK-Total-Percent" alpha s eq_refl) with (cpu := 7%Z); reflexivity.
  - apply (C1_contribution_gate env 2 (mkRecord (Some "UK-Percent") (Some 50%Z))
             "UK-Percent" alpha s eq_refl). reflexivity.
Defined.

Lemma for_each_app {S A : Type} (body : A -> M S unit) (before rest : list A)
    (s0 s1 : S) :
  for_each before body s0 = (s1, Ok tt) ->
  for_each (before ++ rest) body s0 = for_each rest body s1.
Proof.
  revert s0. induction before as [|x before IH]; intros s0 H; simpl in *.
  - unfold ret in H. now inversion H.
  - unfold bind in *. destruct (body x s0) as [s' [[]|e]].
    + now apply IH.
    + discriminate.
Qed.

Lemma for_each_raise {S A : Type} (body : A -> M S unit) (before after : list A)
    (x : A) (s0 s1 s2 : S) (e : exn) :
  for_each before body s0 = (s1, Ok tt) ->
  body x s1 = (s2, Raise e) ->
  for_each (before ++ x :: after) body s0 = (s2, Raise e).
Proof.
  intros Hb Hx. rewrite (for_each_app _ _ _ _ _ Hb). simpl.
  unfold bind. now rewrite Hx.
Qed.

Lemma try_except_KeyError_ok {S : Type} (body : M S unit) (s : S) :
  try_except_KeyError body s = (fst (body s), Ok tt).
Proof.
  unfold try_except_KeyError. destruct (body s) as [s' [[]|[key]]]; reflexivity.
Qed.

Lemma process_record_Name (env : env_t) (pos : nat) (record : record_t)
    (ds : tstate) :
  Name (fst (fst (process_record env pos record ds))) = Name (fst ds).
Proof.
  destruct ds as [details s]. unfold process_record. unfold_m. simpl.
  destruct (id record) as [rid|]; simpl; [|reflexivity].
  destruct (negb ("Percent" in_str rid) && negb ("Total" in_str rid)); simpl.
  - destruct (Total record) as [t|]; simpl; [|reflexivity].
    destruct ("Total" in_str rid); simpl; [|reflexivity].
    destruct ("cloud" in_str ACCOUNTING_SCOPE env); simpl;
      (destruct (CPU_h details); simpl; [|reflexivity]);
      (destruct (Name details) as [vo_name|] eqn:Hn; simpl; [|reflexivity]);
      unfold get_vo_cell, update_GWorkSheet; unfold_m; simpl;
      destruct (snd (locate_vo _ vo_name)); simpl;
      destruct (ACCOUNTING_SCOPE env =? "cloud")%string; simpl; reflexivity.
  - destruct ("Total" in_str rid); simpl; [|reflexivity].
    destruct (Total record) as [t|]; simpl; [|reflexivity].
    destruct ("cloud" in_str ACCOUNTING_SCOPE env); simpl;
      (destruct (CPU_h details); simpl; [|reflexivity]);
      (destruct (Name details) as [vo_name|] eqn:Hn; simpl; [|reflexivity]);
      unfold get_vo_cell, update_GWorkSheet; unfold_m; simpl;
      destruct (snd (locate_vo _ vo_name)); simpl;
      destruct (ACCOUNTING_SCOPE env =? "cloud")%string; simpl; reflexivity.
Qed.

Lemma for_each_records_Name (env : env_t) (pos : nat) (data : list record_t)
    (ds : tstate) :
  Name (fst (fst (for_each data (process_record env pos) ds))) = Name (fst ds).
Proof.
  revert ds. induction data as [|record data IH]; intros ds; simpl.
  - reflexivity.
  - unfold bind.
    pose proof (process_record_Name env pos record ds) as Hr.
    destruct (process_record env pos record ds) as [ds' [[]|e]]; simpl in *.
    + now rewrite IH.
    + exact Hr.
Qed.

(** When the entity has its name, a record that raises does so before it
    changes the entity, the run total or the grid. *)
Lemma process_record_raise (env : env_t) (pos : nat) (record : record_t)
    (d1 d2 : details_t) (s1 s2 : state) (vo_name : string) (e : exn) :
  Name d1 = Some vo_name ->
  process_record env pos record (d1, s1) = ((d2, s2), Raise e) ->
  d2 = d1 /\ total_cpu s2 = total_cpu s1 /\ sheet s2 = sheet s1.
Proof.
  intros Hn. unfold process_record. unfold_m. simpl.
  destruct (id record) as [rid|]; simpl.
  2:{ intros H; inversion H; auto. }
  destruct (negb ("Percent" in_str rid) && negb ("Total" in_str rid)); simpl.
  - destruct (Total record) as [t|]; simpl.
    2:{ intros H; inversion H; auto. }
    destruct ("Total" in_str rid); simpl.
    2:{ intros H; inversion H. }
    destruct ("cloud" in_str ACCOUNTING_SCOPE env); simpl;
      (destruct (CPU_h d1); simpl; [|intros H; inversion H; auto]);
      rewrite Hn; simpl;
      unfold get_vo_cell, update_GWorkSheet; unfold_m; simpl;
      destruct (snd (locate_vo _ vo_name)); simpl;
      destruct (ACCOUNTING_SCOPE env =? "cloud")%string; simpl;
      intros H; inversion H.
  - destruct ("Total" in_str rid); simpl.
    2:{ intros H; inversion H. }
    destruct (Total record) as [t|]; simpl.
    2:{ intros H; inversion H; auto. }
    destruct ("cloud" in_str ACCOUNTING_SCOPE env); simpl;
      (destruct (CPU_h d1); simpl; [|intros H; inversion H; auto]);
      rewrite Hn; simpl;
      unfold get_vo_cell, update_GWorkSheet; unfold_m; simpl;
      destruct (snd (locate_vo _ vo_name)); simpl;
      destruct (ACCOUNTING_SCOPE env =? "cloud")%string; simpl;
      intros H; inversion H.
Qed.

(** The entity step of an eligible entity, spelled out. *)
Lemma process_details_eligible (get_accounting_data : env_t -> string -> list record_t)
    (env : env_t) (pos : nat) (details : details_t) (vo_name : string) (s : state) :
  eligible env details s = (s, Ok true) ->
  Name details = Some vo_name ->
  process_details get_accounting_data env pos details s
  = match get_accounting_data env vo_name with
    | [] => (mkState (sheet s) (total_cpu s) (out s ++ [Fetch vo_name]), Ok details)
    | data =>
        let ds := fst (for_each data (process_record env pos)
                                (details, loop_entry env vo_name s)) in
        (snd ds, Ok (fst ds))
    end.
Proof.
  intros Hel Hn. unfold process_details, bind at 1. rewrite Hel.
  unfold subscript, bind at 1. rewrite Hn. unfold ret at 1.
  unfold bind at 1, emit. unfold with_details.
  rewrite try_except_KeyError_ok. unfold try_body.
  destruct (get_accounting_data env vo_name) as [|record data] eqn:Hd.
  - reflexivity.
  - unfold bind at 1, get_details. unfold bind at 1, subscript. simpl fst.
    rewrite Hn. unfold ret at 1. unfold bind at 1, lift at 1, print, emit.
    simpl snd. simpl fst. unfold bind at 1.
    unfold loop_entry.
    destruct ("DEBUG" in_str LOG env); unfold lift, print, emit, ret; simpl;
      rewrite ?app_nil_r;
      match goal with
      | |- context [bind ?m ?k ?st] => destruct (bind m k st) as [[d' s'] r]
      end; reflexivity.
Qed.

(** C6. For an eligible entity the step never ends in an exception.  If
    one of its records raises [KeyError], the step ends in the very state
    reached at the raise: the failing record has changed neither the
    entity, nor the run total, nor the grid, the records after it are not
    processed, nothing more is printed, and the loop over the entities
    goes on with the next entity from that state. *)
Theorem C6_KeyError_is_entity_local
    (get_accounting_data : env_t -> string -> list record_t)
    (env : env_t) (accounting_period_pos : nat) (details : details_t)
    (vo_name : string) (s : state)
    (Heligible : eligible env details s = (s, Ok true))
    (Hname : Name details = Some vo_name) :
  (exists s' details',
      process_details get_accounting_data env accounting_period_pos details s
      = (s', Ok details'))
  /\ (forall before record after d1 s1 d2 s2 key,
      get_accounting_data env vo_name = before ++ record :: after ->
      for_each before (process_record env accounting_period_pos)
               (details, loop_entry env vo_name s) = ((d1, s1), Ok tt) ->
      process_record env accounting_period_pos record (d1, s1)
      = ((d2, s2), Raise (KeyError key)) ->
      process_details get_accounting_data env accounting_period_pos details s
      = (s2, Ok d2)
      /\ d2 = d1 /\ total_cpu s2 = total_cpu s1 /\ sheet s2 = sheet s1
      /\ forall rest,
           for_each_upd (details :: rest)
             (process_details get_accounting_data env accounting_period_pos) s
           = match for_each_upd rest
                     (process_details get_accounting_data env accounting_period_pos) s2
             with
             | (s', Ok rest') => (s', Ok (d2 :: rest'))
             | (s', Raise e) => (s', Raise e)
             end).
Proof.
  pose proof (process_details_eligible get_accounting_data env
                accounting_period_pos details vo_name s Heligible Hname) as Hstep.
  split.
  - rewrite Hstep. destruct (get_accounting_data env vo_name); eexists; eexists;
      reflexivity.
  - intros before record after d1 s1 d2 s2 key Hdata Hbefore Hrecord.
    assert (Hres : process_details get_accounting_data env accounting_period_pos
                     details s = (s2, Ok d2)).
    { rewrite Hstep, Hdata.
      pose proof (for_each_raise _ _ after _ _ _ _ _ Hbefore Hrecord) as Hloop.
      destruct before as [|first before]; simpl app in *;
        cbv beta iota zeta; rewrite Hloop; reflexivity. }
    assert (Hn1 : Name d1 = Some vo_name).
    { pose proof (for_each_records_Name env accounting_period_pos before
                    (details, loop_entry env vo_name s)) as Hn.
      rewrite Hbefore in Hn. simpl in Hn. now rewrite Hn. }
    destruct (process_record_raise _ _ _ _ _ _ _ _ _ Hn1 Hrecord) as [Hd [Ht Hs]].
    repeat split; try assumption.
    intros rest. simpl. unfold bind at 1. rewrite Hres.
    unfold bind, ret.
    destruct (for_each_upd rest _ s2) as [s' [rest'|e]]; reflexivity.
Qed.

Lemma C6_KeyError_is_entity_local_witness :
  let env := mkEnv "grid" "2024/01" "2024/03" "INFO" in
  let alpha := mkDetails (Some "ALPHA") (Some "grid") (Some "2023/01")
                         (Some "2025/12") (Some "Y") (Some 0%Z) in
  let r1 := mkRecord (Some "Total") (Some 100%Z) in
  let r2 := mkRecord (Some "site") None in
  let r3 := mkRecord (Some "Total") (Some 5%Z) in
  let fetch := fun (_ : env_t) (_ : string) => [r1; r2; r3] in
  let s := initial_state [["Period"]; ["2024.01-03"]] in
  let ds1 := fst (for_each [r1] (process_record env 2)
                           (alpha, loop_entry env "ALPHA" s)) in
  process_details fetch env 2 alpha s = (snd ds1, Ok (fst ds1))
  /\ total_cpu (snd ds1) = 100%Z.
Proof.
  intros env alpha r1 r2 r3 fetch s ds1. split; [|reflexivity].
  apply (proj2 (C6_KeyError_is_entity_local fetch env 2 alpha "ALPHA" s
                  eq_refl eq_refl)
           [r1] r2 [r3] (fst ds1) (snd ds1) (fst ds1) (snd ds1) "Total");
    reflexivity.
Defined.

(* ===================================================================== *)
(** ** Claims on locating a label that is present *)
(* ===================================================================== *)

Lemma StronglySorted_before {A : Type} (R : A -> A -> Prop) (before after : list A)
    (x : A) :
  StronglySorted R (before ++ x :: after) -> Forall (fun y => R y x) before.
Proof.
  induction before as [|y before IH]; simpl; intros H.
  - constructor.
  - apply StronglySorted_inv in H. destruct H as [Hs Hall]. constructor.
    + rewrite Forall_forall in Hall. apply Hall. apply in_or_app. right. now left.
    + now apply IH.
Qed.

Lemma counted_before (candidate : string) (before after : list string) :
  StronglySorted str_lt (before ++ candidate :: after) ->
  Forall (fun label => carries_marker label = false /\ label <> ""%string) before ->
  Forall (counted candidate) before.
Proof.
  intros Hs Hc. apply StronglySorted_before in Hs.
  rewrite Forall_forall in *. intros label Hin.
  destruct (Hc label Hin) as [Hm He]. repeat split; try assumption.
  now apply Hs.
Qed.

(** The row routine only reads the grid. *)
Lemma get_GWorkSheetCellPosition_reads (candidate : string) (s : state) :
  get_GWorkSheetCellPosition candidate s
  = (s, Ok (locate_period (col_values (sheet s) 1) candidate)).
Proof. reflexivity. Qed.

(** The column routine when the scan finds the label: nothing inserted. *)
Lemma get_vo_cell_found (vo_name : string) (s : state) (vo_name_pos : nat) :
  locate_vo (row_values (sheet s) 1) vo_name = (vo_name_pos, true) ->
  get_vo_cell vo_name s
  = (mkState (sheet s) (total_cpu s) (out s ++ [Console (VOAlreadyThere vo_name)]),
     Ok vo_name_pos).
Proof.
  intros H. unfold get_vo_cell. unfold_m. rewrite H. reflexivity.
Qed.

(** The column routine when the scan does not find the label. *)
Lemma get_vo_cell_not_found (vo_name : string) (s : state) (vo_name_pos : nat) :
  locate_vo (row_values (sheet s) 1) vo_name = (vo_name_pos, false) ->
  get_vo_cell vo_name s
  = (mkState (insert_cols vo_name vo_name_pos (sheet s)) (total_cpu s)
       ((out s ++ [Console (AddingVO vo_name vo_name_pos)])
          ++ [InsertCols vo_name vo_name_pos]),
     Ok vo_name_pos).
Proof.
  intros H. unfold get_vo_cell. unfold_m. rewrite H. reflexivity.
Qed.

(** C3, as stated, fails, on three strictly sorted axes that hold the
    candidate.  After an empty label: on ["Period"; ""; "alice"] the label
    "alice" sits at position 3 and both scans answer (2, True).  For a
    candidate containing "Period": on ["Period"; "Period-Lab"] the column
    routine does not find "Period-Lab" (position 2) and inserts a second
    column of that name.  After a header without the marker: on
    ["Date"; "alice"; "biomed"] the label "biomed" sits at position 3 and
    the scans answer (4, True). *)
Lemma C3_counterexample :
  let after_empty := ["Period"; ""; "alice"]%string in
  let with_marker := [["Period"; "Period-Lab"]]%string in
  let plain_header := ["Date"; "alice"; "biomed"]%string in
  (StronglySorted str_lt (tl after_empty)
   /\ nth_error after_empty (3 - 1) = Some "alice"%string
   /\ locate_period after_empty "alice" = (2, true)
   /\ locate_vo after_empty "alice" = (2, true))
  /\ (StronglySorted str_lt (tl (row_values with_marker 1))
      /\ nth_error (row_values with_marker 1) (2 - 1) = Some "Period-Lab"%string
      /\ locate_vo (row_values with_marker 1) "Period-Lab" = (2, false)
      /\ sheet (fst (get_vo_cell "Period-Lab" (initial_state with_marker)))
         = [["Period"; "Period-Lab"; "Period-Lab"]]%string)
  /\ (StronglySorted str_lt (tl plain_header)
      /\ nth_error plain_header (3 - 1) = Some "biomed"%string
      /\ locate_period plain_header "biomed" = (4, true)
      /\ locate_vo plain_header "biomed" = (4, true)).
Proof.
  repeat split; try reflexivity; repeat constructor.
Qed.

(** C3, amended. When the header carries the marker, the labels after it
    are strictly sorted, the candidate is one of them and carries no
    marker, and no label before it is empty or carries the marker, both
    scans return the candidate's own position with found = true; the row
    routine leaves the state as it is and the column routine inserts
    nothing (it only prints), also when called again.  On every grid state
    the row routine leaves the state unchanged, so calling it again
    returns the same (position, found), and the position the column
    routine returns is a function of the grid state and the candidate. *)
Theorem C3_present_label_located (header candidate : string)
    (before after : list string)
    (Hheader : carries_marker header = true)
    (Hsorted : StronglySorted str_lt (before ++ candidate :: after))
    (Hclean : Forall (fun label => carries_marker label = false
                                   /\ label <> ""%string) before)
    (Hcandidate : carries_marker candidate = false) :
  let values_list := header :: before ++ candidate :: after in
  let position := 2 + List.length before in
  nth_error values_list (position - 1) = Some candidate
  /\ locate_period values_list candidate = (position, true)
  /\ locate_vo values_list candidate = (position, true)
  /\ (forall s, col_values (sheet s) 1 = values_list ->
        get_GWorkSheetCellPosition candidate s = (s, Ok (position, true)))
  /\ (forall s, row_values (sheet s) 1 = values_list ->
        exists s',
          get_vo_cell candidate s = (s', Ok position)
          /\ sheet s' = sheet s
          /\ out s' = out s ++ [Console (VOAlreadyThere candidate)]
          /\ exists s'', get_vo_cell candidate s' = (s'', Ok position)
                         /\ sheet s'' = sheet s)
  /\ (forall s label,
        (first <- get_GWorkSheetCellPosition label ;;
         second <- get_GWorkSheetCellPosition label ;;
         ret (first, second)) s
        = (s, Ok (locate_period (col_values (sheet s) 1) label,
                  locate_period (col_values (sheet s) 1) label)))
  /\ (forall s label,
        snd (get_vo_cell label s)
        = Ok (fst (locate_vo (row_values (sheet s) 1) label))).
Proof.
  intros values_list position.
  assert (Hloc : locate_period values_list candidate = (position, true)).
  { apply locate_period_slot; auto. now apply counted_before with (after := after). }
  assert (Hvo : locate_vo values_list candidate = (position, true)).
  { now rewrite locate_vo_locate_period. }
  split.
  { unfold position, values_list.
    replace (2 + List.length before - 1) with (S (List.length before)) by lia.
    simpl. rewrite nth_error_app2 by lia. now rewrite Nat.sub_diag. }
  split; [exact Hloc|]. split; [exact Hvo|]. split; [|split].
  - intros s Hs. rewrite get_GWorkSheetCellPosition_reads. now rewrite Hs, Hloc.
  - intros s Hs. rewrite <- Hs in Hvo.
    rewrite (get_vo_cell_found _ _ _ Hvo). eexists. split; [reflexivity|].
    split; [reflexivity|]. split; [reflexivity|].
    rewrite (get_vo_cell_found _ _ position) by exact Hvo.
    eexists. split; reflexivity.
  - split; [intros s label; reflexivity|].
    intros s label. unfold get_vo_cell. unfold_m. simpl.
    destruct (snd (locate_vo _ label)); reflexivity.
Qed.

Lemma C3_present_label_located_witness :
  locate_period ["Period"; "2024.01-03"; "2024.04-06"; "2024.07-09"]%string
                "2024.04-06" = (3, true)
  /\ locate_vo ["Period"; "alice"; "biomed"]%string "biomed" = (3, true).
Proof.
  split.
  - apply (C3_present_label_located "Period" "2024.04-06" ["2024.01-03"%string]
             ["2024.07-09"%string]).
    + reflexivity.
    + repeat constructor.
    + repeat constructor. discriminate.
    + reflexivity.
  - apply (C3_present_label_located "Period" "biomed" ["alice"%string] []).
    + reflexivity.
    + repeat constructor.
    + repeat constructor. discriminate.
    + reflexivity.
Defined.

(* ===================================================================== *)
(** ** Claims on the totals *)
(* ===================================================================== *)

Lemma process_record_completes (env : env_t) (pos : nat) (record : record_t)
    (details : details_t) (s : state) (vo_name : string) :
  record_raises (has_counter details) record = false ->
  Name details = Some vo_name ->
  exists details' s',
    process_record env pos record (details, s) = ((details', s'), Ok tt)
    /\ total_cpu s' = (total_cpu s + record_total record)%Z
    /\ CPU_h details' = match CPU_h details with
                        | Some cpu => Some (cpu + record_total record)%Z
                        | None => None
                        end
    /\ Name details' = Name details.
Proof.
  unfold record_raises, has_counter, record_total, process_record.
  intros Hr Hn. unfold_m. simpl.
  destruct (id record) as [rid|]; [simpl|discriminate].
  destruct ("Total" in_str rid) eqn:Ht; rewrite ?andb_false_r, ?andb_true_r; simpl.
  - destruct (Total record) as [t|]; [simpl|discriminate].
    destruct (CPU_h details) as [cpu|] eqn:Hc; [simpl|discriminate].
    destruct ("cloud" in_str ACCOUNTING_SCOPE env); simpl; rewrite Hc; simpl;
      rewrite Hn; simpl; unfold get_vo_cell, update_GWorkSheet; unfold_m; simpl;
      destruct (snd (locate_vo _ vo_name)); simpl;
      destruct (ACCOUNTING_SCOPE env =? "cloud")%string; simpl;
      eexists; eexists; (split; [reflexivity|]); simpl; auto.
  - destruct ("Percent" in_str rid); simpl.
    + eexists; eexists. split; [reflexivity|]. simpl.
      destruct (Total record), (CPU_h details); repeat split; f_equal; lia.
    + destruct (Total record) as [t|]; [simpl|discriminate].
      eexists; eexists. split; [reflexivity|]. simpl.
      destruct (CPU_h details); repeat split; f_equal; lia.
Qed.

Lemma process_record_stops (env : env_t) (pos : nat) (record : record_t)
    (details : details_t) (s : state) :
  record_raises (has_counter details) record = true ->
  exists s' e,
    process_record env pos record (details, s) = ((details, s'), Raise e)
    /\ total_cpu s' = total_cpu s /\ sheet s' = sheet s.
Proof.
  unfold record_raises, has_counter, process_record.
  intros Hr. unfold_m. simpl.
  destruct (id record) as [rid|]; simpl.
  2:{ eexists; eexists. split; [reflexivity | auto]. }
  destruct ("Total" in_str rid) eqn:Ht; rewrite ?andb_false_r, ?andb_true_r; simpl.
  - destruct (Total record) as [t|]; simpl.
    2:{ eexists; eexists. split; [reflexivity | auto]. }
    destruct (CPU_h details) as [cpu|] eqn:Hc; [discriminate|].
    destruct ("cloud" in_str ACCOUNTING_SCOPE env); simpl; rewrite Hc; simpl;
      eexists; eexists; (split; [reflexivity | auto]).
  - destruct ("Percent" in_str rid); simpl; [discriminate|].
    destruct (Total record) as [t|]; [discriminate|]. simpl.
    eexists; eexists. split; [reflexivity | auto].
Qed.

(** The loop over the records of one entity adds the totals of the
    reached "Total" records to the run total and to the counter. *)
Lemma for_each_records_total (env : env_t) (pos : nat) (data : list record_t)
    (details : details_t) (s : state) (vo_name : string) :
  Name details = Some vo_name ->
  let res := for_each data (process_record env pos) (details, s) in
  total_cpu (snd (fst res)) = (total_cpu s + entity_total details data)%Z
  /\ CPU_h (fst (fst res)) = match CPU_h details with
                             | Some cpu => Some (cpu + entity_total details data)%Z
                             | None => None
                             end.
Proof.
  revert details s. unfold entity_total.
  induction data as [|record data IH]; intros details s Hn; simpl.
  - destruct (CPU_h details); split; f_equal; lia.
  - unfold bind.
    destruct (record_raises (has_counter details) record) eqn:Hr.
    + destruct (process_record_stops env pos record details s Hr)
        as [s' [e [Hp [Ht _]]]].
      rewrite Hp. simpl. destruct (CPU_h details); split; f_equal; lia.
    + destruct (process_record_completes env pos record details s vo_name Hr Hn)
        as [details' [s' [Hp [Ht [Hc Hn']]]]].
      rewrite Hp. rewrite Hn in Hn'.
      destruct (IH details' s' Hn') as [IHt IHc].
      assert (Hsame : has_counter details' = has_counter details).
      { unfold has_counter. rewrite Hc. now destruct (CPU_h details). }
      rewrite Hsame in IHt, IHc. simpl. split.
      * rewrite IHt, Ht. lia.
      * rewrite IHc, Hc. destruct (CPU_h details); f_equal; lia.
Qed.

(** The condition of line 201 does not depend on the state. *)
Lemma eligible_state {S : Type} (env : env_t) (details : details_t) (s : S) :
  eligible env details s = (s, snd (eligible env details tt)).
Proof.
  unfold eligible, bind, subscript, ret, raise.
  destruct (Type_ details); [|reflexivity].
  destruct (negb (ACCOUNTING_SCOPE env in_str s0)); [reflexivity|].
  destruct (SLA_start details); [|reflexivity].
  destruct (negb (PyStr.ge (DATE_FROM env) s1)); [reflexivity|].
  destruct (SLA_end details); [|reflexivity].
  destruct (negb (PyStr.le (DATE_TO env) s2)); [reflexivity|].
  destruct (Active details); reflexivity.
Qed.

Lemma process_details_total
    (get_accounting_data : env_t -> string -> list record_t)
    (env : env_t) (pos : nat) (details details' : details_t) (s s' : state) :
  process_details get_accounting_data env pos details s = (s', Ok details') ->
  total_cpu s' = (total_cpu s + details_total get_accounting_data env details)%Z.
Proof.
  intros H. unfold details_total, eligible_now.
  pose proof (eligible_state env details s) as Hel.
  destruct (eligible env details tt) as [u [[|]|e]]; simpl in Hel.
  - destruct (Name details) as [vo_name|] eqn:Hn.
    + rewrite (process_details_eligible _ _ _ _ vo_name _ Hel Hn) in H.
      destruct (get_accounting_data env vo_name) as [|record data].
      * inversion H; subst. unfold entity_total. simpl. lia.
      * cbv beta iota zeta in H.
        pose proof (for_each_records_total env pos (record :: data) details
                      (loop_entry env vo_name s) vo_name Hn) as [Ht _].
        injection H as Hs _. subst s'. exact Ht.
    + unfold process_details, bind in H. rewrite Hel in H.
      unfold subscript, raise in H. rewrite Hn in H. discriminate.
  - unfold process_details, bind in H. rewrite Hel in H.
    unfold ret in H. inversion H; subst. lia.
  - unfold process_details, bind in H. rewrite Hel in H. discriminate.
Qed.

(** A loop whose body adds [f x] to the run total adds the sum. *)
Lemma for_each_upd_total {A : Type} (body : A -> M state A) (f : A -> Z) :
  (forall x x' s s', body x s = (s', Ok x') ->
     total_cpu s' = (total_cpu s + f x)%Z) ->
  forall l l' s s', for_each_upd l body s = (s', Ok l') ->
    total_cpu s' = (total_cpu s + sumZ f l)%Z.
Proof.
  intros Hbody. induction l as [|x l IH]; intros l' s s' H; simpl in *.
  - unfold ret in H. inversion H; subst. lia.
  - unfold bind in H.
    destruct (body x s) as [s1 [x'|e]] eqn:Hx; [|discriminate].
    destruct (for_each_upd l body s1) as [s2 [l2|e]] eqn:Hl; [|discriminate].
    unfold ret in H. inversion H; subst.
    rewrite (IH _ _ _ Hl), (Hbody _ _ _ _ Hx). lia.
Qed.

Lemma process_VOs_total
    (get_accounting_data : env_t -> string -> list record_t)
    (env : env_t) (pos : nat) (VOs VOs' : list VO_items_t) (s s' : state) :
  process_VOs get_accounting_data env pos VOs s = (s', Ok VOs') ->
  total_cpu s' = (total_cpu s + run_total get_accounting_data env VOs)%Z.
Proof.
  unfold process_VOs, run_total. apply for_each_upd_total.
  intros VO_items x' s0 s0' H. unfold bind in H.
  destruct (for_each_upd (vos VO_items) _ s0) as [s1 [l1|e]] eqn:H1; [|discriminate].
  unfold ret in H. inversion H; subst. clear H.
  revert H1. apply for_each_upd_total.
  intros vo_details y' s2 s2' H. unfold bind in H.
  destruct (for_each_upd (vo vo_details) _ s2) as [s3 [l3|e]] eqn:H3; [|discriminate].
  unfold ret in H. inversion H; subst. clear H.
  revert H3. apply for_each_upd_total.
  intros details d' s4 s4'. apply process_details_total.
Qed.

(** Lines 177-188 spelled out: the row is inserted exactly when the scan
    did not find the label. *)
Lemma locate_period_row_spec (env : env_t) (s : state) :
  let located := locate_period (col_values (sheet s) 1) (accounting_period env) in
  locate_period_row env s
  = (if snd located
     then mkState (sheet s) (total_cpu s)
            (out s ++ [Console (PeriodAlreadyFound (fst located))])
     else mkState (insert_row [accounting_period env; "0"%string] (fst located)
                              (sheet s))
            (total_cpu s)
            ((out s ++ [Console (AddingPeriodAtRow (fst located))])
               ++ [InsertRow [accounting_period env; "0"%string] (fst located)]),
     Ok (fst located)).
Proof.
  unfold locate_period_row, get_GWorkSheetCellPosition. unfold_m. simpl.
  destruct (snd (locate_period _ _)); reflexivity.
Qed.

Lemma locate_period_row_total (env : env_t) (s : state) :
  exists s1 pos,
    locate_period_row env s = (s1, Ok pos) /\ total_cpu s1 = total_cpu s.
Proof.
  rewrite locate_period_row_spec. cbv zeta.
  destruct (snd (locate_period _ _)); eexists; eexists; split; reflexivity.
Qed.

Lemma bind_ok {S A B : Type} (m : M S A) (k : A -> M S B) (s s1 : S) (a : A) :
  m s = (s1, Ok a) -> bind m k s = k a s1.
Proof. intros H. unfold bind. now rewrite H. Qed.

Lemma bind_emit {B : Type} (e : event) (k : unit -> M state B) (s : state) :
  bind (emit e) k s = k tt (mkState (sheet s) (total_cpu s) (out s ++ [e])).
Proof. reflexivity. Qed.

Lemma bind_print {B : Type} (msg : message) (k : unit -> M state B) (s : state) :
  bind (print msg) k s
  = k tt (mkState (sheet s) (total_cpu s) (out s ++ [Console msg])).
Proof. reflexivity. Qed.

(** The state in which [main] locates the reporting period. *)
Lemma main_prologue (get_accounting_data : env_t -> string -> list record_t)
    (env : env_t) (ws : worksheet) (VOs : list VO_items_t) :
  main get_accounting_data env ws VOs
  = (accounting_period_pos <- locate_period_row env ;;
     print (Downloading (LOG env)) ;;
     print PleaseWait ;;
     VOs' <- process_VOs get_accounting_data env accounting_period_pos VOs ;;
     report env ;;
     ret VOs') (prologue_state env ws).
Proof. reflexivity. Qed.

Lemma report_spec (env : env_t) (s : state) :
  exists printed,
    report env s
    = (mkState (sheet s) (total_cpu s)
         (printed ++ [report_line env (total_cpu s)]), Ok tt).
Proof.
  unfold report, report_line. rewrite bind_print.
  destruct ("cloud" in_str ACCOUNTING_SCOPE env); rewrite !bind_print;
    unfold print, emit; simpl; eexists; reflexivity.
Qed.

Lemma main_total (get_accounting_data : env_t -> string -> list record_t)
    (env : env_t) (ws : worksheet) (VOs VOs' : list VO_items_t) (s : state) :
  main get_accounting_data env ws VOs = (s, Ok VOs') ->
  total_cpu s = run_total get_accounting_data env VOs
  /\ exists printed,
       out s = printed ++ [report_line env (run_total get_accounting_data env VOs)].
Proof.
  rewrite main_prologue.
  destruct (locate_period_row_total env (prologue_state env ws))
    as [s1 [pos [Hl H1]]].
  rewrite (bind_ok _ _ _ _ _ Hl). simpl in H1. rewrite !bind_print.
  unfold bind at 1.
  destruct (process_VOs _ env _ VOs _) as [s3 [VOs3|e]] eqn:Hp; [|discriminate].
  apply process_VOs_total in Hp. simpl in Hp. rewrite H1 in Hp. simpl in Hp.
  destruct (report_spec env s3) as [printed Hr].
  unfold bind at 1. rewrite Hr. unfold ret. intros H. inversion H; subst.
  simpl. rewrite Hp. split; [reflexivity | now exists printed].
Qed.

(** C7, as stated, fails: for one eligible entity whose records are a
    "Total-Percent" record (50), a provider record without its [Total]
    field and a "Total" record (100), the run completes with a run total
    of 50 and a counter of 50, where the qualifying records sum to 100:
    the record with both markers was added, and the "Total" record after
    the [KeyError] was never reached. *)
Lemma C7_counterexample :
  let env := mkEnv "grid" "2024/01" "2024/03" "INFO" in
  let alpha := mkDetails (Some "ALPHA") (Some "grid") (Some "2023/01")
                         (Some "2025/12") (Some "Y") (Some 0%Z) in
  let data := [mkRecord (Some "Total-Percent") (Some 50%Z);
               mkRecord (Some "site") None;
               mkRecord (Some "Total") (Some 100%Z)] in
  let fetch := fun (_ : env_t) (_ : string) => data in
  let VOs := [mkVOItems [mkVoDetails [alpha]]] in
  let run := main fetch env [["Period"%string]] VOs in
  snd run = Ok [mkVOItems [mkVoDetails
                 [mkDetails (Some "ALPHA") (Some "grid") (Some "2023/01")
                            (Some "2025/12") (Some "Y") (Some 50%Z)]]]
  /\ total_cpu (fst run) = 50%Z
  /\ run_qualifying_total fetch env VOs = 100%Z
  /\ total_cpu (fst run) <> run_qualifying_total fetch env VOs.
Proof. repeat split; try (vm_compute; reflexivity). vm_compute. discriminate. Qed.

(** C7, amended. A record whose id contains "Total" (with or without
    "Percent"), holding its [Total] field, for an entity holding its
    counter, adds exactly its [Total] to the counter and to the run total,
    in unbounded integers.  An eligible entity's step adds to both the sum
    of these totals over its records reached before its first [KeyError].
    When the run completes, the run total is that sum over all eligible
    entities, and the last line printed is the report of this total. *)
Theorem C7_run_total (get_accounting_data : env_t -> string -> list record_t)
    (env : env_t) (ws : worksheet) (VOs VOs' : list VO_items_t) (s : state)
    (Hrun : main get_accounting_data env ws VOs = (s, Ok VOs')) :
  total_cpu s = run_total get_accounting_data env VOs
  /\ (exists printed,
        out s = printed ++ [report_line env (run_total get_accounting_data env VOs)])
  /\ (forall pos record rid t cpu details s0,
        id record = Some rid -> "Total" in_str rid = true ->
        Total record = Some t -> CPU_h details = Some cpu ->
        let res := process_record env pos record (details, s0) in
        CPU_h (fst (fst res)) = Some (cpu + t)%Z
        /\ total_cpu (snd (fst res)) = (total_cpu s0 + t)%Z)
  /\ (forall pos details vo_name cpu s0,
        eligible env details s0 = (s0, Ok true) ->
        Name details = Some vo_name -> CPU_h details = Some cpu ->
        exists s1 details1,
          process_details get_accounting_data env pos details s0
          = (s1, Ok details1)
          /\ total_cpu s1
             = (total_cpu s0
                + entity_total details (get_accounting_data env vo_name))%Z
          /\ CPU_h details1
             = Some (cpu + entity_total details
                             (get_accounting_data env vo_name))%Z).
Proof.
  destruct (main_total _ _ _ _ _ _ Hrun) as [Ht Hout].
  split; [exact Ht|]. split; [exact Hout|]. split.
  - intros pos record rid t cpu details s0 Hid Htot Ht' Hc.
    now apply process_record_Total with (rid := rid).
  - intros pos details vo_name cpu s0 Hel Hn Hc.
    rewrite (process_details_eligible _ _ _ _ vo_name _ Hel Hn).
    destruct (get_accounting_data env vo_name) as [|record data].
    + eexists; eexists. split; [reflexivity|]. unfold entity_total. simpl.
      split; [lia|]. rewrite Hc. f_equal. lia.
    + cbv beta iota zeta. eexists; eexists. split; [reflexivity|].
      destruct (for_each_records_total env pos (record :: data) details
                  (loop_entry env vo_name s0) vo_name Hn) as [H1 H2].
      rewrite Hc in H2. split; assumption.
Qed.

Lemma C7_run_total_witness :
  let env := mkEnv "grid" "2024/01" "2024/03" "INFO" in
  let alpha := mkDetails (Some "ALPHA") (Some "grid") (Some "2023/01")
                         (Some "2025/12") (Some "Y") (Some 0%Z) in
  let fetch := fun (_ : env_t) (_ : string) =>
                 [mkRecord (Some "ALPHA-site1") (Some 40%Z);
                  mkRecord (Some "ALPHA-Total") (Some 300%Z)] in
  let VOs := [mkVOItems [mkVoDetails [alpha]]] in
  total_cpu (fst (main fetch env [["Period"%string]] VOs)) = run_total fetch env VOs
  /\ run_total fetch env VOs = 300%Z.
Proof.
  intros env alpha fetch VOs. split; [|reflexivity].
  apply (C7_run_total fetch env [["Period"%string]] VOs
           (match snd (main fetch env [["Period"%string]] VOs) with
            | Ok v => v
            | Raise _ => []
            end)
           (fst (main fetch env [["Period"%string]] VOs))).
  vm_compute. reflexivity.
Defined.

(* ===================================================================== *)
(** ** The grid: the label column under column insertions and cell writes *)
(* ===================================================================== *)

Lemma nth_0_insert_at (i : nat) (x : string) (l : list string) :
  1 <= i -> nth 0 (insert_at "" i x l) ""%string = nth 0 l ""%string.
Proof. destruct i as [|i]; [lia|]. intros _. destruct l; reflexivity. Qed.

Lemma nth_0_set_at (i : nat) (x : string) (l : list string) :
  1 <= i -> nth 0 (set_at "" i x l) ""%string = nth 0 l ""%string.
Proof. destruct i as [|i]; [lia|]. intros _. destruct l; reflexivity. Qed.

Lemma nth_set_at {A : Type} (d x : A) (i j : nat) (l : list A) :
  nth j (set_at d i x l) d = if (j =? i)%nat then x else nth j l d.
Proof.
  revert j l. induction i as [|i IH]; intros j l.
  - destruct j as [|j]; simpl; [reflexivity|]. destruct l as [|y [|z l]];
      destruct j; reflexivity.
  - destruct l as [|y l]; destruct j as [|j]; simpl; try reflexivity.
    + rewrite IH. destruct (j =? i)%nat; [reflexivity | now destruct j].
    + apply IH.
Qed.

Lemma cell_insert_cols (vo_name : string) (col row : nat) (ws : worksheet) :
  2 <= col -> cell (insert_cols vo_name col ws) row 1 = cell ws row 1.
Proof.
  intros Hc. unfold cell, insert_cols. simpl (1 - 1).
  assert (Hi : 1 <= col - 1) by lia.
  destruct ws as [|header_row rows].
  - destruct (row - 1) as [|[|n]]; simpl nth at 2 3.
    + now rewrite nth_0_insert_at.
    + reflexivity.
    + reflexivity.
  - destruct (row - 1) as [|n]; simpl nth at 2 3.
    + now apply nth_0_insert_at.
    + clear header_row. revert n.
      induction rows as [|r rows IH]; intros n; simpl.
      * now destruct n.
      * destruct n as [|n]; [now apply nth_0_insert_at | apply IH].
Qed.

Lemma cell_update_cell (r col row : nat) (value : string) (ws : worksheet) :
  2 <= col -> cell (update_cell r col value ws) row 1 = cell ws row 1.
Proof.
  intros Hc. unfold cell, update_cell. simpl (1 - 1). rewrite nth_set_at.
  destruct (Nat.eqb_spec (row - 1) (r - 1)) as [E|E]; [|reflexivity].
  rewrite E. apply nth_0_set_at. lia.
Qed.

Lemma cell_column (ws : worksheet) (row : nat) :
  cell ws row 1 = nth (row - 1) (column ws 1) ""%string.
Proof.
  unfold cell, column. simpl (1 - 1). generalize (row - 1) as n.
  induction ws as [|r ws IH]; intros n; simpl.
  - now destruct n.
  - destruct n; [reflexivity | apply IH].
Qed.

Lemma strip_trailing_padding (l : list string) :
  exists k, l = strip_trailing l ++ repeat ""%string k.
Proof.
  induction l as [|x l [k IH]]; simpl.
  - exists 0. reflexivity.
  - destruct (strip_trailing l) as [|y rest] eqn:Hs.
    + destruct (String.eqb_spec x "") as [->|Hx].
      * exists (S k). simpl. now rewrite IH at 1.
      * exists k. simpl. now rewrite IH at 1.
    + exists k. simpl. now rewrite IH at 1.
Qed.

(** The raw label column read through the value list the scan sees. *)
Lemma cell_col_values (ws : worksheet) (row : nat) :
  cell ws row 1 = nth (row - 1) (col_values ws 1) ""%string.
Proof.
  rewrite cell_column. unfold col_values.
  destruct (strip_trailing_padding (column ws 1)) as [k Hk].
  rewrite Hk at 1. clear Hk.
  generalize (strip_trailing (column ws 1)) as v. generalize (row - 1) as n.
  intros n v. revert n. induction v as [|x v IH]; intros n; simpl.
  - rewrite nth_repeat. now destruct n.
  - destruct n; [reflexivity | apply IH].
Qed.

(* ===================================================================== *)
(** ** Invariants of a run *)
(* ===================================================================== *)

Lemma bind_fst {S A B : Type} (m : M S A) (k : A -> M S B) (s s1 : S) (a : A) :
  m s = (s1, Ok a) -> fst (bind m k s) = fst (k a s1).
Proof. intros H. unfold bind. now rewrite H. Qed.

Section Preservation.

Context {S : Type} (I : S -> Prop).

Lemma preserves_ret {A : Type} (a : A) : preserves I (ret a).
Proof. intros s H. exact H. Qed.

Lemma preserves_raise {A : Type} (e : exn) : preserves I (@raise S A e).
Proof. intros s H. exact H. Qed.

Lemma preserves_subscript {A : Type} (key : string) (entry : option A) :
  preserves I (subscript key entry).
Proof. destruct entry; [apply preserves_ret | apply preserves_raise]. Qed.

Lemma preserves_bind_post {A B : Type} (m : M S A) (k : A -> M S B)
    (post : A -> Prop) :
  preserves I m ->
  (forall s a, I s -> snd (m s) = Ok a -> post a) ->
  (forall a, post a -> preserves I (k a)) ->
  preserves I (bind m k).
Proof.
  intros Hm Hpost Hk s Hs. unfold bind.
  specialize (Hm s Hs). specialize (Hpost s).
  destruct (m s) as [s' [a|e]]; simpl in *.
  - apply Hk; [|exact Hm]. now apply Hpost.
  - exact Hm.
Qed.

Lemma preserves_bind {A B : Type} (m : M S A) (k : A -> M S B) :
  preserves I m -> (forall a, preserves I (k a)) -> preserves I (bind m k).
Proof.
  intros Hm Hk. apply preserves_bind_post with (post := fun _ => True); auto.
Qed.

Lemma preserves_for_each {A : Type} (l : list A) (body : A -> M S unit) :
  (forall x, preserves I (body x)) -> preserves I (for_each l body).
Proof.
  intros Hb. induction l as [|x l IH]; simpl.
  - apply preserves_ret.
  - apply preserves_bind; [apply Hb | intros _; exact IH].
Qed.

Lemma preserves_for_each_upd {A : Type} (l : list A) (body : A -> M S A) :
  (forall x, preserves I (body x)) -> preserves I (for_each_upd l body).
Proof.
  intros Hb. induction l as [|x l IH]; simpl.
  - apply preserves_ret.
  - apply preserves_bind; [apply Hb | intros x'].
    apply preserves_bind; [exact IH | intros l']. apply preserves_ret.
Qed.

Lemma preserves_try (body : M S unit) :
  preserves I body -> preserves I (try_except_KeyError body).
Proof.
  intros Hb s Hs. rewrite try_except_KeyError_ok. simpl. now apply Hb.
Qed.

End Preservation.

Lemma preserves_lift {A : Type} (I : state -> Prop) (m : M state A) :
  preserves I m -> preserves (fun ds : tstate => I (snd ds)) (lift m).
Proof.
  intros Hm [d s] Hs. unfold lift. simpl in *. specialize (Hm s Hs).
  destruct (m s) as [s' r]. exact Hm.
Qed.

Lemma preserves_with_details (I : state -> Prop) (details : details_t)
    (m : M tstate unit) :
  preserves (fun ds : tstate => I (snd ds)) m ->
  preserves I (with_details details m).
Proof.
  intros Hm s Hs. unfold with_details. specialize (Hm (details, s) Hs).
  destruct (m (details, s)) as [[d' s'] [[]|e]]; exact Hm.
Qed.

Section LabelColumn.

Variable ws0 : worksheet.
Variable slot : nat.

Lemma kept_emit (e : event) :
  allowed slot e -> preserves (label_column_kept ws0 slot) (emit e).
Proof.
  intros He s [Hc Ho]. split; simpl; [exact Hc|].
  apply Forall_app. split; [exact Ho | now constructor].
Qed.

Lemma kept_print (msg : message) :
  preserves (label_column_kept ws0 slot) (print msg).
Proof. apply kept_emit. exact Logic.I. Qed.

Lemma kept_on_sheet (f : worksheet -> worksheet) :
  (forall ws row, cell (f ws) row 1 = cell ws row 1) ->
  preserves (label_column_kept ws0 slot) (on_sheet f).
Proof.
  intros Hf s [Hc Ho]. split; simpl; [|exact Ho].
  intros row. now rewrite Hf.
Qed.

Lemma kept_add_total_cpu (t : Z) :
  preserves (label_column_kept ws0 slot) (add_total_cpu t).
Proof. intros s [Hc Ho]. split; assumption. Qed.

Lemma kept_get_vo_cell (vo_name : string) :
  preserves (label_column_kept ws0 slot) (get_vo_cell vo_name).
Proof.
  unfold get_vo_cell. apply preserves_bind; [intros s H; exact H | intros values_list].
  apply preserves_bind; [|intros _; apply preserves_ret].
  destruct (negb (snd (locate_vo values_list vo_name))).
  - apply preserves_bind; [apply kept_print | intros _].
    apply preserves_bind; [apply kept_emit; exact Logic.I | intros _].
    apply kept_on_sheet. intros ws row. apply cell_insert_cols.
    apply locate_vo_lower.
  - apply kept_print.
Qed.

Lemma get_vo_cell_lower (vo_name : string) (s : state) (vo_name_pos : nat) :
  snd (get_vo_cell vo_name s) = Ok vo_name_pos -> 2 <= vo_name_pos.
Proof.
  unfold get_vo_cell. unfold_m. simpl.
  destruct (negb (snd (locate_vo _ vo_name))); simpl; intros H; inversion H;
    apply locate_vo_lower.
Qed.

Lemma kept_update_GWorkSheet (env : env_t) (vo_name_pos : nat) (value : string) :
  2 <= vo_name_pos ->
  preserves (label_column_kept ws0 slot)
    (update_GWorkSheet env slot vo_name_pos value).
Proof.
  intros Hc. unfold update_GWorkSheet.
  apply preserves_bind; [apply kept_emit; reflexivity | intros _].
  apply preserves_bind.
  - apply kept_on_sheet. intros ws row. now apply cell_update_cell.
  - intros _. destruct (ACCOUNTING_SCOPE env =? "cloud")%string; apply kept_print.
Qed.

Lemma kept_process_record (env : env_t) (record : record_t) :
  preserves (fun ds : tstate => label_column_kept ws0 slot (snd ds))
    (process_record env slot record).
Proof.
  unfold process_record.
  apply preserves_bind; [apply preserves_subscript | intros rid].
  apply preserves_bind.
  { destruct (negb ("Percent" in_str rid) && negb ("Total" in_str rid));
      [|apply preserves_ret].
    apply preserves_bind; [apply preserves_subscript | intros t].
    apply preserves_lift. apply kept_print. }
  intros _. destruct ("Total" in_str rid); [|apply preserves_ret].
  apply preserves_bind; [apply preserves_subscript | intros t].
  apply preserves_bind.
  { apply preserves_lift.
    destruct ("cloud" in_str ACCOUNTING_SCOPE env); apply kept_print. }
  intros _. apply preserves_bind; [intros ds H; exact H | intros details].
  apply preserves_bind; [apply preserves_subscript | intros cpu].
  apply preserves_bind; [intros ds H; exact H | intros _].
  apply preserves_bind; [apply preserves_lift, kept_add_total_cpu | intros _].
  apply preserves_bind; [intros ds H; exact H | intros details'].
  apply preserves_bind; [apply preserves_subscript | intros vo_name].
  apply preserves_bind_post with (post := fun vo_name_pos => 2 <= vo_name_pos).
  - apply preserves_lift, kept_get_vo_cell.
  - intros [d s] vo_name_pos _ H. unfold lift in H. simpl in H.
    apply (get_vo_cell_lower vo_name s).
    destruct (get_vo_cell vo_name s) as [s' r]. exact H.
  - intros vo_name_pos Hpos. apply preserves_lift.
    now apply kept_update_GWorkSheet.
Qed.

Lemma kept_process_details
    (get_accounting_data : env_t -> string -> list record_t)
    (env : env_t) (details : details_t) :
  preserves (label_column_kept ws0 slot)
    (process_details get_accounting_data env slot details).
Proof.
  unfold process_details.
  apply preserves_bind.
  { intros s H. rewrite eligible_state. exact H. }
  intros ok. destruct ok; [|apply preserves_ret].
  apply preserves_bind; [apply preserves_subscript | intros vo_name].
  apply preserves_bind; [apply kept_emit; exact Logic.I | intros _].
  apply preserves_with_details. apply preserves_try.
  unfold try_body. destruct (get_accounting_data env vo_name) as [|record data];
    [apply preserves_ret|].
  apply preserves_bind; [intros ds H; exact H | intros d].
  apply preserves_bind; [apply preserves_subscript | intros n].
  apply preserves_bind; [apply preserves_lift, kept_print | intros _].
  apply preserves_bind.
  { destruct ("DEBUG" in_str LOG env);
      [apply preserves_lift, kept_print | apply preserves_ret]. }
  intros _. apply preserves_for_each. intros r. apply kept_process_record.
Qed.

Lemma kept_process_VOs
    (get_accounting_data : env_t -> string -> list record_t)
    (env : env_t) (VOs : list VO_items_t) :
  preserves (label_column_kept ws0 slot)
    (process_VOs get_accounting_data env slot VOs).
Proof.
  unfold process_VOs. apply preserves_for_each_upd. intros VO_items.
  apply preserves_bind; [|intros; apply preserves_ret].
  apply preserves_for_each_upd. intros vo_details.
  apply preserves_bind; [|intros; apply preserves_ret].
  apply preserves_for_each_upd. intros details. apply kept_process_details.
Qed.

Lemma kept_report (env : env_t) :
  preserves (label_column_kept ws0 slot) (report env).
Proof.
  intros s H. unfold report. cbv zeta.
  match goal with
  | |- _ (fst (?m s)) =>
      cut (preserves (label_column_kept ws0 slot) m);
        [intros Hm; now apply Hm|]
  end.
  apply preserves_bind; [apply kept_print | intros _].
  destruct ("cloud" in_str ACCOUNTING_SCOPE env);
    (apply preserves_bind; [apply kept_print | intros _]);
    (apply preserves_bind; [apply kept_print | intros _]);
    apply kept_print.
Qed.

End LabelColumn.

(* ===================================================================== *)
(** ** Claim on an empty row label *)
(* ===================================================================== *)

(** C8. When the label column holds an empty label after a header with
    the marker and labels that all sort strictly before the period label
    (no marker, not empty), the row routine answers found = True at the
    row of that empty label.  The run then inserts no row; the label
    column is at the end what it was at the start, so the label cell of
    that row is still empty; and every cell write of the run is on that
    row. *)
Theorem C8_empty_label_takes_the_period
    (get_accounting_data : env_t -> string -> list record_t)
    (env : env_t) (ws : worksheet) (VOs : list VO_items_t)
    (header : string) (before after : list string)
    (Hcol : col_values ws 1 = header :: before ++ ""%string :: after)
    (Hheader : carries_marker header = true)
    (Hbefore : Forall (counted (accounting_period env)) before) :
  let slot := 2 + List.length before in
  let final := fst (main get_accounting_data env ws VOs) in
  get_GWorkSheetCellPosition (accounting_period env) (initial_state ws)
  = (initial_state ws, Ok (slot, true))
  /\ cell ws slot 1 = ""%string
  /\ (forall values index, ~ In (InsertRow values index) (out final))
  /\ (forall row, cell (sheet final) row 1 = cell ws row 1)
  /\ cell (sheet final) slot 1 = ""%string
  /\ (forall row col value, In (UpdateCell row col value) (out final) -> row = slot).
Proof.
  intros slot final.
  assert (Hloc : locate_period (col_values ws 1) (accounting_period env)
                 = (slot, true)).
  { rewrite Hcol. apply locate_period_slot; auto. }
  assert (Hcell : cell ws slot 1 = ""%string).
  { rewrite cell_col_values, Hcol. unfold slot.
    replace (2 + List.length before - 1) with (S (List.length before)) by lia.
    simpl. rewrite app_nth2 by lia. now rewrite Nat.sub_diag. }
  assert (Hkept : label_column_kept ws slot final).
  { assert (Hrow : locate_period_row env (prologue_state env ws)
                   = (mkState ws 0 (out (prologue_state env ws)
                                      ++ [Console (PeriodAlreadyFound slot)]),
                      Ok slot)).
    { rewrite locate_period_row_spec. cbv zeta. simpl sheet. now rewrite Hloc. }
    unfold final. rewrite main_prologue, (bind_fst _ _ _ _ _ Hrow).
    match goal with
    | |- label_column_kept _ _ (fst (?m _)) =>
        assert (Hrest : preserves (label_column_kept ws slot) m)
    end.
    { apply preserves_bind; [apply kept_print | intros _].
      apply preserves_bind; [apply kept_print | intros _].
      apply preserves_bind; [apply kept_process_VOs | intros VOs'].
      apply preserves_bind; [apply kept_report | intros _].
      apply preserves_ret. }
    apply Hrest. split; simpl; [reflexivity|]. repeat constructor. }
  destruct Hkept as [Hc Ho]. rewrite Forall_forall in Ho.
  split.
  { rewrite get_GWorkSheetCellPosition_reads. simpl sheet. now rewrite Hloc. }
  split; [exact Hcell|]. split.
  { intros values index Hin. exact (Ho _ Hin). }
  split; [exact Hc|]. split.
  { now rewrite Hc. }
  intros row col value Hin. exact (Ho _ Hin).
Qed.

Lemma C8_empty_label_takes_the_period_witness :
  let env := mkEnv "grid" "2024/04" "2024/06" "INFO" in
  let alpha := mkDetails (Some "ALPHA") (Some "grid") (Some "2023/01")
                         (Some "2025/12") (Some "Y") (Some 0%Z) in
  let fetch := fun (_ : env_t) (_ : string) =>
                 [mkRecord (Some "Total"%string) (Some 300%Z)] in
  let ws := [["Period"; "ALPHA"]; ["2024.01-03"; "12"]; [""; "7"];
             ["2024.07-09"; "1"]]%string in
  let final := fst (main fetch env ws [mkVOItems [mkVoDetails [alpha]]]) in
  cell (sheet final) 3 1 = ""%string
  /\ forall row col value, In (UpdateCell row col value) (out final) -> row = 3.
Proof.
  intros env alpha fetch ws final.
  pose proof (C8_empty_label_takes_the_period fetch env ws
                [mkVOItems [mkVoDetails [alpha]]]
                "Period" ["2024.01-03"%string] ["2024.07-09"%string]) as H.
  assert (H1 : col_values ws 1
               = ("Period" :: ["2024.01-03"] ++ "" :: ["2024.07-09"])%string)
    by reflexivity.
  assert (H2 : carries_marker "Period" = true) by reflexivity.
  assert (H3 : Forall (counted (accounting_period env)) ["2024.01-03"%string]).
  { repeat constructor. discriminate. }
  destruct (H H1 H2 H3) as [_ [_ [_ [_ [Hc Hw]]]]]. split; assumption.
Defined.

(* ===================================================================== *)
(** ** The axes under the locate-then-insert protocol *)
(* ===================================================================== *)

Lemma strip_trailing_cons (y : string) (a b : list string) :
  strip_trailing a = strip_trailing b ->
  strip_trailing (y :: a) = strip_trailing (y :: b).
Proof. intros H. simpl. now rewrite H. Qed.

Lemma strip_trailing_idem (l : list string) :
  strip_trailing (strip_trailing l) = strip_trailing l.
Proof.
  induction l as [|x l IH]; simpl; [reflexivity|].
  destruct (strip_trailing l) as [|y rest] eqn:Hs.
  - destruct (String.eqb_spec x "") as [->|Hx]; simpl; [reflexivity|].
    destruct (String.eqb_spec x ""); [contradiction | reflexivity].
  - simpl in *. now rewrite IH.
Qed.

(** Inserting a label into the raw cells of an axis and into the value list
    read from them gives the same value list. *)
Lemma strip_trailing_insert_at (i : nat) (x : string) (l : list string) :
  strip_trailing (insert_at "" i x l)
  = strip_trailing (insert_at "" i x (strip_trailing l)).
Proof.
  revert l. induction i as [|i IH]; intros l.
  - simpl. now rewrite strip_trailing_idem.
  - destruct l as [|y l]; [reflexivity|].
    change (insert_at "" (S i) x (y :: l)) with (y :: insert_at "" i x l).
    simpl strip_trailing at 3.
    destruct (strip_trailing l) as [|z rest] eqn:Hs.
    + destruct (String.eqb_spec y "") as [->|Hy].
      * change (insert_at "" (S i) x []) with (""%string :: insert_at "" i x []).
        apply strip_trailing_cons. rewrite IH, Hs. reflexivity.
      * change (insert_at "" (S i) x [y]) with (y :: insert_at "" i x []).
        apply strip_trailing_cons. rewrite IH, Hs. reflexivity.
    + change (insert_at "" (S i) x (y :: z :: rest))
        with (y :: insert_at "" i x (z :: rest)).
      apply strip_trailing_cons. rewrite IH, Hs. reflexivity.
Qed.

Lemma map_insert_at {A B : Type} (f : A -> B) (d x : A) (i : nat) (l : list A) :
  map f (insert_at d i x l) = insert_at (f d) i (f x) (map f l).
Proof.
  revert l. induction i as [|i IH]; intros l; [reflexivity|].
  destruct l as [|y l]; simpl.
  - f_equal. apply (IH []).
  - f_equal. apply IH.
Qed.

Lemma col_values_insert_row (label : string) (rest : list string) (index : nat)
    (ws : worksheet) :
  col_values (insert_row (label :: rest) index ws) 1
  = strip_trailing (insert_at "" (index - 1) label (col_values ws 1)).
Proof.
  unfold col_values, column, insert_row. rewrite map_insert_at. simpl (1 - 1).
  simpl nth at 1 2. apply strip_trailing_insert_at.
Qed.

Lemma row_values_insert_cols (vo_name : string) (col : nat) (ws : worksheet) :
  row_values (insert_cols vo_name col ws) 1
  = strip_trailing (insert_at "" (col - 1) vo_name (row_values ws 1)).
Proof.
  unfold row_values, insert_cols. simpl (1 - 1).
  destruct ws as [|header_row rows]; simpl nth; apply strip_trailing_insert_at.
Qed.

(** The two routines act on their axis as [axis_step]. *)
Lemma col_values_locate_period_row (env : env_t) (s : state) :
  col_values (sheet (fst (locate_period_row env s))) 1
  = axis_step (col_values (sheet s) 1) (accounting_period env).
Proof.
  rewrite locate_period_row_spec. cbv zeta. unfold axis_step.
  destruct (snd (locate_period _ _)); simpl; [reflexivity|].
  apply col_values_insert_row.
Qed.

Lemma row_values_get_vo_cell (vo_name : string) (s : state) :
  row_values (sheet (fst (get_vo_cell vo_name s))) 1
  = axis_step (row_values (sheet s) 1) vo_name.
Proof.
  unfold axis_step. rewrite <- locate_vo_locate_period.
  destruct (locate_vo (row_values (sheet s) 1) vo_name) as [pos found] eqn:H.
  destruct found.
  - rewrite (get_vo_cell_found _ _ _ H). reflexivity.
  - rewrite (get_vo_cell_not_found _ _ _ H). simpl.
    apply row_values_insert_cols.
Qed.

Lemma marker_nonempty (label : string) :
  carries_marker label = true -> label <> ""%string.
Proof. intros H E. subst. discriminate. Qed.

Lemma lt_empty (label : string) : PyStr.lt label "" = false.
Proof. destruct label; reflexivity. Qed.

Lemma strip_trailing_nonempty (b : list string) :
  Forall (fun y => y <> ""%string) b -> strip_trailing b = b.
Proof.
  intros H. induction H as [|y b Hy _ IH]; simpl; [reflexivity|].
  rewrite IH. destruct b; [|reflexivity].
  destruct (String.eqb_spec y ""); [contradiction | reflexivity].
Qed.

Lemma strip_trailing_app (a b : list string) :
  strip_trailing b = b -> b <> [] -> strip_trailing (a ++ b) = a ++ b.
Proof.
  intros Hb Hne. induction a as [|y a IH]; simpl; [exact Hb|].
  rewrite IH. destruct (a ++ b) eqn:E; [|reflexivity].
  apply app_eq_nil in E. destruct E as [_ E]. contradiction.
Qed.

Lemma insert_at_length {A : Type} (d x : A) (a b : list A) :
  insert_at d (List.length a) x (a ++ b) = a ++ x :: b.
Proof. induction a as [|y a IH]; simpl; [reflexivity | now rewrite IH]. Qed.

Lemma StronglySorted_snoc {A : Type} (R : A -> A -> Prop) (l : list A) (x : A) :
  StronglySorted R l -> Forall (fun y => R y x) l -> StronglySorted R (l ++ [x]).
Proof.
  intros Hs Hx. induction Hs as [|y l Hs IH Hy]; simpl.
  - repeat constructor.
  - inversion Hx; subst. constructor; [now apply IH|].
    apply Forall_app. split; [exact Hy | now constructor].
Qed.

Lemma StronglySorted_lt_NoDup (l : list string) :
  StronglySorted str_lt l -> NoDup l.
Proof.
  intros H. induction H as [|y l Hs IH Hy]; constructor; [|exact IH].
  intros Hin. rewrite Forall_forall in Hy. specialize (Hy y Hin).
  unfold str_lt in Hy. rewrite lt_irrefl in Hy. discriminate.
Qed.

(** Over labels that do not sort after the candidate, the loop either
    stops with found = true or counts every one of them. *)
Lemma period_loop_ascending (candidate : string) (labels rest : list string)
    (pos : nat) :
  Forall (fun label => carries_marker label = false) labels ->
  Forall (fun label => str_le label candidate) labels ->
  snd (period_loop candidate (labels ++ rest) pos) = true
  \/ Forall (counted candidate) labels.
Proof.
  intros Hm. revert pos. induction Hm as [|label labels Hl Hm IH]; intros pos Hle.
  - right. constructor.
  - inversion Hle as [|? ? Hle1 Hle2]; subst.
    destruct (String.eqb_spec label candidate) as [->|Hne].
    { left. simpl app. now rewrite period_loop_stop by auto. }
    destruct (String.eqb_spec label "") as [->|Hne'].
    { left. simpl app. now rewrite period_loop_stop by auto. }
    assert (Hc : counted candidate label).
    { repeat split; auto. now apply le_neq_lt. }
    destruct (IH (pos + 1) Hle2) as [Hfound | Hall].
    + left. change ((label :: labels) ++ rest) with ([label] ++ labels ++ rest).
      rewrite period_loop_counted by (constructor; [exact Hc | constructor]).
      exact Hfound.
    + right. now constructor.
Qed.

Lemma locate_period_ordered (values_list labels : list string) (candidate : string) :
  ordered_axis values_list labels ->
  Forall (fun label => str_le label candidate) labels ->
  snd (locate_period values_list candidate) = true
  \/ (locate_period values_list candidate = (2 + List.length labels, false)
      /\ Forall (counted candidate) labels).
Proof.
  intros [header [marked [Hv [Hh [Hm [Hs Hk]]]]]] Hle. subst values_list.
  unfold locate_period.
  destruct (Nat.ltb_spec 1 (List.length (header :: labels ++ marked))) as [Hlen|Hlen].
  - change (header :: labels ++ marked) with ([header] ++ labels ++ marked).
    rewrite period_loop_markers by (constructor; [exact Hh | constructor]).
    destruct (period_loop_ascending candidate labels marked 2 Hm Hle)
      as [Hfound | Hall]; [now left | right].
    split; [|exact Hall].
    rewrite period_loop_counted by exact Hall.
    rewrite <- (app_nil_r marked). now rewrite period_loop_markers.
  - right. simpl in Hlen. rewrite length_app in Hlen.
    destruct labels; [|simpl in Hlen; lia]. split; [reflexivity | constructor].
Qed.

(** One locate-then-insert of a label that does not sort before the
    labels of an ordered axis leaves an ordered axis, whose labels are
    old ones or the new one. *)
Lemma axis_step_ordered (values_list labels : list string) (label : string) :
  ordered_axis values_list labels ->
  Forall (fun l => str_le l label) labels ->
  exists labels',
    ordered_axis (axis_step values_list label) labels'
    /\ forall l, In l labels' -> In l labels \/ l = label.
Proof.
  intros Hord Hle.
  destruct (locate_period_ordered _ _ _ Hord Hle) as [Hfound | [Hloc Hall]].
  { exists labels. unfold axis_step. rewrite Hfound. split; [exact Hord | auto]. }
  destruct Hord as [header [marked [Hv [Hh [Hm [Hs Hk]]]]]]. subst values_list.
  unfold axis_step. rewrite Hloc. simpl snd. simpl fst. cbv iota.
  replace (S (S (List.length labels)) - 1) with (S (List.length labels)) by lia.
  change (insert_at "" (S (List.length labels)) label (header :: labels ++ marked))
    with (header :: insert_at "" (List.length labels) label (labels ++ marked)).
  rewrite insert_at_length.
  assert (Hknon : Forall (fun y => y <> ""%string) marked).
  { eapply Forall_impl; [|exact Hk]. intros a. apply marker_nonempty. }
  destruct (String.eqb_spec label "") as [He|Hne].
  - (* the empty label: no label can be counted before it *)
    subst label. destruct labels as [|l labels].
    2:{ inversion Hall as [|? ? [_ [_ Hlt]] _]; subst.
        rewrite lt_empty in Hlt. discriminate. }
    simpl app. destruct marked as [|m marked].
    + exists []. split; [|intros l []].
      exists header, []. simpl.
      destruct (String.eqb_spec header "") as [E|_].
      { exfalso. now apply (marker_nonempty header). }
      repeat split; auto; constructor.
    + exists [""%string]. split; [|intros l [<-|[]]; now right].
      exists header, (m :: marked).
      change (header :: ""%string :: m :: marked)
        with ([header; ""%string] ++ m :: marked).
      rewrite strip_trailing_app;
        [|now apply strip_trailing_nonempty | discriminate].
      repeat split; auto; repeat constructor.
  - assert (Hkeep : strip_trailing (header :: labels ++ label :: marked)
                    = header :: labels ++ label :: marked).
    { change (header :: labels ++ label :: marked)
        with ((header :: labels) ++ label :: marked).
      apply strip_trailing_app; [|discriminate].
      apply strip_trailing_nonempty. now constructor. }
    rewrite Hkeep.
    destruct (carries_marker label) eqn:Hml.
    + exists labels. split; [|auto].
      exists header, (label :: marked). repeat split; auto.
    + exists (labels ++ [label]). split.
      * exists header, marked. rewrite <- app_assoc. simpl.
        repeat split; auto.
        -- apply Forall_app. split; [exact Hm | now constructor].
        -- apply StronglySorted_snoc; [exact Hs|].
           eapply Forall_impl; [|exact Hall]. intros a [_ [_ Hlt]]. exact Hlt.
      * intros l Hin. apply in_app_or in Hin.
        destruct Hin as [Hin | [<- | []]]; auto.
Qed.

Lemma axis_labels_ordered (values_list labels : list string) :
  ordered_axis values_list labels -> axis_labels values_list = labels.
Proof.
  intros [header [marked [Hv [Hh [Hm [Hs Hk]]]]]]. subst values_list.
  unfold axis_labels. simpl. rewrite Hh. simpl. rewrite filter_app.
  assert (H1 : filter (fun l => negb (carries_marker l)) labels = labels).
  { clear -Hm. induction Hm as [|l labels Hl _ IH]; simpl; [reflexivity|].
    now rewrite Hl, IH. }
  assert (H2 : filter (fun l => negb (carries_marker l)) marked = []).
  { clear -Hk. induction Hk as [|l marked Hl _ IH]; simpl; [reflexivity|].
    now rewrite Hl. }
  now rewrite H1, H2, app_nil_r.
Qed.

(** A sequence of locate-then-insert steps in ascending label order. *)
Lemma axis_steps_ordered (new_labels : list string) :
  forall values_list labels,
    ordered_axis values_list labels ->
    StronglySorted str_le new_labels ->
    Forall (fun l => Forall (str_le l) new_labels) labels ->
    exists labels', ordered_axis (fold_left axis_step new_labels values_list) labels'.
Proof.
  induction new_labels as [|label new_labels IH];
    intros values_list labels Hord Hasc Hbound; simpl.
  - now exists labels.
  - apply StronglySorted_inv in Hasc. destruct Hasc as [Hasc Hfirst].
    assert (Hle : Forall (fun l => str_le l label) labels).
    { eapply Forall_impl; [|exact Hbound]. intros a Ha. now inversion Ha. }
    destruct (axis_step_ordered _ _ _ Hord Hle) as [labels' [Hord' Hin]].
    apply (IH _ labels' Hord' Hasc).
    rewrite Forall_forall. intros l Hl. destruct (Hin l Hl) as [Hold | ->].
    + rewrite Forall_forall in Hbound. specialize (Hbound l Hold).
      now inversion Hbound.
    + exact Hfirst.
Qed.

Lemma col_values_runs (runs : list env_t) (s0 : state) :
  col_values (sheet (fold_left (fun s env => fst (locate_period_row env s)) runs s0)) 1
  = fold_left axis_step (map accounting_period runs) (col_values (sheet s0) 1).
Proof.
  revert s0. induction runs as [|env runs IH]; intros s0; simpl; [reflexivity|].
  now rewrite IH, col_values_locate_period_row.
Qed.

Lemma row_values_vo_names (vo_names : list string) (s0 : state) :
  row_values (sheet (fold_left (fun s vo_name => fst (get_vo_cell vo_name s))
                               vo_names s0)) 1
  = fold_left axis_step vo_names (row_values (sheet s0) 1).
Proof.
  revert s0. induction vo_names as [|vo_name vo_names IH]; intros s0; simpl;
    [reflexivity|].
  now rewrite IH, row_values_get_vo_cell.
Qed.

(** C4. From a grid whose axis is in order (a header with the marker, the
    labels strictly ascending), every sequence of locate-then-insert steps
    whose labels come in ascending order, none sorting before a label
    already on the axis, leaves the labels of the axis (cells carrying
    the marker left out) strictly ascending and without duplicates: the
    row axis under [get_GWorkSheetCellPosition] followed by the row
    insertion of [main], the column axis under [get_vo_cell]. *)
Theorem C4_axes_stay_sorted (s0 : state) :
  (forall (runs : list env_t) (labels : list string),
      ordered_axis (col_values (sheet s0) 1) labels ->
      StronglySorted str_le (map accounting_period runs) ->
      Forall (fun l => Forall (str_le l) (map accounting_period runs)) labels ->
      let s := fold_left (fun s env => fst (locate_period_row env s)) runs s0 in
      StronglySorted str_lt (axis_labels (col_values (sheet s) 1))
      /\ NoDup (axis_labels (col_values (sheet s) 1)))
  /\ (forall (vo_names labels : list string),
      ordered_axis (row_values (sheet s0) 1) labels ->
      StronglySorted str_le vo_names ->
      Forall (fun l => Forall (str_le l) vo_names) labels ->
      let s := fold_left (fun s vo_name => fst (get_vo_cell vo_name s)) vo_names s0 in
      StronglySorted str_lt (axis_labels (row_values (sheet s) 1))
      /\ NoDup (axis_labels (row_values (sheet s) 1))).
Proof.
  split.
  - intros runs labels Hord Hasc Hbound s. unfold s. rewrite col_values_runs.
    destruct (axis_steps_ordered _ _ _ Hord Hasc Hbound) as [labels' Hord'].
    rewrite (axis_labels_ordered _ _ Hord').
    destruct Hord' as [header [marked [_ [_ [_ [Hs _]]]]]].
    split; [exact Hs | now apply StronglySorted_lt_NoDup].
  - intros vo_names labels Hord Hasc Hbound s. unfold s. rewrite row_values_vo_names.
    destruct (axis_steps_ordered _ _ _ Hord Hasc Hbound) as [labels' Hord'].
    rewrite (axis_labels_ordered _ _ Hord').
    destruct Hord' as [header [marked [_ [_ [_ [Hs _]]]]]].
    split; [exact Hs | now apply StronglySorted_lt_NoDup].
Qed.

Lemma C4_axes_stay_sorted_witness :
  let s0 := initial_state [["Period"%string]] in
  let q1 := mkEnv "grid" "2024/01" "2024/03" "INFO" in
  let q2 := mkEnv "grid" "2024/04" "2024/06" "INFO" in
  StronglySorted str_lt
    (axis_labels (col_values
       (sheet (fold_left (fun s env => fst (locate_period_row env s)) [q1; q2; q2] s0)) 1))
  /\ StronglySorted str_lt
    (axis_labels (row_values
       (sheet (fold_left (fun s vo_name => fst (get_vo_cell vo_name s))
                         ["ALPHA"; "My-Period"; "alice"; "biomed"]%string s0)) 1)).
Proof.
  intros s0 q1 q2. split.
  - apply (proj1 (C4_axes_stay_sorted s0) [q1; q2; q2] []).
    + exists "Period"%string, []. repeat split; constructor.
    + repeat constructor.
    + constructor.
  - apply (proj2 (C4_axes_stay_sorted s0)
             ["ALPHA"; "My-Period"; "alice"; "biomed"]%string []).
    + exists "Period"%string, []. repeat split; constructor.
    + repeat constructor.
    + constructor.
Defined.

(* ===================================================================== *)
(** ** More on the string order *)
(* ===================================================================== *)

Lemma compare_lt_trans (a b c : string) :
  String.compare a b = Lt -> String.compare b c = Lt -> String.compare a c = Lt.
Proof.
  revert b c. induction a as [|x a IH]; intros [|y b] [|z c]; simpl;
    try discriminate; auto.
  destruct (Ascii.compare x y) eqn:Exy; destruct (Ascii.compare y z) eqn:Eyz;
    try discriminate.
  - apply Ascii.compare_eq_iff in Exy. apply Ascii.compare_eq_iff in Eyz.
    subst. unfold Ascii.compare. rewrite N.compare_refl. apply IH.
  - apply Ascii.compare_eq_iff in Exy. subst. now rewrite Eyz.
  - apply Ascii.compare_eq_iff in Eyz. subst. now rewrite Exy.
  - intros _ _. unfold Ascii.compare in *.
    rewrite N.compare_lt_iff in *. replace (_ ?= _)%N with Lt; [reflexivity|].
    symmetry. apply N.compare_lt_iff. eapply N.lt_trans; eassumption.
Qed.

Lemma lt_trans (a b c : string) :
  PyStr.lt a b = true -> PyStr.lt b c = true -> PyStr.lt a c = true.
Proof.
  unfold PyStr.lt, String.ltb. intros Hab Hbc.
  destruct (String.compare a b) eqn:Eab; try discriminate.
  destruct (String.compare b c) eqn:Ebc; try discriminate.
  now rewrite (compare_lt_trans _ _ _ Eab Ebc).
Qed.

(** The order is total: of two different strings one sorts first. *)
Lemma lt_total (a b : string) :
  a <> b -> PyStr.lt a b = false -> PyStr.lt b a = true.
Proof.
  unfold PyStr.lt, String.ltb. intros Hne Hab.
  rewrite String.compare_antisym.
  destruct (String.compare a b) eqn:E; simpl; try reflexivity; try discriminate.
  apply String.compare_eq_iff in E. contradiction.
Qed.

Lemma lt_asym (a b : string) : PyStr.lt a b = true -> PyStr.lt b a = false.
Proof.
  intros Hab. destruct (PyStr.lt b a) eqn:Hba; [|reflexivity].
  pose proof (lt_trans _ _ _ Hab Hba) as H. rewrite lt_irrefl in H. discriminate.
Qed.

(* ===================================================================== *)
(** ** What the scans answer *)
(* ===================================================================== *)

Lemma period_loop_found_iff (candidate : string) (values_list : list string)
    (pos : nat) :
  snd (period_loop candidate values_list pos) = true
  <-> exists header, In header values_list /\ carries_marker header = false
                     /\ (header = candidate \/ header = ""%string).
Proof.
  revert pos. induction values_list as [|header rest IH]; intros pos; simpl.
  - split; [discriminate | intros [h [[] _]]].
  - destruct ("Period" in_str header) eqn:Hm; simpl.
    + rewrite IH. split.
      * intros [h [Hin Hh]]. exists h. split; [now right | exact Hh].
      * intros [h [[->|Hin] [Hh Hstop]]].
        -- unfold carries_marker in Hh. rewrite Hm in Hh. discriminate.
        -- exists h. auto.
    + destruct (String.eqb_spec header candidate) as [->|Hne]; simpl.
      { split; [|reflexivity]. intros _. exists candidate. auto. }
      destruct (String.eqb_spec header "") as [->|Hne']; simpl.
      { split; [|reflexivity]. intros _. exists ""%string. auto. }
      assert (Hrest : forall p,
                 snd (period_loop candidate rest p) = true
                 <-> exists h, In h (header :: rest) /\ carries_marker h = false
                               /\ (h = candidate \/ h = ""%string)).
      { intros p. rewrite IH. split.
        - intros [h [Hin Hh]]. exists h. split; [now right | exact Hh].
        - intros [h [[->|Hin] [Hh [E|E]]]]; try contradiction; exists h; auto. }
      destruct (PyStr.lt header candidate); apply Hrest.
Qed.

Lemma period_loop_not_found_pos (candidate : string) (values_list : list string)
    (pos : nat) :
  snd (period_loop candidate values_list pos) = false ->
  fst (period_loop candidate values_list pos)
  = pos + List.length (sorting_before candidate values_list).
Proof.
  revert pos. unfold sorting_before.
  induction values_list as [|header rest IH]; intros pos; simpl.
  - intros _. lia.
  - unfold carries_marker at 1.
    destruct ("Period" in_str header) eqn:Hm; simpl; [apply IH|].
    destruct ((header =? candidate) || (header =? ""))%string; [discriminate|].
    destruct (PyStr.lt header candidate); simpl; intros H; rewrite IH by exact H;
      lia.
Qed.

Lemma period_loop_upper (candidate : string) (values_list : list string)
    (pos : nat) :
  fst (period_loop candidate values_list pos)
  <= pos + List.length (sorting_before candidate values_list).
Proof.
  revert pos. unfold sorting_before.
  induction values_list as [|header rest IH]; intros pos; simpl.
  - lia.
  - unfold carries_marker at 1.
    destruct ("Period" in_str header) eqn:Hm; simpl; [apply IH|].
    destruct ((header =? candidate) || (header =? ""))%string; [simpl; lia|].
    destruct (PyStr.lt header candidate); simpl.
    + specialize (IH (pos + 1)). lia.
    + apply IH.
Qed.

Lemma sorting_before_length (candidate : string) (values_list : list string) :
  List.length (sorting_before candidate values_list)
  <= List.length (axis_labels values_list).
Proof.
  unfold sorting_before, axis_labels.
  induction values_list as [|header rest IH]; simpl; [lia|].
  destruct (carries_marker header); simpl; [exact IH|].
  destruct (PyStr.lt header candidate); simpl; lia.
Qed.

(** X1. A scan answers found = True exactly when the value list has more
    than one entry and holds, among the labels without the marker, the
    candidate or an empty label; the row and the column scan alike. *)
Theorem X1_found_iff (values_list : list string) (candidate : string) :
  (snd (locate_period values_list candidate) = true
   <-> 1 < List.length values_list
       /\ exists header, In header values_list /\ carries_marker header = false
                         /\ (header = candidate \/ header = ""%string))
  /\ snd (locate_vo values_list candidate)
     = snd (locate_period values_list candidate).
Proof.
  split; [|now rewrite locate_vo_locate_period].
  unfold locate_period.
  destruct (Nat.ltb_spec 1 (List.length values_list)) as [Hlen|Hlen].
  - rewrite period_loop_found_iff. split; [intros H; split; assumption|].
    intros [_ H]. exact H.
  - simpl. split; [discriminate | intros [H _]; lia].
Qed.

(** X2. When a scan does not find the candidate, the position it returns
    is 2 plus the number of labels without the marker that sort strictly
    before the candidate, wherever they stand in the list. *)
Theorem X2_position_counts_smaller_labels (values_list : list string)
    (candidate : string)
    (Hnot_found : snd (locate_period values_list candidate) = false)
    (Hlen : 1 < List.length values_list) :
  fst (locate_period values_list candidate)
  = 2 + List.length (sorting_before candidate values_list)
  /\ fst (locate_vo values_list candidate)
     = 2 + List.length (sorting_before candidate values_list).
Proof.
  assert (H : fst (locate_period values_list candidate)
              = 2 + List.length (sorting_before candidate values_list)).
  { revert Hnot_found. unfold locate_period.
    destruct (Nat.ltb_spec 1 (List.length values_list)) as [_|Hle]; [|lia].
    apply period_loop_not_found_pos. }
  split; [exact H|].
  replace (locate_vo values_list candidate)
    with (locate_period values_list candidate); [exact H|].
  symmetry. apply locate_vo_locate_period.
Qed.

Lemma X2_position_counts_smaller_labels_witness :
  fst (locate_vo ["Period"; "biomed"; "Period-x"; "alice"; "zeus"]%string "cms")
  = 2 + List.length ["biomed"; "alice"]%string.
Proof.
  apply (X2_position_counts_smaller_labels
           ["Period"; "biomed"; "Period-x"; "alice"; "zeus"]%string "cms").
  - reflexivity.
  - simpl. lia.
Defined.

(** X3. The position a scan returns lies between 2 and 2 plus the number
    of labels without the marker; when the header carries the marker it
    is at most one past the end of the value list, so that an insertion
    at that position leaves no gap. *)
Theorem X3_position_bounds (values_list : list string) (candidate : string) :
  2 <= fst (locate_period values_list candidate)
  /\ fst (locate_period values_list candidate)
     <= 2 + List.length (axis_labels values_list)
  /\ (forall header rest,
        values_list = header :: rest -> carries_marker header = true ->
        fst (locate_period values_list candidate) <= List.length values_list + 1)
  /\ fst (locate_vo values_list candidate)
     = fst (locate_period values_list candidate).
Proof.
  split; [apply locate_period_lower|].
  assert (Hup : fst (locate_period values_list candidate)
                <= 2 + List.length (axis_labels values_list)).
  { unfold locate_period. destruct (1 <? List.length values_list)%nat.
    - pose proof (period_loop_upper candidate values_list 2).
      pose proof (sorting_before_length candidate values_list). lia.
    - simpl. lia. }
  split; [exact Hup|]. split; [|now rewrite locate_vo_locate_period].
  intros header rest -> Hm. revert Hup. unfold axis_labels. simpl filter.
  rewrite Hm. simpl negb. cbv iota.
  pose proof (filter_length_le (fun l => negb (carries_marker l)) rest).
  simpl List.length. lia.
Qed.

Lemma X3_position_bounds_witness :
  fst (locate_period ["Period"; "2024.01-03"]%string "2024.04-06") <= 2 + 1.
Proof.
  apply (proj1 (proj2 (proj2 (X3_position_bounds
                 ["Period"; "2024.01-03"]%string "2024.04-06")))
           "Period"%string ["2024.01-03"%string]); reflexivity.
Defined.

(* ===================================================================== *)
(** ** Insertion at the sorted position, in any order *)
(* ===================================================================== *)

Lemma locate_period_header (header candidate : string) (labels : list string) :
  carries_marker header = true ->
  locate_period (header :: labels) candidate = period_loop candidate labels 2.
Proof.
  intros Hm. unfold locate_period.
  destruct (Nat.ltb_spec 1 (List.length (header :: labels))) as [Hlen|Hlen].
  - simpl. unfold carries_marker in Hm. now rewrite Hm.
  - destruct labels; [reflexivity | simpl in Hlen; lia].
Qed.

(** Labels that do not stop the loop and do not sort before the
    candidate are passed without being counted. *)
Lemma period_loop_passed (candidate : string) (labels : list string) (pos : nat) :
  Forall (fun l => plain_label l /\ l <> candidate
                   /\ PyStr.lt l candidate = false) labels ->
  period_loop candidate labels pos = (pos, false).
Proof.
  intros H. induction H as [|l labels [[Hm He] [Hne Hlt]] _ IH]; simpl;
    [reflexivity|].
  unfold carries_marker in Hm. rewrite Hm. simpl.
  apply String.eqb_neq in Hne. apply String.eqb_neq in He.
  now rewrite Hne, He, Hlt.
Qed.

Lemma sorted_split (candidate : string) (labels : list string) :
  StronglySorted str_lt labels ->
  exists before after,
    labels = before ++ after
    /\ Forall (fun l => PyStr.lt l candidate = true) before
    /\ Forall (fun l => PyStr.lt l candidate = false) after.
Proof.
  intros H. induction H as [|l labels Hs [before [after [E [Hb Ha]]]] Hl].
  - exists [], []. repeat split; constructor.
  - destruct (PyStr.lt l candidate) eqn:Hlt.
    + exists (l :: before), after. subst labels. repeat split; auto.
    + exists [], (l :: labels). repeat split; [constructor|].
      constructor; [exact Hlt|].
      rewrite Forall_forall in *. intros z Hz.
      destruct (PyStr.lt z candidate) eqn:Hz'; [|reflexivity].
      specialize (Hl z Hz). unfold str_lt in Hl.
      rewrite (lt_trans _ _ _ Hl Hz') in Hlt. discriminate.
Qed.

Lemma StronglySorted_app_inv {A : Type} (R : A -> A -> Prop) (l1 l2 : list A) :
  StronglySorted R (l1 ++ l2) ->
  StronglySorted R l1 /\ StronglySorted R l2
  /\ Forall (fun x => Forall (R x) l2) l1.
Proof.
  induction l1 as [|x l1 IH]; simpl; intros H.
  - repeat split; [constructor | exact H | constructor].
  - apply StronglySorted_inv in H. destruct H as [Hs Hx].
    destruct (IH Hs) as [H1 [H2 H12]]. apply Forall_app in Hx.
    destruct Hx as [Hx1 Hx2]. repeat split; auto.
    constructor; assumption.
Qed.

Lemma StronglySorted_insert (x : string) (l1 l2 : list string) :
  StronglySorted str_lt (l1 ++ l2) ->
  Forall (fun l => str_lt l x) l1 ->
  Forall (fun l => str_lt x l) l2 ->
  StronglySorted str_lt (l1 ++ x :: l2).
Proof.
  induction l1 as [|y l1 IH]; simpl; intros Hs H1 H2.
  - constructor; assumption.
  - apply StronglySorted_inv in Hs. destruct Hs as [Hs Hy].
    inversion H1 as [|? ? Hyx H1']; subst. constructor; [now apply IH|].
    apply Forall_app in Hy. destruct Hy as [Hy1 Hy2].
    apply Forall_app. split; [exact Hy1|]. constructor; assumption.
Qed.

Lemma insert_after_header (header label : string) (before after : list string) :
  insert_at "" (S (S (List.length before)) - 1) label (header :: before ++ after)
  = header :: before ++ label :: after.
Proof.
  replace (S (S (List.length before)) - 1) with (S (List.length before)) by lia.
  simpl. now rewrite insert_at_length.
Qed.

(** One locate-then-insert of a plain label on a clean axis (header with
    the marker, plain labels strictly ascending): the label ends up at
    the position the scan returned, between the labels that sort before
    it and those that sort after it, and is found there afterwards. *)
Lemma axis_step_clean (header label : string) (labels : list string) :
  carries_marker header = true ->
  Forall plain_label labels ->
  StronglySorted str_lt labels ->
  plain_label label ->
  exists before after,
    fst (locate_period (header :: labels) label) = 2 + List.length before
    /\ axis_step (header :: labels) label = header :: before ++ label :: after
    /\ (if snd (locate_period (header :: labels) label)
        then labels = before ++ label :: after
        else labels = before ++ after /\ ~ In label labels)
    /\ Forall plain_label (before ++ label :: after)
    /\ StronglySorted str_lt (before ++ label :: after)
    /\ locate_period (header :: before ++ label :: after) label
       = (2 + List.length before, true).
Proof.
  intros Hh Hplain Hsorted [Hlm Hle].
  destruct (sorted_split label labels Hsorted) as [before [rest [E [Hb Hr]]]].
  subst labels. apply Forall_app in Hplain. destruct Hplain as [Hpb Hpr].
  assert (Hcounted : Forall (counted label) before).
  { rewrite Forall_forall in *. intros l Hl. destruct (Hpb l Hl) as [Hm He].
    repeat split; auto. }
  assert (Hslot : forall after,
             locate_period (header :: before ++ label :: after) label
             = (2 + List.length before, true)).
  { intros after. apply locate_period_slot; auto. }
  destruct (StronglySorted_app_inv _ _ _ Hsorted) as [Hsb [Hsr Hbr]].
  destruct rest as [|r rest].
  - (* nothing sorts after the label: it goes to the end *)
    exists before, []. rewrite locate_period_header by exact Hh.
    rewrite period_loop_counted by exact Hcounted. simpl period_loop.
    unfold axis_step. rewrite locate_period_header by exact Hh.
    rewrite period_loop_counted by exact Hcounted. simpl period_loop.
    simpl fst. simpl snd. cbv iota. rewrite insert_after_header.
    change (header :: before ++ [label]) with ((header :: before) ++ [label]).
    rewrite strip_trailing_app;
      [|apply strip_trailing_nonempty; repeat constructor; exact Hle
       |discriminate].
    split; [reflexivity|]. split; [reflexivity|]. split.
    { split; [reflexivity|]. rewrite app_nil_r. intros Hin.
      rewrite Forall_forall in Hb. specialize (Hb _ Hin).
      rewrite lt_irrefl in Hb. discriminate. }
    split.
    { apply Forall_app. split; [exact Hpb|]. repeat constructor; assumption. }
    split; [|apply Hslot].
    apply StronglySorted_insert; [now rewrite app_nil_r | exact Hb | constructor].
  - inversion Hr as [|? ? Hrl Hr']; subst.
    inversion Hpr as [|? ? [Hrm Hre] Hpr']; subst.
    apply StronglySorted_inv in Hsr. destruct Hsr as [Hsr Hrr].
    destruct (String.eqb_spec r label) as [->|Hne].
    + (* the label is there *)
      exists before, rest. rewrite Hslot. unfold axis_step. rewrite Hslot.
      simpl fst. simpl snd. cbv iota.
      split; [reflexivity|]. split; [reflexivity|]. split; [reflexivity|].
      split; [apply Forall_app; split; auto|]. split; [exact Hsorted|].
      reflexivity.
    + (* the label goes right before [r] *)
      assert (Hafter : Forall (fun l => plain_label l /\ l <> label
                                        /\ PyStr.lt l label = false) (r :: rest)).
      { constructor; [repeat split; auto|].
        rewrite Forall_forall in *. intros l Hl.
        split; [now apply Hpr'|]. split; [|now apply Hr'].
        intros ->. specialize (Hrr _ Hl). unfold str_lt in Hrr.
        rewrite Hrr in Hrl. discriminate. }
      assert (Hloc : locate_period (header :: before ++ r :: rest) label
                     = (2 + List.length before, false)).
      { rewrite locate_period_header by exact Hh.
        rewrite period_loop_counted by exact Hcounted.
        now rewrite period_loop_passed by exact Hafter. }
      exists before, (r :: rest). rewrite Hloc. unfold axis_step. rewrite Hloc.
      simpl fst. simpl snd. cbv iota. rewrite insert_after_header.
      assert (Hall : Forall plain_label (before ++ label :: r :: rest)).
      { apply Forall_app. split; [exact Hpb|].
        constructor; [split; assumption|]. constructor; [split; assumption|].
        exact Hpr'. }
      change (header :: before ++ label :: r :: rest)
        with ((header :: before) ++ label :: r :: rest).
      rewrite strip_trailing_app; [|apply strip_trailing_nonempty|discriminate].
      2:{ apply Forall_app in Hall. destruct Hall as [_ Hall].
          eapply Forall_impl; [|exact Hall]. intros a [_ Ha]. exact Ha. }
      split; [reflexivity|]. split; [reflexivity|]. split.
      { split; [reflexivity|].
        intros Hin. apply in_app_or in Hin. destruct Hin as [Hin|Hin].
        - rewrite Forall_forall in Hb. specialize (Hb _ Hin).
          rewrite lt_irrefl in Hb. discriminate.
        - rewrite Forall_forall in Hafter.
          destruct (Hafter _ Hin) as [_ [E _]]. now apply E. }
      split; [exact Hall|]. split; [|apply Hslot].
      apply StronglySorted_insert; [exact Hsorted | exact Hb|].
      eapply Forall_impl; [|exact Hafter]. intros a [_ [Ha1 Ha2]].
      apply lt_total; auto.
Qed.

Lemma get_vo_cell_returns (vo_name : string) (s : state) :
  snd (get_vo_cell vo_name s)
  = Ok (fst (locate_vo (row_values (sheet s) 1) vo_name)).
Proof.
  unfold get_vo_cell. unfold_m. simpl.
  destruct (snd (locate_vo _ vo_name)); reflexivity.
Qed.

Lemma locate_period_row_returns (env : env_t) (s : state) :
  snd (locate_period_row env s)
  = Ok (fst (locate_period (col_values (sheet s) 1) (accounting_period env))).
Proof.
  rewrite locate_period_row_spec. reflexivity.
Qed.

Lemma string_app_nonempty (a b : string) : b <> ""%string -> (a ++ b)%string <> ""%string.
Proof. intros Hb. destruct a; simpl; [exact Hb | discriminate]. Qed.

Lemma accounting_period_nonempty (env : env_t) : accounting_period env <> ""%string.
Proof. unfold accounting_period. apply string_app_nonempty. discriminate. Qed.

(** X4. On a header row that is clean (header with the marker, then
    labels without marker, not empty, strictly ascending), [get_vo_cell]
    called with any such name, in any order, returns the position at
    which the name stands afterwards; the labels before it sort before
    it, those after it sort after it, the old labels keep their places
    around it (the name is added only when it was absent), and a second
    call returns the same position and changes nothing. *)
Theorem X4_get_vo_cell_sorted_insertion (s : state) (header vo_name : string)
    (labels : list string)
    (Haxis : row_values (sheet s) 1 = header :: labels)
    (Hheader : carries_marker header = true)
    (Hplain : Forall plain_label labels)
    (Hsorted : StronglySorted str_lt labels)
    (Hname : plain_label vo_name) :
  exists before after s',
    get_vo_cell vo_name s = (s', Ok (2 + List.length before))
    /\ row_values (sheet s') 1 = header :: before ++ vo_name :: after
    /\ StronglySorted str_lt (before ++ vo_name :: after)
    /\ Forall plain_label (before ++ vo_name :: after)
    /\ (labels = before ++ vo_name :: after
        \/ (labels = before ++ after /\ ~ In vo_name labels))
    /\ exists s'', get_vo_cell vo_name s' = (s'', Ok (2 + List.length before))
                   /\ sheet s'' = sheet s'.
Proof.
  destruct (axis_step_clean header vo_name labels Hheader Hplain Hsorted Hname)
    as [before [after [Hpos [Hstep [Hold [Hpl [Hso Hagain]]]]]]].
  exists before, after, (fst (get_vo_cell vo_name s)).
  pose proof (get_vo_cell_returns vo_name s) as Hret.
  pose proof (row_values_get_vo_cell vo_name s) as Hrow.
  rewrite Haxis in Hret, Hrow. rewrite locate_vo_locate_period, Hpos in Hret.
  rewrite Hstep in Hrow.
  split.
  { destruct (get_vo_cell vo_name s) as [s' r]. simpl in *. now rewrite Hret. }
  split; [exact Hrow|]. split; [exact Hso|]. split; [exact Hpl|]. split.
  { destruct (snd (locate_period (header :: labels) vo_name)); auto. }
  rewrite <- locate_vo_locate_period, <- Hrow in Hagain.
  rewrite (get_vo_cell_found _ _ _ Hagain). eexists. split; reflexivity.
Qed.

Lemma X4_get_vo_cell_sorted_insertion_witness :
  let s := initial_state [["Period"; "alice"; "cms"]]%string in
  exists before after s',
    get_vo_cell "biomed" s = (s', Ok (2 + List.length before))
    /\ row_values (sheet s') 1 = ("Period" :: before ++ "biomed" :: after)%string.
Proof.
  intros s.
  destruct (X4_get_vo_cell_sorted_insertion s "Period" "biomed"
              ["alice"; "cms"]%string) as [before [after [s' [H1 [H2 _]]]]].
  - reflexivity.
  - reflexivity.
  - repeat constructor; discriminate.
  - repeat constructor.
  - split; [reflexivity | discriminate].
  - exists before, after, s'. split; assumption.
Defined.

(** X5. On a label column that is clean (header with the marker, then
    labels without marker, not empty, strictly ascending), lines 177-188
    of [main], for a period label without the marker and in any order,
    return the row at which the label stands afterwards, between the
    labels that sort before it and those that sort after it; the old
    labels keep their places around it, and the routine then finds the
    label at that row. *)
Theorem X5_period_row_sorted_insertion (env : env_t) (s : state)
    (header : string) (labels : list string)
    (Haxis : col_values (sheet s) 1 = header :: labels)
    (Hheader : carries_marker header = true)
    (Hplain : Forall plain_label labels)
    (Hsorted : StronglySorted str_lt labels)
    (Hlabel : carries_marker (accounting_period env) = false) :
  exists before after s',
    locate_period_row env s = (s', Ok (2 + List.length before))
    /\ col_values (sheet s') 1
       = header :: before ++ accounting_period env :: after
    /\ StronglySorted str_lt (before ++ accounting_period env :: after)
    /\ (labels = before ++ accounting_period env :: after
        \/ (labels = before ++ after /\ ~ In (accounting_period env) labels))
    /\ get_GWorkSheetCellPosition (accounting_period env) s'
       = (s', Ok (2 + List.length before, true)).
Proof.
  assert (Hpl : plain_label (accounting_period env)).
  { split; [exact Hlabel | apply accounting_period_nonempty]. }
  destruct (axis_step_clean header (accounting_period env) labels
              Hheader Hplain Hsorted Hpl)
    as [before [after [Hpos [Hstep [Hold [_ [Hso Hagain]]]]]]].
  exists before, after, (fst (locate_period_row env s)).
  pose proof (locate_period_row_returns env s) as Hret.
  pose proof (col_values_locate_period_row env s) as Hcol.
  rewrite Haxis in Hret, Hcol. rewrite Hpos in Hret. rewrite Hstep in Hcol.
  split.
  { destruct (locate_period_row env s) as [s' r]. simpl in *. now rewrite Hret. }
  split; [exact Hcol|]. split; [exact Hso|]. split.
  { destruct (snd (locate_period (header :: labels) (accounting_period env)));
      auto. }
  rewrite get_GWorkSheetCellPosition_reads, Hcol, Hagain. reflexivity.
Qed.

Lemma X5_period_row_sorted_insertion_witness :
  let env := mkEnv "grid" "2024/04" "2024/06" "INFO" in
  let s := initial_state [["Period"]; ["2024.01-03"]; ["2024.07-09"]]%string in
  exists before after s',
    locate_period_row env s = (s', Ok (2 + List.length before))
    /\ col_values (sheet s') 1
       = ("Period" :: before ++ accounting_period env :: after)%string.
Proof.
  intros env s.
  destruct (X5_period_row_sorted_insertion env s "Period"
              ["2024.01-03"; "2024.07-09"]%string)
    as [before [after [s' [H1 [H2 _]]]]].
  - reflexivity.
  - reflexivity.
  - repeat constructor; discriminate.
  - repeat constructor.
  - reflexivity.
  - exists before, after, s'. split; assumption.
Defined.

(* ===================================================================== *)
(** ** The order of the period labels *)
(* ===================================================================== *)

Lemma compare_app_same (a x y : string) :
  String.compare (a ++ x) (a ++ y) = String.compare x y.
Proof.
  induction a as [|c a IH]; simpl; [reflexivity|].
  unfold Ascii.compare. rewrite N.compare_refl. exact IH.
Qed.

Lemma compare_app_lt (a b x y : string) :
  String.length a = String.length b ->
  String.compare a b = Lt ->
  String.compare (a ++ x) (b ++ y) = Lt.
Proof.
  revert b. induction a as [|c a IH]; intros [|d b]; simpl; try discriminate.
  intros Hlen. injection Hlen as Hlen.
  destruct (Ascii.compare c d); try discriminate; auto.
Qed.

Lemma lt_app_same (a x y : string) :
  PyStr.lt (a ++ x) (a ++ y) = PyStr.lt x y.
Proof. unfold PyStr.lt, String.ltb. now rewrite compare_app_same. Qed.

Lemma lt_app_lt (a b x y : string) :
  String.length a = String.length b ->
  PyStr.lt a b = true -> PyStr.lt (a ++ x) (b ++ y) = true.
Proof.
  unfold PyStr.lt, String.ltb. intros Hlen H.
  destruct (String.compare a b) eqn:E; try discriminate.
  now rewrite (compare_app_lt _ _ _ _ Hlen E).
Qed.

Lemma string_app_assoc (a b c : string) :
  ((a ++ b) ++ c)%string = (a ++ b ++ c)%string.
Proof. induction a as [|x a IH]; simpl; [reflexivity | now rewrite IH]. Qed.

(** The label of line 153 for dates in year-first, month-last form. *)
Lemma accounting_period_form (env : env_t) (yyyy mid mm rest' mm' : string) :
  String.length yyyy = 4 -> String.length mm = 2 -> String.length mm' = 2 ->
  DATE_FROM env = (yyyy ++ mid ++ mm)%string ->
  DATE_TO env = (rest' ++ mm')%string ->
  accounting_period env = (yyyy ++ "." ++ mm ++ "-" ++ mm')%string.
Proof.
  intros Hy Hm Hm' Hfrom Hto. unfold accounting_period. rewrite Hfrom, Hto.
  rewrite (slice_0_4_app yyyy (mid ++ mm) Hy).
  rewrite (slice_last2_app rest' mm' Hm').
  rewrite <- (string_app_assoc yyyy mid mm).
  now rewrite (slice_last2_app (yyyy ++ mid) mm Hm).
Qed.

(** X6. For dates written year first (four characters) and month last
    (two characters), the period labels sort as the periods do: by the
    year of [DATE_FROM], then by its month, then by the month of
    [DATE_TO]; two configurations agreeing on the three give one label. *)
Theorem X6_period_labels_sort_chronologically (env1 env2 : env_t)
    (y1 mid1 m1 rest1 e1 y2 mid2 m2 rest2 e2 : string)
    (Hy1 : String.length y1 = 4) (Hy2 : String.length y2 = 4)
    (Hm1 : String.length m1 = 2) (Hm2 : String.length m2 = 2)
    (He1 : String.length e1 = 2) (He2 : String.length e2 = 2)
    (Hfrom1 : DATE_FROM env1 = (y1 ++ mid1 ++ m1)%string)
    (Hto1 : DATE_TO env1 = (rest1 ++ e1)%string)
    (Hfrom2 : DATE_FROM env2 = (y2 ++ mid2 ++ m2)%string)
    (Hto2 : DATE_TO env2 = (rest2 ++ e2)%string) :
  (str_lt y1 y2 -> str_lt (accounting_period env1) (accounting_period env2))
  /\ (y1 = y2 -> str_lt m1 m2 ->
      str_lt (accounting_period env1) (accounting_period env2))
  /\ (y1 = y2 -> m1 = m2 -> str_lt e1 e2 ->
      str_lt (accounting_period env1) (accounting_period env2))
  /\ (y1 = y2 -> m1 = m2 -> e1 = e2 ->
      accounting_period env1 = accounting_period env2).
Proof.
  rewrite (accounting_period_form env1 y1 mid1 m1 rest1 e1) by assumption.
  rewrite (accounting_period_form env2 y2 mid2 m2 rest2 e2) by assumption.
  unfold str_lt. repeat split.
  - intros H. apply lt_app_lt; [congruence | exact H].
  - intros -> H. rewrite lt_app_same. rewrite (lt_app_same ".").
    apply lt_app_lt; [congruence | exact H].
  - intros -> -> H. rewrite lt_app_same, (lt_app_same "."), lt_app_same.
    now rewrite (lt_app_same "-").
  - intros -> -> ->. reflexivity.
Qed.

Lemma X6_period_labels_sort_chronologically_witness :
  str_lt (accounting_period (mkEnv "grid" "2023/10" "2023/12" "INFO"))
         (accounting_period (mkEnv "grid" "2024/01" "2024/03" "INFO")).
Proof.
  refine (proj1 (X6_period_labels_sort_chronologically
           (mkEnv "grid" "2023/10" "2023/12" "INFO")
           (mkEnv "grid" "2024/01" "2024/03" "INFO")
           "2023" "/" "10" "2023/" "12" "2024" "/" "01" "2024/" "03"
           _ _ _ _ _ _ _ _ _ _) _); reflexivity.
Defined.

(* ===================================================================== *)
(** ** The trace and the label column under the loops of [main] *)
(* ===================================================================== *)

Section RecordsKept.

Variable ws1 : worksheet.
Variable base : list event.
Variable pos : nat.

Lemma rk_emit (e : event) :
  record_event pos e -> preserves (records_kept ws1 base pos) (emit e).
Proof.
  intros He s [Hc [issued [Ho Hi]]]. split; simpl; [exact Hc|].
  exists (issued ++ [e]). rewrite Ho, app_assoc. split; [reflexivity|].
  apply Forall_app. split; [exact Hi | now constructor].
Qed.

Lemma rk_on_sheet (f : worksheet -> worksheet) :
  (forall ws row, cell (f ws) row 1 = cell ws row 1) ->
  preserves (records_kept ws1 base pos) (on_sheet f).
Proof.
  intros Hf s [Hc Ho]. split; simpl; [|exact Ho].
  intros row. now rewrite Hf.
Qed.

Lemma rk_add_total_cpu (t : Z) :
  preserves (records_kept ws1 base pos) (add_total_cpu t).
Proof. intros s [Hc Ho]. split; assumption. Qed.

Lemma rk_get_vo_cell (vo_name : string) :
  preserves (records_kept ws1 base pos) (get_vo_cell vo_name).
Proof.
  unfold get_vo_cell.
  apply preserves_bind; [intros s H; exact H | intros values_list].
  apply preserves_bind; [|intros _; apply preserves_ret].
  destruct (negb (snd (locate_vo values_list vo_name))).
  - apply preserves_bind; [apply rk_emit; exact Logic.I | intros _].
    apply preserves_bind; [apply rk_emit; apply locate_vo_lower | intros _].
    apply rk_on_sheet. intros ws row. apply cell_insert_cols.
    apply locate_vo_lower.
  - apply rk_emit. exact Logic.I.
Qed.

Lemma rk_update_GWorkSheet (env : env_t) (vo_name_pos : nat) (value : string) :
  2 <= vo_name_pos ->
  preserves (records_kept ws1 base pos)
    (update_GWorkSheet env pos vo_name_pos value).
Proof.
  intros Hc. unfold update_GWorkSheet.
  apply preserves_bind; [apply rk_emit; split; [reflexivity | exact Hc]
                        | intros _].
  apply preserves_bind.
  - apply rk_on_sheet. intros ws row. now apply cell_update_cell.
  - intros _. destruct (ACCOUNTING_SCOPE env =? "cloud")%string;
      apply rk_emit; exact Logic.I.
Qed.

Lemma rk_process_record (env : env_t) (record : record_t) :
  preserves (fun ds : tstate => records_kept ws1 base pos (snd ds))
    (process_record env pos record).
Proof.
  unfold process_record.
  apply preserves_bind; [apply preserves_subscript | intros rid].
  apply preserves_bind.
  { destruct (negb ("Percent" in_str rid) && negb ("Total" in_str rid));
      [|apply preserves_ret].
    apply preserves_bind; [apply preserves_subscript | intros t].
    apply preserves_lift. apply rk_emit. exact Logic.I. }
  intros _. destruct ("Total" in_str rid); [|apply preserves_ret].
  apply preserves_bind; [apply preserves_subscript | intros t].
  apply preserves_bind.
  { apply preserves_lift.
    destruct ("cloud" in_str ACCOUNTING_SCOPE env); apply rk_emit;
      exact Logic.I. }
  intros _. apply preserves_bind; [intros ds H; exact H | intros details].
  apply preserves_bind; [apply preserves_subscript | intros cpu].
  apply preserves_bind; [intros ds H; exact H | intros _].
  apply preserves_bind; [apply preserves_lift, rk_add_total_cpu | intros _].
  apply preserves_bind; [intros ds H; exact H | intros details'].
  apply preserves_bind; [apply preserves_subscript | intros vo_name].
  apply preserves_bind_post with (post := fun vo_name_pos => 2 <= vo_name_pos).
  - apply preserves_lift, rk_get_vo_cell.
  - intros [d s] vo_name_pos _ H. unfold lift in H. simpl in H.
    apply (get_vo_cell_lower vo_name s).
    destruct (get_vo_cell vo_name s) as [s' r]. exact H.
  - intros vo_name_pos Hpos. apply preserves_lift.
    now apply rk_update_GWorkSheet.
Qed.

Lemma rk_try_body (env : env_t) (data : list record_t) :
  preserves (fun ds : tstate => records_kept ws1 base pos (snd ds))
    (try_body env pos data).
Proof.
  unfold try_body. destruct data as [|record data]; [apply preserves_ret|].
  apply preserves_bind; [intros ds H; exact H | intros d].
  apply preserves_bind; [apply preserves_subscript | intros n].
  apply preserves_bind; [apply preserves_lift, rk_emit; exact Logic.I | intros _].
  apply preserves_bind.
  { destruct ("DEBUG" in_str LOG env);
      [apply preserves_lift, rk_emit; exact Logic.I | apply preserves_ret]. }
  intros _. apply preserves_for_each. intros r. apply rk_process_record.
Qed.

End RecordsKept.

Lemma fetched_app (a b : list event) : fetched (a ++ b) = fetched a ++ fetched b.
Proof. unfold fetched. apply flat_map_app. Qed.

Lemma fetched_record_events (pos : nat) (issued : list event) :
  Forall (record_event pos) issued -> fetched issued = [].
Proof.
  intros H. induction H as [|e issued He _ IH]; [reflexivity|].
  unfold fetched in *. simpl. rewrite IH. destruct e; simpl in *; tauto.
Qed.

Lemma record_event_loop_event (pos : nat) (issued : list event) :
  Forall (record_event pos) issued -> Forall (loop_event pos) issued.
Proof.
  intros H. eapply Forall_impl; [|exact H]. intros e He.
  destruct e; simpl in *; tauto.
Qed.

Lemma eligible_now_state {S : Type} (env : env_t) (details : details_t) (s : S) :
  eligible env details s = (s, snd (eligible env details tt)).
Proof. apply eligible_state. Qed.

(** An entity that lacks a key read outside the [try] raises, and leaves
    the state as it was. *)
Lemma process_details_fatal
    (get_accounting_data : env_t -> string -> list record_t)
    (env : env_t) (pos : nat) (details : details_t) (s : state) (e : exn) :
  entity_fatal env details = Some e ->
  process_details get_accounting_data env pos details s = (s, Raise e).
Proof.
  unfold entity_fatal. intros H. unfold process_details, bind.
  rewrite (eligible_state env details s).
  destruct (eligible env details tt) as [u [[|]|e']]; simpl.
  - destruct (Name details); [discriminate|]. now inversion H.
  - discriminate.
  - now inversion H.
Qed.

(** Any other entity completes; its step issues at most one request, then
    events of its records, and keeps the label column. *)
Lemma process_details_shape
    (get_accounting_data : env_t -> string -> list record_t)
    (env : env_t) (pos : nat) (details : details_t) (s : state) :
  entity_fatal env details = None ->
  exists s' details' issued,
    process_details get_accounting_data env pos details s = (s', Ok details')
    /\ out s' = out s ++ map Fetch (eligible_names env [details]) ++ issued
    /\ Forall (record_event pos) issued
    /\ (forall row, cell (sheet s') row 1 = cell (sheet s) row 1).
Proof.
  unfold entity_fatal, eligible_names, eligible_now. simpl flat_map.
  intros H. unfold process_details, bind at 1.
  rewrite (eligible_state env details s).
  destruct (eligible env details tt) as [u [[|]|e']]; simpl;
    [|clear H|discriminate].
  - destruct (Name details) as [vo_name|]; [clear H|discriminate].
    unfold subscript, bind at 1, ret at 1. rewrite bind_emit.
    set (s1 := mkState (sheet s) (total_cpu s) (out s ++ [Fetch vo_name])).
    set (m := try_except_KeyError
                (try_body env pos (get_accounting_data env vo_name))).
    assert (Hk : records_kept (sheet s) (out s ++ [Fetch vo_name]) pos
                   (fst (with_details details m s1))).
    { apply preserves_with_details.
      - apply preserves_try. apply rk_try_body.
      - split; [reflexivity|]. exists []. simpl. rewrite app_nil_r.
        split; [reflexivity | constructor]. }
    assert (Hok : exists d', snd (with_details details m s1) = Ok d').
    { unfold with_details, m. rewrite try_except_KeyError_ok.
      destruct (fst (try_body env pos (get_accounting_data env vo_name)
                              (details, s1))) as [d' s'].
      now exists d'. }
    destruct Hok as [d' Hok]. destruct Hk as [Hc [issued [Ho Hi]]].
    destruct (with_details details m s1) as [s' r]. simpl in *. subst r.
    exists s', d', issued. split; [reflexivity|].
    split; [rewrite Ho, <- app_assoc; reflexivity|]. split; assumption.
  - exists s, details, []. unfold ret. repeat split; auto.
    now rewrite !app_nil_r.
Qed.

Lemma for_each_upd_app {S A : Type} (body : A -> M S A) (l1 l2 : list A) (s : S) :
  for_each_upd (l1 ++ l2) body s
  = match for_each_upd l1 body s with
    | (s1, Ok l1') =>
        match for_each_upd l2 body s1 with
        | (s2, Ok l2') => (s2, Ok (l1' ++ l2'))
        | (s2, Raise e) => (s2, Raise e)
        end
    | (s1, Raise e) => (s1, Raise e)
    end.
Proof.
  revert s. induction l1 as [|x l1 IH]; intros s; simpl.
  - unfold ret. destruct (for_each_upd l2 body s) as [s2 [l2'|e]]; reflexivity.
  - unfold bind, ret.
    destruct (body x s) as [s1 [x'|e]]; [|reflexivity].
    rewrite IH.
    destruct (for_each_upd l1 body s1) as [s2 [l1'|e]]; [|reflexivity].
    destruct (for_each_upd l2 body s2) as [s3 [l2'|e]]; reflexivity.
Qed.

(** A loop whose step runs an inner loop acts as one loop over all the
    inner elements. *)
Lemma for_each_upd_nest {A B : Type} (view : B -> list A) (step : B -> M state B)
    (body : A -> M state A) :
  (forall b s, agree view (step b s) (for_each_upd (view b) body s)) ->
  forall bs s,
    agree (flat_map view) (for_each_upd bs step s)
          (for_each_upd (flat_map view bs) body s).
Proof.
  intros Hstep. induction bs as [|b bs IH]; intros s; simpl.
  - split; reflexivity.
  - rewrite for_each_upd_app. unfold bind at 1.
    destruct (Hstep b s) as [Hs Hr].
    destruct (step b s) as [s1 [b'|e]];
      destruct (for_each_upd (view b) body s) as [s1' [l1|e']];
      simpl in Hs, Hr; subst; try contradiction.
    + unfold bind at 1. destruct (IH s1') as [Hs2 Hr2].
      destruct (for_each_upd bs step s1') as [s2 [bs'|e]];
        destruct (for_each_upd (flat_map view bs) body s1') as [s2' [l2|e']];
        simpl in Hs2, Hr2; subst; try contradiction; split; reflexivity.
    + split; reflexivity.
Qed.

(** The three nested loops of [main] act as one loop over the entities of
    the registry, in order. *)
Lemma process_VOs_flat
    (get_accounting_data : env_t -> string -> list record_t)
    (env : env_t) (pos : nat) (VOs : list VO_items_t) (s : state) :
  agree all_details
        (process_VOs get_accounting_data env pos VOs s)
        (for_each_upd (all_details VOs)
                      (process_details get_accounting_data env pos) s).
Proof.
  unfold process_VOs, all_details.
  apply (for_each_upd_nest (fun VO_items => flat_map vo (vos VO_items))).
  intros VO_items s0. unfold bind.
  pose proof (for_each_upd_nest vo
                (fun vo_details =>
                   vo' <- for_each_upd (vo vo_details)
                            (process_details get_accounting_data env pos) ;;
                   ret (mkVoDetails vo'))
                (process_details get_accounting_data env pos)) as Hin.
  assert (Hstep : forall b s1,
             agree vo
               ((vo' <- for_each_upd (vo b)
                          (process_details get_accounting_data env pos) ;;
                 ret (mkVoDetails vo')) s1)
               (for_each_upd (vo b)
                  (process_details get_accounting_data env pos) s1)).
  { intros b s1. unfold bind.
    destruct (for_each_upd (vo b) _ s1) as [s2 [l|e]]; split; reflexivity. }
  specialize (Hin Hstep (vos VO_items) s0). destruct Hin as [Hs Hr].
  destruct (for_each_upd (vos VO_items) _ s0) as [s1 [l1|e]];
    destruct (for_each_upd (flat_map vo (vos VO_items)) _ s0) as [s1' [l1'|e']];
    simpl in Hs, Hr; subst; try contradiction; split; simpl; reflexivity.
Qed.

(** [main] from the state in which its loops start. *)
Lemma main_from_loops_entry
    (get_accounting_data : env_t -> string -> list record_t)
    (env : env_t) (ws : worksheet) (VOs : list VO_items_t) :
  main get_accounting_data env ws VOs
  = match process_VOs get_accounting_data env (period_row env ws) VOs
            (loops_entry env ws) with
    | (s3, Ok VOs') => (fst (report env s3), Ok VOs')
    | (s3, Raise e) => (s3, Raise e)
    end.
Proof.
  rewrite main_prologue. unfold loops_entry, period_row.
  pose proof (locate_period_row_returns env (prologue_state env ws)) as Hret.
  simpl sheet in Hret.
  destruct (locate_period_row env (prologue_state env ws)) as [s1 r] eqn:Hl.
  simpl in Hret. subst r. rewrite (bind_ok _ _ _ _ _ Hl). rewrite !bind_print.
  simpl fst. unfold bind at 1. simpl sheet. simpl total_cpu. simpl out.
  rewrite <- app_assoc. simpl app.
  destruct (process_VOs _ env _ VOs _) as [s3 [VOs'|e]]; [|reflexivity].
  unfold bind, ret. destruct (report_spec env s3) as [printed Hr].
  rewrite Hr. reflexivity.
Qed.

Lemma report_out (env : env_t) (s : state) :
  exists lines,
    fst (report env s) = mkState (sheet s) (total_cpu s) (out s ++ lines)
    /\ fetched lines = []
    /\ (forall e, In e lines -> exists msg, e = Console msg).
Proof.
  unfold report. rewrite bind_print.
  destruct ("cloud" in_str ACCOUNTING_SCOPE env); rewrite !bind_print;
    unfold print, emit; simpl; rewrite <- !app_assoc; simpl;
    eexists; (split; [reflexivity|]); (split; [reflexivity|]);
    intros e [<-|[<-|[<-|[<-|[]]]]]; eexists; reflexivity.
Qed.

(** The state in which the loops start: the trace holds no request, the
    row of the period is at least 2, and the header row is the one of the
    worksheet [main] was given. *)
Lemma loops_entry_spec (env : env_t) (ws : worksheet) :
  fetched (out (loops_entry env ws)) = []
  /\ total_cpu (loops_entry env ws) = 0%Z
  /\ 2 <= period_row env ws
  /\ sheet (loops_entry env ws)
     = (if snd (locate_period (col_values ws 1) (accounting_period env))
        then ws
        else insert_row [accounting_period env; "0"%string]
                        (period_row env ws) ws).
Proof.
  unfold loops_entry, period_row. rewrite locate_period_row_spec. cbv zeta.
  simpl sheet.
  split; [|split; [|split; [apply locate_period_lower|]]].
  - destruct (snd (locate_period _ _)); reflexivity.
  - destruct (snd (locate_period _ _)); reflexivity.
  - destruct (snd (locate_period _ _)); reflexivity.
Qed.

(** The loop over the entities when none lacks a key: it completes, with
    one request for each eligible entity, in order, each entity changed
    in its counter at most, and the label column kept. *)
Lemma entities_loop_completes
    (get_accounting_data : env_t -> string -> list record_t)
    (env : env_t) (pos : nat) (entities : list details_t) :
  Forall (fun details => entity_fatal env details = None) entities ->
  forall s, exists s' entities' trace,
    for_each_upd entities (process_details get_accounting_data env pos) s
    = (s', Ok entities')
    /\ out s' = out s ++ trace
    /\ fetched trace = eligible_names env entities
    /\ Forall (loop_event pos) trace
    /\ (forall row, cell (sheet s') row 1 = cell (sheet s) row 1)
    /\ List.length entities' = List.length entities.
Proof.
  intros H. induction H as [|details entities Hd _ IH]; intros s; simpl.
  - exists s, [], []. unfold ret. rewrite app_nil_r. repeat split; constructor.
  - destruct (process_details_shape get_accounting_data env pos details s Hd)
      as [s1 [details' [issued [Hp [Ho [Hi Hc]]]]]].
    destruct (IH s1) as [s2 [entities' [trace [Hl [Ho2 [Hf [Ht [Hc2 Hlen]]]]]]]].
    exists s2, (details' :: entities'),
      (map Fetch (eligible_names env [details]) ++ issued ++ trace).
    unfold bind, ret. rewrite Hp, Hl. split; [reflexivity|].
    split; [rewrite Ho2, Ho, <- !app_assoc; reflexivity|]. split.
    { rewrite !fetched_app, Hf, (fetched_record_events pos issued Hi).
      unfold eligible_names at 1 2. simpl flat_map. rewrite app_nil_r.
      destruct (eligible_now env details); [|reflexivity].
      destruct (Name details); reflexivity. }
    split.
    { apply Forall_app. split.
      - unfold eligible_names. simpl flat_map. rewrite app_nil_r.
        destruct (eligible_now env details); [|constructor].
        destruct (Name details); repeat constructor.
      - apply Forall_app. split; [now apply record_event_loop_event | exact Ht]. }
    split; [intros row; now rewrite Hc2, Hc|]. simpl. now rewrite Hlen.
Qed.

(** The loop over the entities stops at the first one that lacks a key,
    in the state the entities before it left. *)
Lemma entities_loop_aborts
    (get_accounting_data : env_t -> string -> list record_t)
    (env : env_t) (pos : nat) (before after : list details_t)
    (details : details_t) (e : exn) (s : state) :
  Forall (fun d => entity_fatal env d = None) before ->
  entity_fatal env details = Some e ->
  exists s' trace,
    for_each_upd (before ++ details :: after)
                 (process_details get_accounting_data env pos) s
    = (s', Raise e)
    /\ out s' = out s ++ trace
    /\ fetched trace = eligible_names env before
    /\ Forall (loop_event pos) trace.
Proof.
  intros Hb Hd.
  destruct (entities_loop_completes get_accounting_data env pos before Hb s)
    as [s1 [before' [trace [Hl [Ho [Hf [Ht _]]]]]]].
  exists s1, trace. rewrite for_each_upd_app, Hl. simpl.
  unfold bind at 1.
  rewrite (process_details_fatal get_accounting_data env pos details s1 e Hd).
  repeat split; assumption.
Qed.

Lemma process_VOs_aborts
    (get_accounting_data : env_t -> string -> list record_t)
    (env : env_t) (pos : nat) (VOs : list VO_items_t) (s s' : state) (e : exn) :
  for_each_upd (all_details VOs) (process_details get_accounting_data env pos) s
  = (s', Raise e) ->
  process_VOs get_accounting_data env pos VOs s = (s', Raise e).
Proof.
  intros H. destruct (process_VOs_flat get_accounting_data env pos VOs s)
    as [Hs Hr].
  rewrite H in Hs, Hr. simpl in Hs, Hr.
  destruct (process_VOs get_accounting_data env pos VOs s) as [s1 [v|e1]];
    simpl in *; [contradiction | now subst].
Qed.

Lemma process_VOs_completes
    (get_accounting_data : env_t -> string -> list record_t)
    (env : env_t) (pos : nat) (VOs : list VO_items_t) (s s' : state)
    (entities' : list details_t) :
  for_each_upd (all_details VOs) (process_details get_accounting_data env pos) s
  = (s', Ok entities') ->
  exists VOs', process_VOs get_accounting_data env pos VOs s = (s', Ok VOs')
               /\ all_details VOs' = entities'.
Proof.
  intros H. destruct (process_VOs_flat get_accounting_data env pos VOs s)
    as [Hs Hr].
  rewrite H in Hs, Hr. simpl in Hs, Hr.
  destruct (process_VOs get_accounting_data env pos VOs s) as [s1 [v|e1]];
    simpl in *; [|contradiction]. subst. now exists v.
Qed.

(** X7. A [KeyError] raised outside the [try] is fatal: when the first
    entity of the registry that lacks a key it reads (a key of the
    condition of line 201 up to its first false test, or the name of an
    eligible entity) raises [e], [main] ends with [e] in the state the
    entities before it left: the requests issued are those of the
    eligible entities before it, nothing is issued after the events of
    the loops, so no report is printed. *)
Theorem X7_missing_key_aborts_run
    (get_accounting_data : env_t -> string -> list record_t)
    (env : env_t) (ws : worksheet) (VOs : list VO_items_t)
    (before after : list details_t) (details : details_t) (e : exn)
    (Hsplit : all_details VOs = before ++ details :: after)
    (Hbefore : Forall (fun d => entity_fatal env d = None) before)
    (Hfatal : entity_fatal env details = Some e) :
  (Type_ details = None -> e = KeyError "Type")
  /\ exists s trace,
       main get_accounting_data env ws VOs = (s, Raise e)
       /\ out s = out (loops_entry env ws) ++ trace
       /\ fetched trace = eligible_names env before
       /\ Forall (loop_event (period_row env ws)) trace.
Proof.
  split.
  { intros Hty. revert Hfatal. unfold entity_fatal, eligible, bind, subscript.
    rewrite Hty. unfold raise. intros H. now inversion H. }
  destruct (entities_loop_aborts get_accounting_data env (period_row env ws)
              before after details e (loops_entry env ws) Hbefore Hfatal)
    as [s [trace [Hl [Ho [Hf Ht]]]]].
  exists s, trace. rewrite main_from_loops_entry. rewrite <- Hsplit in Hl.
  rewrite (process_VOs_aborts _ _ _ _ _ _ _ Hl). repeat split; assumption.
Qed.

Lemma X7_missing_key_aborts_run_witness :
  let env := mkEnv "grid" "2024/01" "2024/03" "INFO" in
  let alpha := mkDetails (Some "ALPHA") (Some "grid") (Some "2023/01")
                         (Some "2025/12") (Some "Y") (Some 0%Z) in
  let broken := mkDetails (Some "BETA") None None None None None in
  let fetch := fun (_ : env_t) (_ : string) =>
                 [mkRecord (Some "Total"%string) (Some 300%Z)] in
  exists s trace,
    main fetch env [["Period"%string]]
         [mkVOItems [mkVoDetails [alpha]; mkVoDetails [broken; alpha]]]
    = (s, Raise (KeyError "Type"))
    /\ out s = out (loops_entry env [["Period"%string]]) ++ trace
    /\ fetched trace = ["ALPHA"%string].
Proof.
  intros env alpha broken fetch.
  destruct (X7_missing_key_aborts_run fetch env [["Period"%string]]
              [mkVOItems [mkVoDetails [alpha]; mkVoDetails [broken; alpha]]]
              [alpha] [alpha] broken (KeyError "Type"))
    as [_ [s [trace [H1 [H2 [H3 _]]]]]].
  - reflexivity.
  - repeat constructor.
  - reflexivity.
  - exists s, trace. repeat split; assumption.
Defined.

(** X8. When no entity of the registry lacks a key read outside the
    [try], [main] completes, and the requests it issued to the accounting
    portal are exactly those of the eligible entities, one each, in the
    order of the registry; the registry it returns has as many entities. *)
Theorem X8_one_request_per_eligible_entity
    (get_accounting_data : env_t -> string -> list record_t)
    (env : env_t) (ws : worksheet) (VOs : list VO_items_t)
    (Hkeys : Forall (fun d => entity_fatal env d = None) (all_details VOs)) :
  exists s VOs',
    main get_accounting_data env ws VOs = (s, Ok VOs')
    /\ fetched (out s) = eligible_names env (all_details VOs)
    /\ List.length (all_details VOs') = List.length (all_details VOs).
Proof.
  destruct (entities_loop_completes get_accounting_data env (period_row env ws)
              (all_details VOs) Hkeys (loops_entry env ws))
    as [s3 [entities' [trace [Hl [Ho [Hf [Ht [Hc Hlen]]]]]]]].
  destruct (process_VOs_completes _ _ _ _ _ _ _ Hl) as [VOs' [Hp Hall]].
  destruct (report_out env s3) as [lines [Hr [Hfl _]]].
  exists (fst (report env s3)), VOs'. rewrite main_from_loops_entry, Hp.
  split; [reflexivity|]. split; [|now rewrite Hall].
  rewrite Hr. simpl out. rewrite Ho, !fetched_app, Hfl, Hf.
  destruct (loops_entry_spec env ws) as [He _]. rewrite He.
  now rewrite app_nil_r.
Qed.

Lemma X8_one_request_per_eligible_entity_witness :
  let env := mkEnv "grid" "2024/01" "2024/03" "INFO" in
  let alpha := mkDetails (Some "ALPHA") (Some "grid") (Some "2023/01")
                         (Some "2025/12") (Some "Y") (Some 0%Z) in
  let old := mkDetails (Some "OLD") (Some "grid") (Some "2020/01")
                       (Some "2021/12") (Some "Y") (Some 0%Z) in
  let beta := mkDetails (Some "BETA") (Some "grid") (Some "2023/01")
                        (Some "2025/12") (Some "Y") (Some 0%Z) in
  let fetch := fun (_ : env_t) (_ : string) =>
                 [mkRecord (Some "Total"%string) (Some 300%Z)] in
  exists s VOs',
    main fetch env [["Period"%string]]
         [mkVOItems [mkVoDetails [beta; old]; mkVoDetails [alpha]]]
    = (s, Ok VOs')
    /\ fetched (out s) = ["BETA"; "ALPHA"]%string.
Proof.
  intros env alpha old beta fetch.
  destruct (X8_one_request_per_eligible_entity fetch env [["Period"%string]]
              [mkVOItems [mkVoDetails [beta; old]; mkVoDetails [alpha]]])
    as [s [VOs' [H1 [H2 _]]]].
  - repeat constructor.
  - exists s, VOs'. split; assumption.
Defined.

Lemma lk_process_details
    (get_accounting_data : env_t -> string -> list record_t)
    (ws1 : worksheet) (base : list event) (env : env_t) (pos : nat)
    (details : details_t) :
  preserves (loops_kept ws1 base pos)
    (process_details get_accounting_data env pos details).
Proof.
  intros s [Hc [issued [Ho Hi]]].
  destruct (entity_fatal env details) as [e|] eqn:Hf.
  - rewrite (process_details_fatal _ _ _ _ _ _ Hf). simpl.
    split; [exact Hc | now exists issued].
  - destruct (process_details_shape get_accounting_data env pos details s Hf)
      as [s' [details' [issued' [Hp [Ho' [Hi' Hc']]]]]].
    rewrite Hp. simpl. split; [intros row; now rewrite Hc', Hc|].
    exists (issued ++ map Fetch (eligible_names env [details]) ++ issued').
    rewrite Ho', Ho, <- !app_assoc. split; [reflexivity|].
    apply Forall_app. split; [exact Hi|]. apply Forall_app. split.
    + apply Forall_forall. intros e He. apply in_map_iff in He.
      destruct He as [n [<- _]]. exact Logic.I.
    + now apply record_event_loop_event.
Qed.

Lemma lk_process_VOs
    (get_accounting_data : env_t -> string -> list record_t)
    (ws1 : worksheet) (base : list event) (env : env_t) (pos : nat)
    (VOs : list VO_items_t) :
  preserves (loops_kept ws1 base pos)
    (process_VOs get_accounting_data env pos VOs).
Proof.
  unfold process_VOs. apply preserves_for_each_upd. intros VO_items.
  apply preserves_bind; [|intros; apply preserves_ret].
  apply preserves_for_each_upd. intros vo_details.
  apply preserves_bind; [|intros; apply preserves_ret].
  apply preserves_for_each_upd. intros details. apply lk_process_details.
Qed.

Lemma cell_insert_row_header (values : list string) (index col : nat)
    (ws : worksheet) :
  2 <= index -> cell (insert_row values index ws) 1 col = cell ws 1 col.
Proof.
  intros Hi. unfold cell, insert_row. simpl (1 - 1).
  destruct (index - 1) as [|i] eqn:E; [lia|]. destruct ws; reflexivity.
Qed.

(** What precedes the loops in the trace: console lines, the two
    formatting calls, and the row insertion when the period was not
    found. *)
Lemma loops_entry_out (env : env_t) (ws : worksheet) (e : event) :
  In e (out (loops_entry env ws)) ->
  (exists msg, e = Console msg) \/ (exists range, e = FormatCells range)
  \/ (e = InsertRow [accounting_period env; "0"%string] (period_row env ws)
      /\ snd (locate_period (col_values ws 1) (accounting_period env)) = false).
Proof.
  unfold loops_entry, period_row. rewrite locate_period_row_spec. cbv zeta.
  simpl sheet.
  destruct (snd (locate_period (col_values ws 1) (accounting_period env)));
    simpl; intros H;
    repeat (destruct H as [<-|H]; [eauto|]); contradiction.
Qed.

(** X9. In every run of [main], whatever its outcome, the row of the
    period is at least 2; every cell write is on that row and at a column
    from 2 on, every column insertion is at a column from 2 on, and the
    only row insertion there can be is the one of the period label at
    that row, when the scan did not find it.  From the start of the loops
    on the label column does not change, and the header cell of the
    label column is at the end the one [main] was given. *)
Theorem X9_writes_stay_in_data_region
    (get_accounting_data : env_t -> string -> list record_t)
    (env : env_t) (ws : worksheet) (VOs : list VO_items_t) :
  let final := fst (main get_accounting_data env ws VOs) in
  let pos := period_row env ws in
  2 <= pos
  /\ (forall row col value,
        In (UpdateCell row col value) (out final) -> row = pos /\ 2 <= col)
  /\ (forall vo_name col, In (InsertCols vo_name col) (out final) -> 2 <= col)
  /\ (forall values index,
        In (InsertRow values index) (out final) ->
        values = [accounting_period env; "0"%string] /\ index = pos
        /\ snd (locate_period (col_values ws 1) (accounting_period env)) = false)
  /\ (forall row,
        cell (sheet final) row 1 = cell (sheet (loops_entry env ws)) row 1)
  /\ cell (sheet final) 1 1 = cell ws 1 1.
Proof.
  intros final pos.
  destruct (loops_entry_spec env ws) as [_ [_ [Hpos Hsheet]]].
  assert (Hk : exists s3 lines,
             loops_kept (sheet (loops_entry env ws)) (out (loops_entry env ws))
                        pos s3
             /\ sheet final = sheet s3 /\ out final = out s3 ++ lines
             /\ forall e, In e lines -> exists msg, e = Console msg).
  { unfold final. rewrite main_from_loops_entry.
    pose proof (lk_process_VOs get_accounting_data
                  (sheet (loops_entry env ws)) (out (loops_entry env ws))
                  env pos VOs (loops_entry env ws)) as H.
    assert (H0 : loops_kept (sheet (loops_entry env ws))
                   (out (loops_entry env ws)) pos (loops_entry env ws)).
    { split; [reflexivity|]. exists []. rewrite app_nil_r.
      split; [reflexivity | constructor]. }
    specialize (H H0). fold pos in H |- *.
    destruct (process_VOs get_accounting_data env pos VOs (loops_entry env ws))
      as [s3 [VOs'|e]]; simpl in H.
    - destruct (report_out env s3) as [lines [Hr [_ Hl]]].
      exists s3, lines. simpl fst. rewrite Hr. auto.
    - exists s3, []. simpl fst. rewrite app_nil_r.
      split; [exact H|]. split; [reflexivity|]. split; [reflexivity|].
      intros e0 []. }
  destruct Hk as [s3 [lines [[Hc [issued [Ho Hi]]] [Hs [Hout Hl]]]]].
  rewrite Forall_forall in Hi.
  assert (Hcases : forall e, In e (out final) ->
             In e (out (loops_entry env ws)) \/ loop_event pos e
             \/ exists msg, e = Console msg).
  { intros e He. rewrite Hout, Ho in He. apply in_app_or in He.
    destruct He as [He|He]; [|auto]. apply in_app_or in He.
    destruct He as [He|He]; auto. }
  split; [exact Hpos|]. split; [|split; [|split; [|split]]].
  - intros row col value He.
    destruct (Hcases _ He) as [H|[H|[msg H]]]; [|exact H|discriminate].
    destruct (loops_entry_out env ws _ H) as [[m E]|[[r E]|[E _]]];
      discriminate.
  - intros vo_name col He.
    destruct (Hcases _ He) as [H|[H|[msg H]]]; [|exact H|discriminate].
    destruct (loops_entry_out env ws _ H) as [[m E]|[[r E]|[E _]]];
      discriminate.
  - intros values index He.
    destruct (Hcases _ He) as [H|[H|[msg H]]]; [|contradiction|discriminate].
    destruct (loops_entry_out env ws _ H) as [[m E]|[[r E]|[E Hnf]]];
      try discriminate.
    inversion E; subst. auto.
  - intros row. rewrite Hs. apply Hc.
  - rewrite Hs, Hc, Hsheet.
    destruct (snd (locate_period (col_values ws 1) (accounting_period env)));
      [reflexivity|].
    now apply cell_insert_row_header.
Qed.

(* ===================================================================== *)
(** ** The registry after a run *)
(* ===================================================================== *)

Lemma only_counter_changed_refl (details : details_t) :
  only_counter_changed details details.
Proof. repeat split. Qed.

Lemma preserves_lift_details {A : Type} (J : details_t -> Prop) (m : M state A) :
  preserves (fun ds : tstate => J (fst ds)) (lift m).
Proof.
  intros [d s] H. unfold lift. simpl in *. destruct (m s) as [s' r]. exact H.
Qed.

Lemma identity_set_CPU_h (d0 : details_t) (v : Z) :
  preserves (fun ds : tstate => only_counter_changed d0 (fst ds)) (set_CPU_h v).
Proof. intros [d s] H. exact H. Qed.

Lemma identity_process_record (d0 : details_t) (env : env_t) (pos : nat)
    (record : record_t) :
  preserves (fun ds : tstate => only_counter_changed d0 (fst ds))
    (process_record env pos record).
Proof.
  unfold process_record.
  apply preserves_bind; [apply preserves_subscript | intros rid].
  apply preserves_bind.
  { destruct (negb ("Percent" in_str rid) && negb ("Total" in_str rid));
      [|apply preserves_ret].
    apply preserves_bind; [apply preserves_subscript | intros t].
    apply (preserves_lift_details (only_counter_changed d0)). }
  intros _. destruct ("Total" in_str rid); [|apply preserves_ret].
  apply preserves_bind; [apply preserves_subscript | intros t].
  apply preserves_bind;
    [apply (preserves_lift_details (only_counter_changed d0)) | intros _].
  apply preserves_bind; [intros ds H; exact H | intros details].
  apply preserves_bind; [apply preserves_subscript | intros cpu].
  apply preserves_bind; [apply identity_set_CPU_h | intros _].
  apply preserves_bind;
    [apply (preserves_lift_details (only_counter_changed d0)) | intros _].
  apply preserves_bind; [intros ds H; exact H | intros details'].
  apply preserves_bind; [apply preserves_subscript | intros vo_name].
  apply preserves_bind;
    [apply (preserves_lift_details (only_counter_changed d0))
    |intros vo_name_pos].
  apply (preserves_lift_details (only_counter_changed d0)).
Qed.

Lemma identity_try_body (d0 : details_t) (env : env_t) (pos : nat)
    (data : list record_t) :
  preserves (fun ds : tstate => only_counter_changed d0 (fst ds))
    (try_body env pos data).
Proof.
  unfold try_body. destruct data as [|record data]; [apply preserves_ret|].
  apply preserves_bind; [intros ds H; exact H | intros d].
  apply preserves_bind; [apply preserves_subscript | intros n].
  apply preserves_bind;
    [apply (preserves_lift_details (only_counter_changed d0)) | intros _].
  apply preserves_bind.
  { destruct ("DEBUG" in_str LOG env);
      [apply (preserves_lift_details (only_counter_changed d0))
      |apply preserves_ret]. }
  intros _. apply preserves_for_each. intros r. apply identity_process_record.
Qed.

(** An entity step that completes returns the entity changed in its
    counter at most, the counter grown by the entity's own total. *)
Lemma process_details_after
    (get_accounting_data : env_t -> string -> list record_t)
    (env : env_t) (pos : nat) (details details' : details_t) (s s' : state) :
  process_details get_accounting_data env pos details s = (s', Ok details') ->
  entity_after get_accounting_data env details details'.
Proof.
  intros H. unfold entity_after, details_total, eligible_now.
  pose proof (eligible_state env details s) as Hel.
  destruct (eligible env details tt) as [u [[|]|e]]; simpl in Hel.
  - destruct (Name details) as [vo_name|] eqn:Hn.
    + assert (Hid : only_counter_changed details details').
      { revert H. unfold process_details, bind at 1. rewrite Hel.
        unfold subscript, bind at 1. rewrite Hn. unfold ret at 1.
        rewrite bind_emit. unfold with_details.
        pose proof (preserves_try _ _
                      (identity_try_body details env pos
                         (get_accounting_data env vo_name))
                      (details, mkState (sheet s) (total_cpu s)
                                        (out s ++ [Fetch vo_name]))
                      (only_counter_changed_refl details)) as Hp.
        destruct (try_except_KeyError _ _) as [[d1 s1] [[]|e]]; simpl in Hp;
          intros H; inversion H; subst; exact Hp. }
      split; [exact Hid|].
      rewrite (process_details_eligible _ _ _ _ vo_name _ Hel Hn) in H.
      destruct (get_accounting_data env vo_name) as [|record data].
      * inversion H; subst. unfold entity_total. simpl.
        destruct (CPU_h details'); f_equal; lia.
      * cbv beta iota zeta in H.
        pose proof (for_each_records_total env pos (record :: data) details
                      (loop_entry env vo_name s) vo_name Hn) as [_ Hc].
        injection H as _ Hd. subst details'. exact Hc.
    + unfold process_details, bind in H. rewrite Hel in H.
      unfold subscript, raise in H. rewrite Hn in H. discriminate.
  - unfold process_details, bind in H. rewrite Hel in H.
    unfold ret in H. inversion H; subst.
    split; [apply only_counter_changed_refl|].
    destruct (CPU_h details'); f_equal; lia.
  - unfold process_details, bind in H. rewrite Hel in H. discriminate.
Qed.

Lemma for_each_upd_Forall2 {S A : Type} (body : A -> M S A) (R : A -> A -> Prop) :
  (forall x x' s s', body x s = (s', Ok x') -> R x x') ->
  forall l l' s s', for_each_upd l body s = (s', Ok l') -> Forall2 R l l'.
Proof.
  intros Hbody. induction l as [|x l IH]; intros l' s s' H; simpl in H.
  - unfold ret in H. inversion H. constructor.
  - unfold bind in H.
    destruct (body x s) as [s1 [x'|e]] eqn:Hx; [|discriminate].
    destruct (for_each_upd l body s1) as [s2 [l2|e]] eqn:Hl; [|discriminate].
    unfold ret in H. inversion H; subst. constructor.
    + eapply Hbody. exact Hx.
    + eapply IH. exact Hl.
Qed.

(** X10. A run of [main] that completes returns the entities of the
    registry in their order, each with its name, type, validity window
    and active flag unchanged, and with its counter grown by exactly the
    total of its own reached "Total" records (0 for an entity that is not
    eligible); an absent counter stays absent. *)
Theorem X10_registry_after_run
    (get_accounting_data : env_t -> string -> list record_t)
    (env : env_t) (ws : worksheet) (VOs VOs' : list VO_items_t) (s : state)
    (Hrun : main get_accounting_data env ws VOs = (s, Ok VOs')) :
  Forall2 (entity_after get_accounting_data env)
          (all_details VOs) (all_details VOs').
Proof.
  rewrite main_from_loops_entry in Hrun.
  destruct (process_VOs_flat get_accounting_data env (period_row env ws) VOs
              (loops_entry env ws)) as [Hs Hr].
  destruct (process_VOs get_accounting_data env (period_row env ws) VOs
              (loops_entry env ws)) as [s3 [V|e]]; [|discriminate].
  inversion Hrun; subst. simpl in Hs, Hr.
  destruct (for_each_upd (all_details VOs) _ (loops_entry env ws))
    as [s3' [l'|e]] eqn:Hl; simpl in Hr; [|contradiction].
  subst l'. revert Hl. apply for_each_upd_Forall2.
  intros x x' s0 s0'. apply process_details_after.
Qed.

Lemma X10_registry_after_run_witness :
  let env := mkEnv "grid" "2024/01" "2024/03" "INFO" in
  let alpha := mkDetails (Some "ALPHA") (Some "grid") (Some "2023/01")
                         (Some "2025/12") (Some "Y") (Some 7%Z) in
  let fetch := fun (_ : env_t) (_ : string) =>
                 [mkRecord (Some "ALPHA-Total"%string) (Some 300%Z)] in
  let VOs := [mkVOItems [mkVoDetails [alpha]]] in
  Forall2 (entity_after fetch env) (all_details VOs)
    (all_details (match snd (main fetch env [["Period"%string]] VOs) with
                  | Ok v => v
                  | Raise _ => []
                  end)).
Proof.
  intros env alpha fetch VOs.
  apply (X10_registry_after_run fetch env [["Period"%string]] VOs _
           (fst (main fetch env [["Period"%string]] VOs))).
  vm_compute. reflexivity.
Defined.

(** The records of an entity that has its name and no counter: the
    entity, the run total and the grid stay as they are. *)
Lemma for_each_records_no_counter (env : env_t) (pos : nat)
    (data : list record_t) (details : details_t) (s : state) (vo_name : string) :
  Name details = Some vo_name ->
  CPU_h details = None ->
  let res := for_each data (process_record env pos) (details, s) in
  fst (fst res) = details
  /\ total_cpu (snd (fst res)) = total_cpu s
  /\ sheet (snd (fst res)) = sheet s.
Proof.
  intros Hn Hc. revert s. induction data as [|record data IH]; intros s; simpl.
  - auto.
  - unfold bind.
    destruct (record_raises (has_counter details) record) eqn:Hr.
    + destruct (process_record_stops env pos record details s Hr)
        as [s' [e [Hp [Ht Hs]]]].
      rewrite Hp. simpl. auto.
    + destruct (process_record_completes env pos record details s vo_name Hr Hn)
        as [details' [s' [Hp _]]].
      assert (Hother : exists rid, id record = Some rid
                                   /\ "Total" in_str rid = false).
      { revert Hr. unfold record_raises, has_counter. rewrite Hc.
        destruct (id record) as [rid|]; [|discriminate].
        destruct ("Total" in_str rid) eqn:Ht; [|intros _; now exists rid].
        destruct (Total record); discriminate. }
      destruct Hother as [rid [Hid Ht]].
      pose proof (process_record_other env pos record rid details s Hid Ht)
        as [Hd [Htot Hsh]].
      rewrite Hp in Hd, Htot, Hsh |- *. simpl in Hd, Htot, Hsh. subst details'.
      destruct (IH s') as [IH1 [IH2 IH3]]. simpl in IH1, IH2, IH3.
      rewrite Htot in IH2. rewrite Hsh in IH3. auto.
Qed.

(** X11. An eligible entity whose counter ['CPU/h'] is absent never
    contributes: its step completes and leaves the entity, the run total
    and every cell of the grid as they were; only the request and console
    lines are added to the trace. *)
Theorem X11_entity_without_counter
    (get_accounting_data : env_t -> string -> list record_t)
    (env : env_t) (accounting_period_pos : nat) (details : details_t)
    (vo_name : string) (s : state)
    (Heligible : eligible env details s = (s, Ok true))
    (Hname : Name details = Some vo_name)
    (Hcounter : CPU_h details = None) :
  exists s',
    process_details get_accounting_data env accounting_period_pos details s
    = (s', Ok details)
    /\ sheet s' = sheet s
    /\ total_cpu s' = total_cpu s.
Proof.
  rewrite (process_details_eligible _ _ _ _ vo_name _ Heligible Hname).
  destruct (get_accounting_data env vo_name) as [|record data].
  - eexists. split; [reflexivity|]. split; reflexivity.
  - cbv beta iota zeta.
    destruct (for_each_records_no_counter env accounting_period_pos
                (record :: data) details (loop_entry env vo_name s) vo_name
                Hname Hcounter) as [Hd [Ht Hs]].
    eexists. split; [now rewrite Hd|]. split; assumption.
Qed.

Lemma X11_entity_without_counter_witness :
  let env := mkEnv "grid" "2024/01" "2024/03" "INFO" in
  let alpha := mkDetails (Some "ALPHA") (Some "grid") (Some "2023/01")
                         (Some "2025/12") (Some "Y") None in
  let fetch := fun (_ : env_t) (_ : string) =>
                 [mkRecord (Some "site"%string) (Some 40%Z);
                  mkRecord (Some "Total"%string) (Some 300%Z)] in
  let s := initial_state [["Period"]; ["2024.01-03"]]%string in
  exists s', process_details fetch env 2 alpha s = (s', Ok alpha)
             /\ sheet s' = sheet s /\ total_cpu s' = 0%Z.
Proof.
  intros env alpha fetch s.
  apply (X11_entity_without_counter fetch env 2 alpha "ALPHA" s);
    reflexivity.
Defined.

(* ===================================================================== *)
(** ** The cell of a "Total" record *)
(* ===================================================================== *)

Lemma nth_insert_at_same {A : Type} (d x : A) (i : nat) (l : list A) :
  nth i (insert_at d i x l) d = x.
Proof.
  revert l. induction i as [|i IH]; intros l; [reflexivity|].
  destruct l; simpl; apply IH.
Qed.

Lemma cell_update_cell_same (row col : nat) (value : string) (ws : worksheet) :
  cell (update_cell row col value ws) row col = value.
Proof.
  unfold cell, update_cell. rewrite nth_set_at, Nat.eqb_refl.
  now rewrite nth_set_at, Nat.eqb_refl.
Qed.

Lemma cell_update_cell_other (row col r c : nat) (value : string) (ws : worksheet) :
  1 <= row -> 1 <= col -> 1 <= r -> 1 <= c -> (r, c) <> (row, col) ->
  cell (update_cell row col value ws) r c = cell ws r c.
Proof.
  intros Hrow Hcol Hr Hc Hne. unfold cell, update_cell. rewrite nth_set_at.
  destruct (Nat.eqb_spec (r - 1) (row - 1)) as [E|E]; [|reflexivity].
  rewrite nth_set_at.
  destruct (Nat.eqb_spec (c - 1) (col - 1)) as [E'|E'].
  - exfalso. apply Hne. f_equal; lia.
  - now rewrite E.
Qed.

Lemma cell_insert_cols_label (vo_name : string) (col : nat) (ws : worksheet) :
  cell (insert_cols vo_name col ws) 1 col = vo_name.
Proof.
  unfold cell, insert_cols. simpl (1 - 1).
  destruct ws; simpl nth; apply nth_insert_at_same.
Qed.

(** X12. A record whose id contains "Total", holding its [Total], for an
    entity holding its name and its counter, is processed without error
    and writes one cell: at the row of the period and at the column
    [get_vo_cell] answers, the text [format(Total, "7,d")]; every other
    cell is the one of the grid after [get_vo_cell] (the given grid, or
    the grid with the entity's column inserted, whose header then reads
    the entity's name). *)
Theorem X12_total_record_writes_its_cell (env : env_t)
    (accounting_period_pos : nat) (record : record_t) (rid vo_name : string)
    (t cpu : Z) (details : details_t) (s : state)
    (Hid : id record = Some rid)
    (Htotal_id : "Total" in_str rid = true)
    (Htotal : Total record = Some t)
    (Hcounter : CPU_h details = Some cpu)
    (Hname : Name details = Some vo_name)
    (Hrow : 2 <= accounting_period_pos) :
  let located := locate_vo (row_values (sheet s) 1) vo_name in
  let col := fst located in
  let grid := if snd located then sheet s
              else insert_cols vo_name col (sheet s) in
  let res := process_record env accounting_period_pos record (details, s) in
  snd res = Ok tt
  /\ 2 <= col
  /\ cell (sheet (snd (fst res))) accounting_period_pos col
     = Format.format_7d t
  /\ (forall r c, 1 <= r -> 1 <= c -> (r, c) <> (accounting_period_pos, col) ->
        cell (sheet (snd (fst res))) r c = cell grid r c)
  /\ (snd located = false -> cell (sheet (snd (fst res))) 1 col = vo_name).
Proof.
  intros located col grid res.
  assert (Hcol : 2 <= col) by apply locate_vo_lower.
  assert (Hres : snd res = Ok tt
                 /\ sheet (snd (fst res))
                    = update_cell accounting_period_pos col
                                  (Format.format_7d t) grid).
  { unfold res, grid, col, located, process_record. unfold_m. rewrite Hid.
    simpl. rewrite Htotal_id, andb_false_r. simpl. rewrite Htotal. simpl.
    destruct ("cloud" in_str ACCOUNTING_SCOPE env); simpl; rewrite Hcounter;
      simpl; rewrite Hname; simpl;
      unfold get_vo_cell, update_GWorkSheet; unfold_m; simpl;
      destruct (snd (locate_vo _ vo_name)); simpl;
      destruct (ACCOUNTING_SCOPE env =? "cloud")%string; simpl;
      split; reflexivity. }
  destruct Hres as [Hok Hsheet]. rewrite Hsheet.
  split; [exact Hok|]. split; [exact Hcol|].
  split; [apply cell_update_cell_same|]. split.
  - intros r c Hr Hc Hne. apply cell_update_cell_other; auto; lia.
  - intros Hnf. rewrite cell_update_cell_other; try lia.
    + unfold grid. rewrite Hnf. apply cell_insert_cols_label.
    + intros E. inversion E. lia.
Qed.

Lemma X12_total_record_writes_its_cell_witness :
  let env := mkEnv "grid" "2024/01" "2024/03" "INFO" in
  let alpha := mkDetails (Some "ALPHA") (Some "grid") (Some "2023/01")
                         (Some "2025/12") (Some "Y") (Some 0%Z) in
  let s := initial_state [["Period"; "BETA"]; ["2024.01-03"; "12"]]%string in
  let res := process_record env 2 (mkRecord (Some "Total"%string) (Some 1300%Z))
                            (alpha, s) in
  cell (sheet (snd (fst res))) 2 2 = "  1,300"%string
  /\ cell (sheet (snd (fst res))) 1 2 = "ALPHA"%string.
Proof.
  intros env alpha s res.
  destruct (X12_total_record_writes_its_cell env 2
              (mkRecord (Some "Total"%string) (Some 1300%Z)) "Total" "ALPHA"
              1300%Z 0%Z alpha s eq_refl eq_refl eq_refl eq_refl eq_refl)
    as [_ [_ [H1 [_ H2]]]].
  - lia.
  - split; [exact H1 | apply H2; reflexivity].
Defined.

(* ===================================================================== *)
(** ** The request to the accounting portal *)
(* ===================================================================== *)

Lemma string_app_inv_head (a x y : string) :
  (a ++ x)%string = (a ++ y)%string -> x = y.
Proof.
  induction a as [|c a IH]; simpl; intros H; [exact H|].
  injection H as H. now apply IH.
Qed.

Lemma list_ascii_of_string_app (a b : string) :
  list_ascii_of_string (a ++ b)
  = list_ascii_of_string a ++ list_ascii_of_string b.
Proof. induction a as [|c a IH]; simpl; [reflexivity | now rewrite IH]. Qed.

Lemma string_app_inv_tail (a x y : string) :
  (x ++ a)%string = (y ++ a)%string -> x = y.
Proof.
  intros H. apply (f_equal list_ascii_of_string) in H.
  rewrite !list_ascii_of_string_app in H. apply app_inv_tail in H.
  rewrite <- (string_of_list_ascii_of_string x).
  rewrite <- (string_of_list_ascii_of_string y). now rewrite H.
Qed.

(** X13. For given settings the request URL determines the VO name: two
    names with the same URL are equal, so no two entities with different
    names are served by one request. *)
Theorem X13_url_determines_vo_name (portal : portal_t)
    (response_json : string -> option (list record_t))
    (env : env_t) (vo_name vo_name' : string)
    (Hsame : fst (get_accounting_data portal response_json env vo_name)
             = fst (get_accounting_data portal response_json env vo_name')) :
  vo_name = vo_name'.
Proof.
  unfold get_accounting_data, accounting_url in Hsame.
  cbv beta iota zeta delta [fst] in Hsame.
  repeat apply string_app_inv_head in Hsame.
  now apply string_app_inv_tail in Hsame.
Qed.

Lemma X13_url_determines_vo_name_witness :
  let portal := mkPortal "https://accounting.egi.eu" "sum_elap_processors"
                         "onlyinfrajobs" "JSON" in
  let env := mkEnv "grid" "2024/01" "2024/03" "INFO" in
  fst (get_accounting_data portal (fun _ => None) env "alice")
  = "https://accounting.egi.eu/grid/sum_elap_processors/REGION/Year/2024/01/2024/03/custom-alice/onlyinfrajobs/JSON/"%string
  /\ "alice"%string = "alice"%string.
Proof.
  intros portal env. split; [reflexivity|].
  apply (X13_url_determines_vo_name portal (fun _ => None) env "alice" "alice").
  reflexivity.
Defined.

(** X14. An answer of the portal that is not JSON ([ValueError]), like an
    empty answer, is no data: for an eligible entity the step completes
    with the request as its only event, and leaves the entity, the run
    total and the grid as they were. *)
Theorem X14_unparsable_answer_is_no_data (portal : portal_t)
    (response_json : string -> option (list record_t))
    (env : env_t) (accounting_period_pos : nat) (details : details_t)
    (vo_name : string) (s : state)
    (Heligible : eligible env details s = (s, Ok true))
    (Hname : Name details = Some vo_name)
    (Hanswer : response_json (accounting_url portal env vo_name) = None
               \/ response_json (accounting_url portal env vo_name) = Some []) :
  process_details
    (fun env vo_name => snd (get_accounting_data portal response_json env vo_name))
    env accounting_period_pos details s
  = (mkState (sheet s) (total_cpu s) (out s ++ [Fetch vo_name]), Ok details).
Proof.
  rewrite (process_details_eligible _ _ _ _ vo_name _ Heligible Hname).
  unfold get_accounting_data. simpl snd.
  destruct Hanswer as [-> | ->]; reflexivity.
Qed.

Lemma X14_unparsable_answer_is_no_data_witness :
  let portal := mkPortal "https://accounting.egi.eu" "sum_elap_processors"
                         "onlyinfrajobs" "JSON" in
  let env := mkEnv "grid" "2024/01" "2024/03" "INFO" in
  let alpha := mkDetails (Some "ALPHA") (Some "grid") (Some "2023/01")
                         (Some "2025/12") (Some "Y") (Some 0%Z) in
  let s := initial_state [["Period"%string]] in
  process_details
    (fun env vo_name => snd (get_accounting_data portal (fun _ => None) env vo_name))
    env 2 alpha s
  = (mkState [["Period"%string]] 0 [Fetch "ALPHA"], Ok alpha).
Proof.
  intros portal env alpha s.
  apply (X14_unparsable_answer_is_no_data portal (fun _ => None) env 2 alpha
           "ALPHA" s); try reflexivity.
  left. reflexivity.
Defined.

(* ===================================================================== *)
(** ** Existing cells under an insertion *)
(* ===================================================================== *)

Lemma nth_empty {A : Type} (d : A) (n : nat) : nth n [] d = d.
Proof. now destruct n. Qed.

Lemma nth_insert_at {A : Type} (d x : A) (i j : nat) (l : list A) :
  nth j (insert_at d i x l) d
  = if (j <? i)%nat then nth j l d
    else if (j =? i)%nat then x else nth (j - 1) l d.
Proof.
  revert j l. induction i as [|i IH]; intros j l.
  - destruct j as [|j]; simpl; [reflexivity|]. now rewrite Nat.sub_0_r.
  - destruct j as [|j].
    + destruct l; reflexivity.
    + change (S j <? S i)%nat with (j <? i)%nat.
      change (S j =? S i)%nat with (j =? i)%nat.
      replace (S j - 1) with j by lia.
      destruct l as [|y l]; simpl insert_at; simpl nth at 1; rewrite IH.
      * rewrite !nth_empty. reflexivity.
      * destruct (Nat.ltb_spec j i) as [Hlt|Hge]; [reflexivity|].
        destruct (Nat.eqb_spec j i) as [He|Hne]; [reflexivity|].
        destruct j as [|j]; [lia|]. simpl. now rewrite Nat.sub_0_r.
Qed.

Lemma nth_map_insert_at (i k c : nat) (rows : list (list string)) :
  nth c (nth k (map (insert_at "" i "") rows) []) ""%string
  = nth c (insert_at "" i ""%string (nth k rows [])) ""%string.
Proof.
  revert k. induction rows as [|row rows IH]; intros k.
  - simpl map. rewrite !nth_empty, nth_insert_at, !nth_empty.
    destruct (c <? i)%nat; [reflexivity|]. now destruct (c =? i)%nat.
  - destruct k; [reflexivity | apply IH].
Qed.

Lemma nth_insert_at_empty (i c : nat) :
  nth c (insert_at "" i ""%string []) ""%string = ""%string.
Proof.
  rewrite nth_insert_at, !nth_empty.
  destruct (c <? i)%nat; [reflexivity|]. now destruct (c =? i)%nat.
Qed.

Lemma nth_row_insert_cols (vo_name : string) (col k c : nat) (ws : worksheet) :
  nth c (nth k (insert_cols vo_name col ws) []) ""%string
  = nth c (insert_at "" (col - 1)
                     (if (k =? 0)%nat then vo_name else ""%string)
                     (nth k ws [])) ""%string.
Proof.
  unfold insert_cols. destruct ws as [|header_row rows]; destruct k as [|k];
    try reflexivity.
  - change (nth (S k) [insert_at "" (col - 1) vo_name []] [])
      with (nth k (@nil (list string)) []).
    rewrite !nth_empty. simpl (S k =? 0)%nat. cbv iota.
    now rewrite nth_insert_at_empty.
  - change (nth (S k) (insert_at "" (col - 1) vo_name header_row
                         :: map (insert_at "" (col - 1) "") rows) [])
      with (nth k (map (insert_at "" (col - 1) "") rows) []).
    change (nth (S k) (header_row :: rows) []) with (nth k rows []).
    apply nth_map_insert_at.
Qed.

(** A cell of the grid after a column insertion at [col]. *)
Lemma cell_insert_cols_any (vo_name : string) (col r c : nat) (ws : worksheet) :
  1 <= r -> 1 <= c -> 1 <= col ->
  cell (insert_cols vo_name col ws) r c
  = if (c <? col)%nat then cell ws r c
    else if (c =? col)%nat then (if (r =? 1)%nat then vo_name else ""%string)
    else cell ws r (c - 1).
Proof.
  intros Hr Hc Hcol. unfold cell.
  rewrite nth_row_insert_cols, nth_insert_at.
  replace (c - 1 <? col - 1)%nat with (c <? col)%nat.
  2:{ destruct (Nat.ltb_spec (c - 1) (col - 1)), (Nat.ltb_spec c col);
        try reflexivity; lia. }
  replace (c - 1 =? col - 1)%nat with (c =? col)%nat.
  2:{ destruct (Nat.eqb_spec (c - 1) (col - 1)), (Nat.eqb_spec c col);
        try reflexivity; lia. }
  replace (r - 1 =? 0)%nat with (r =? 1)%nat.
  2:{ destruct (Nat.eqb_spec (r - 1) 0), (Nat.eqb_spec r 1);
        try reflexivity; lia. }
  reflexivity.
Qed.

(** A cell of the grid after a row insertion at [index]. *)
Lemma cell_insert_row_any (values : list string) (index r c : nat)
    (ws : worksheet) :
  1 <= r -> 1 <= index ->
  cell (insert_row values index ws) r c
  = if (r <? index)%nat then cell ws r c
    else if (r =? index)%nat then nth (c - 1) values ""%string
    else cell ws (r - 1) c.
Proof.
  intros Hr Hi. unfold cell, insert_row. rewrite nth_insert_at.
  replace (r - 1 <? index - 1)%nat with (r <? index)%nat.
  2:{ destruct (Nat.ltb_spec (r - 1) (index - 1)), (Nat.ltb_spec r index);
        try reflexivity; lia. }
  replace (r - 1 =? index - 1)%nat with (r =? index)%nat.
  2:{ destruct (Nat.eqb_spec (r - 1) (index - 1)), (Nat.eqb_spec r index);
        try reflexivity; lia. }
  destruct (r <? index)%nat; [reflexivity|].
  destruct (r =? index)%nat; reflexivity.
Qed.

(** X15. When [get_vo_cell] does not find the name, the column it inserts
    is at a column from 2 on and disturbs no existing cell: the cells
    left of it stay where they are, the cells from it on move one column
    to the right, in every row; the new column holds the name in the
    header row and is empty below. *)
Theorem X15_new_column_keeps_cells (vo_name : string) (s : state)
    (Hnot_found : snd (locate_vo (row_values (sheet s) 1) vo_name) = false) :
  let col := fst (locate_vo (row_values (sheet s) 1) vo_name) in
  let s' := fst (get_vo_cell vo_name s) in
  2 <= col
  /\ (forall r c, 1 <= r -> 1 <= c -> c < col ->
        cell (sheet s') r c = cell (sheet s) r c)
  /\ (forall r c, 1 <= r -> col <= c ->
        cell (sheet s') r (c + 1) = cell (sheet s) r c)
  /\ cell (sheet s') 1 col = vo_name
  /\ (forall r, 2 <= r -> cell (sheet s') r col = ""%string).
Proof.
  intros col s'.
  assert (Hcol : 2 <= col) by apply locate_vo_lower.
  assert (Hs : sheet s' = insert_cols vo_name col (sheet s)).
  { unfold s'. rewrite (get_vo_cell_not_found vo_name s col); [reflexivity|].
    unfold col. destruct (locate_vo (row_values (sheet s) 1) vo_name).
    simpl in *. now subst. }
  rewrite Hs. split; [exact Hcol|]. repeat split.
  - intros r c Hr Hc Hlt. rewrite cell_insert_cols_any by lia.
    destruct (Nat.ltb_spec c col); [reflexivity | lia].
  - intros r c Hr Hge. rewrite cell_insert_cols_any by lia.
    destruct (Nat.ltb_spec (c + 1) col); [lia|].
    destruct (Nat.eqb_spec (c + 1) col); [lia|].
    now replace (c + 1 - 1) with c by lia.
  - apply cell_insert_cols_label.
  - intros r Hr. rewrite cell_insert_cols_any by lia.
    destruct (Nat.ltb_spec col col); [lia|]. rewrite Nat.eqb_refl.
    destruct (Nat.eqb_spec r 1); [lia | reflexivity].
Qed.

Lemma X15_new_column_keeps_cells_witness :
  let s := initial_state [["Period"; "alice"; "cms"];
                          ["2024.01-03"; "12"; "7"]]%string in
  let s' := fst (get_vo_cell "biomed" s) in
  cell (sheet s') 2 (3 + 1) = cell (sheet s) 2 3
  /\ cell (sheet s') 1 3 = "biomed"%string.
Proof.
  intros s s'.
  destruct (X15_new_column_keeps_cells "biomed" s eq_refl)
    as [_ [_ [H1 [H2 _]]]].
  split; [apply H1; simpl; lia | exact H2].
Defined.

(** X16. When lines 177-188 do not find the period label, the row they
    insert is at a row from 2 on and disturbs no existing cell: the rows
    above it stay where they are, the rows from it on move one row down;
    the new row holds the label, then "0", and is empty after that. *)
Theorem X16_new_row_keeps_cells (env : env_t) (s : state)
    (Hnot_found : snd (locate_period (col_values (sheet s) 1)
                                     (accounting_period env)) = false) :
  let pos := fst (locate_period (col_values (sheet s) 1)
                                (accounting_period env)) in
  let s' := fst (locate_period_row env s) in
  2 <= pos
  /\ snd (locate_period_row env s) = Ok pos
  /\ (forall r c, 1 <= r -> r < pos -> cell (sheet s') r c = cell (sheet s) r c)
  /\ (forall r c, pos <= r -> cell (sheet s') (r + 1) c = cell (sheet s) r c)
  /\ cell (sheet s') pos 1 = accounting_period env
  /\ cell (sheet s') pos 2 = "0"%string
  /\ (forall c, 3 <= c -> cell (sheet s') pos c = ""%string).
Proof.
  intros pos s'.
  assert (Hpos : 2 <= pos) by apply locate_period_lower.
  assert (Hs : sheet s' = insert_row [accounting_period env; "0"%string] pos
                                     (sheet s)).
  { unfold s'. rewrite locate_period_row_spec. cbv zeta.
    rewrite Hnot_found. reflexivity. }
  rewrite Hs. split; [exact Hpos|].
  split; [apply locate_period_row_returns|]. repeat split.
  - intros r c Hr Hlt. rewrite cell_insert_row_any by lia.
    destruct (Nat.ltb_spec r pos); [reflexivity | lia].
  - intros r c Hge. rewrite cell_insert_row_any by lia.
    destruct (Nat.ltb_spec (r + 1) pos); [lia|].
    destruct (Nat.eqb_spec (r + 1) pos); [lia|].
    now replace (r + 1 - 1) with r by lia.
  - rewrite cell_insert_row_any by lia.
    destruct (Nat.ltb_spec pos pos); [lia|]. now rewrite Nat.eqb_refl.
  - rewrite cell_insert_row_any by lia.
    destruct (Nat.ltb_spec pos pos); [lia|]. now rewrite Nat.eqb_refl.
  - intros c Hc. rewrite cell_insert_row_any by lia.
    destruct (Nat.ltb_spec pos pos); [lia|]. rewrite Nat.eqb_refl.
    destruct (c - 1) as [|[|n]] eqn:E; try lia. simpl. now destruct n.
Qed.

Lemma X16_new_row_keeps_cells_witness :
  let env := mkEnv "grid" "2024/04" "2024/06" "INFO" in
  let s := initial_state [["Period"; "alice"]; ["2024.01-03"; "12"];
                          ["2024.07-09"; "7"]]%string in
  let s' := fst (locate_period_row env s) in
  cell (sheet s') (3 + 1) 2 = cell (sheet s) 3 2
  /\ cell (sheet s') 3 1 = "2024.04-06"%string.
Proof.
  intros env s s'.
  destruct (X16_new_row_keeps_cells env s eq_refl)
    as [_ [_ [_ [H1 [H2 _]]]]].
  split; [apply H1; simpl; lia | exact H2].
Defined.
